(** * wechaty-puppet-service: event stream lifecycle and reconnect

    A shallow embedding of
      - [src/server/event-stream-manager.ts]  (class [EventStreamManager]),
      - the [event] handler of [src/server/puppet-implementation.ts],
      - [src/client/puppet-service.ts]        (class [PuppetService]:
        [onGrpcStreamEvent], [reset], the miscellaneous store helpers),
      - the [stop] handler and four unary calls with their handlers
        ([roomPermission], [roomTopic], [roomAnnounce], [contactAlias]),
      - the contact payload cache of the client ([contactRawPayload],
        [batchContactRawPayload]),
    followed by the properties of the stream lifecycle that are checked
    against them, and by further properties of the same code. *)

From stdpp Require Import gmap strings list.
From Stdlib Require Import ZArith Lia DecimalString DecimalZ.

(* ===================================================================== *)
(** * The wire schema *)
(* ===================================================================== *)

(** [grpcPuppet.EventType].  The numeric codes belong to the protobuf
    contract; the code only ever compares them for equality, so the enum is
    an inductive type.  [EVENT_TYPE_UNKNOWN] stands for a code outside the
    enum (the [default:] branch of the client's [switch]). *)
Inductive EventType : Type :=
| EVENT_TYPE_UNSPECIFIED
| EVENT_TYPE_HEARTBEAT
| EVENT_TYPE_MESSAGE
| EVENT_TYPE_DONG
| EVENT_TYPE_POST
| EVENT_TYPE_ERROR
| EVENT_TYPE_FRIENDSHIP
| EVENT_TYPE_ROOM_INVITE
| EVENT_TYPE_ROOM_JOIN
| EVENT_TYPE_ROOM_LEAVE
| EVENT_TYPE_ROOM_TOPIC
| EVENT_TYPE_ROOM_ANNOUNCE
| EVENT_TYPE_SCAN
| EVENT_TYPE_READY
| EVENT_TYPE_RESET
| EVENT_TYPE_LOGIN
| EVENT_TYPE_LOGOUT
| EVENT_TYPE_DIRTY
| EVENT_TYPE_TAG
| EVENT_TYPE_TAG_GROUP
| EVENT_TYPE_POST_COMMENT
| EVENT_TYPE_POST_TAP
| EVENT_TYPE_VERIFY_CODE
| EVENT_TYPE_UNKNOWN (code : Z).

Global Instance EventType_eq_dec : EqDecision EventType.
Proof. solve_decision. Defined.

(** [EventTypeRev[type]]: the name of the enum member, [undefined] (printed
    as such inside a template string) for a code outside the enum. *)
Definition EventTypeRev (type : EventType) : string :=
  match type with
  | EVENT_TYPE_UNSPECIFIED   => "EVENT_TYPE_UNSPECIFIED"
  | EVENT_TYPE_HEARTBEAT     => "EVENT_TYPE_HEARTBEAT"
  | EVENT_TYPE_MESSAGE       => "EVENT_TYPE_MESSAGE"
  | EVENT_TYPE_DONG          => "EVENT_TYPE_DONG"
  | EVENT_TYPE_POST          => "EVENT_TYPE_POST"
  | EVENT_TYPE_ERROR         => "EVENT_TYPE_ERROR"
  | EVENT_TYPE_FRIENDSHIP    => "EVENT_TYPE_FRIENDSHIP"
  | EVENT_TYPE_ROOM_INVITE   => "EVENT_TYPE_ROOM_INVITE"
  | EVENT_TYPE_ROOM_JOIN     => "EVENT_TYPE_ROOM_JOIN"
  | EVENT_TYPE_ROOM_LEAVE    => "EVENT_TYPE_ROOM_LEAVE"
  | EVENT_TYPE_ROOM_TOPIC    => "EVENT_TYPE_ROOM_TOPIC"
  | EVENT_TYPE_ROOM_ANNOUNCE => "EVENT_TYPE_ROOM_ANNOUNCE"
  | EVENT_TYPE_SCAN          => "EVENT_TYPE_SCAN"
  | EVENT_TYPE_READY         => "EVENT_TYPE_READY"
  | EVENT_TYPE_RESET         => "EVENT_TYPE_RESET"
  | EVENT_TYPE_LOGIN         => "EVENT_TYPE_LOGIN"
  | EVENT_TYPE_LOGOUT        => "EVENT_TYPE_LOGOUT"
  | EVENT_TYPE_DIRTY         => "EVENT_TYPE_DIRTY"
  | EVENT_TYPE_TAG           => "EVENT_TYPE_TAG"
  | EVENT_TYPE_TAG_GROUP     => "EVENT_TYPE_TAG_GROUP"
  | EVENT_TYPE_POST_COMMENT  => "EVENT_TYPE_POST_COMMENT"
  | EVENT_TYPE_POST_TAP      => "EVENT_TYPE_POST_TAP"
  | EVENT_TYPE_VERIFY_CODE   => "EVENT_TYPE_VERIFY_CODE"
  | EVENT_TYPE_UNKNOWN _     => "undefined"
  end.

(** [PUPPET.types.Dirty], the key set of [dirtyMap] in [fastDirty]. *)
Inductive Dirty : Type :=
| DirtyUnspecified | DirtyMessage | DirtyContact | DirtyRoom
| DirtyRoomMember | DirtyFriendship | DirtyPost | DirtyTag | DirtyTagGroup.

Global Instance Dirty_eq_dec : EqDecision Dirty.
Proof. solve_decision. Defined.

(** The payload of an envelope.  On the wire it is the text
    [JSON.stringify(obj)], and the receiver reads it back with
    [JSON.parse(payload)]; the embedding carries the structured value itself
    and keeps the fields the code looks at: [contactId] (login), [data]
    (logout, ready, heartbeat), [payloadType] and [payloadId] (dirty).  A
    field the object does not have is [None] ([undefined]); [body] is the
    rest of the object, which the code only passes along. *)
Record Payload : Type := mkPayload {
  contactId   : option string;
  data        : option string;
  payloadType : option Dirty;
  payloadId   : option string;
  body        : string;
}.

Global Instance Payload_eq_dec : EqDecision Payload.
Proof. solve_decision. Defined.

Definition dataPayload (d : string) : Payload :=
  mkPayload None (Some d) None None "".

Definition loginPayload (id : string) : Payload :=
  mkPayload (Some id) None None None "".

(** [grpcPuppet.EventResponse].  [getSeq] is 0 when the sender never called
    [setSeq] (the protobuf default of a numeric field). *)
Record EventResponse : Type := mkEventResponse {
  getType    : EventType;
  getPayload : Payload;
  getSeq     : Z;
}.

Global Instance EventResponse_eq_dec : EqDecision EventResponse.
Proof. solve_decision. Defined.

(** The outcome of a call that may throw. *)
Inductive Result (A : Type) : Type :=
| Ok (a : A)
| Throw (message : string).
Arguments Ok {A} a.
Arguments Throw {A} message.

(* ===================================================================== *)
(** * Server side: [EventStreamManager] *)
(* ===================================================================== *)

Module Server.

(** A [grpc.ServerWritableStream] object, by identity. *)
Definition Stream : Type := nat.

(** The five events of the stream that [onStreamingCallEnd] listens to. *)
Inductive Signal : Type :=
| sig_cancelled | sig_error | sig_finish | sig_end | sig_close.

(** A listener closure created by [connectPuppetEventToStreamingCall]:
    [(payload) => this.grpcEmit(ltype, payload)], registered under
    [lname].  [lid] is the identity of the closure; the matching [off]
    closure, [() => this.puppet.off(lname, listener)], is determined by it. *)
Record Listener : Type := mkListener {
  lname : string;
  ltype : EventType;
  lid   : nat;
}.

Global Instance Listener_eq_dec : EqDecision Listener.
Proof. solve_decision. Defined.

(** What a pending [setTimeout] callback does when it fires. *)
Inductive TimerAction : Type :=
| EmitLater (type : EventType) (obj : Payload)
    (* [() => this.grpcEmit(type, obj)] *)
| EmitReadyPayload.
    (* [() => readyPayload && eventStreamManager.grpcEmit(READY, readyPayload)] *)

Record Timer : Type := mkTimer {
  tid    : nat;
  delay  : Z;
  action : TimerAction;
}.

(** Everything the server does to the outside, in program order.  The
    [log.*] lines are not part of the embedding. *)
Inductive Effect : Type :=
| stream_write (st : Stream) (response : EventResponse)
| stream_end (st : Stream)
| stream_emit_error (st : Stream) (code : Z) (details : string)
| puppet_on (l : Listener)
| puppet_off (l : Listener).

(** [grpc.status.ALREADY_EXISTS]. *)
Definition ALREADY_EXISTS : Z := 6.

(** The state of one [puppetImplementation(puppet, FileBoxUuid)] closure:
    its [EventStreamManager] (first three fields), the [let] variables of
    the closure, the puppet it serves, and the Node objects they act on. *)
Record State : Type := mkState {
  (* class EventStreamManager *)
  eventStream     : option Stream;
  puppetListening : bool;
  offCallbackList : list Listener;
  (* puppetImplementation *)
  scanPayload     : option Payload;
  readyPayload    : option Payload;
  readyTimeout    : option nat;
  (* PUPPET.impls.PuppetInterface *)
  isLoggedIn      : bool;
  currentUserId   : string;
  readyIndicator  : bool;
  listeners       : list Listener;
  PUPPET_EVENT_DICT : list string;
  (* Node: streams carrying the five handlers, pending timers, closures *)
  streamHandlers  : list Stream;
  timers          : list Timer;
  nextId          : nat;
  trace           : list Effect;
}.

Definition set_eventStream (v : option Stream) (s : State) : State :=
  mkState v (puppetListening s) (offCallbackList s) (scanPayload s)
    (readyPayload s) (readyTimeout s) (isLoggedIn s) (currentUserId s)
    (readyIndicator s) (listeners s) (PUPPET_EVENT_DICT s)
    (streamHandlers s) (timers s) (nextId s) (trace s).

Definition set_puppetListening (v : bool) (s : State) : State :=
  mkState (eventStream s) v (offCallbackList s) (scanPayload s)
    (readyPayload s) (readyTimeout s) (isLoggedIn s) (currentUserId s)
    (readyIndicator s) (listeners s) (PUPPET_EVENT_DICT s)
    (streamHandlers s) (timers s) (nextId s) (trace s).

Definition set_offCallbackList (v : list Listener) (s : State) : State :=
  mkState (eventStream s) (puppetListening s) v (scanPayload s)
    (readyPayload s) (readyTimeout s) (isLoggedIn s) (currentUserId s)
    (readyIndicator s) (listeners s) (PUPPET_EVENT_DICT s)
    (streamHandlers s) (timers s) (nextId s) (trace s).

Definition set_scanPayload (v : option Payload) (s : State) : State :=
  mkState (eventStream s) (puppetListening s) (offCallbackList s) v
    (readyPayload s) (readyTimeout s) (isLoggedIn s) (currentUserId s)
    (readyIndicator s) (listeners s) (PUPPET_EVENT_DICT s)
    (streamHandlers s) (timers s) (nextId s) (trace s).

Definition set_readyPayload (v : option Payload) (s : State) : State :=
  mkState (eventStream s) (puppetListening s) (offCallbackList s)
    (scanPayload s) v (readyTimeout s) (isLoggedIn s) (currentUserId s)
    (readyIndicator s) (listeners s) (PUPPET_EVENT_DICT s)
    (streamHandlers s) (timers s) (nextId s) (trace s).

Definition set_readyTimeout (v : option nat) (s : State) : State :=
  mkState (eventStream s) (puppetListening s) (offCallbackList s)
    (scanPayload s) (readyPayload s) v (isLoggedIn s) (currentUserId s)
    (readyIndicator s) (listeners s) (PUPPET_EVENT_DICT s)
    (streamHandlers s) (timers s) (nextId s) (trace s).

Definition set_puppet (li : bool) (id : string) (rd : bool) (s : State) : State :=
  mkState (eventStream s) (puppetListening s) (offCallbackList s)
    (scanPayload s) (readyPayload s) (readyTimeout s) li id rd
    (listeners s) (PUPPET_EVENT_DICT s)
    (streamHandlers s) (timers s) (nextId s) (trace s).

Definition set_listeners (v : list Listener) (s : State) : State :=
  mkState (eventStream s) (puppetListening s) (offCallbackList s)
    (scanPayload s) (readyPayload s) (readyTimeout s) (isLoggedIn s)
    (currentUserId s) (readyIndicator s) v (PUPPET_EVENT_DICT s)
    (streamHandlers s) (timers s) (nextId s) (trace s).

Definition set_streamHandlers (v : list Stream) (s : State) : State :=
  mkState (eventStream s) (puppetListening s) (offCallbackList s)
    (scanPayload s) (readyPayload s) (readyTimeout s) (isLoggedIn s)
    (currentUserId s) (readyIndicator s) (listeners s) (PUPPET_EVENT_DICT s)
    v (timers s) (nextId s) (trace s).

Definition set_timers (v : list Timer) (s : State) : State :=
  mkState (eventStream s) (puppetListening s) (offCallbackList s)
    (scanPayload s) (readyPayload s) (readyTimeout s) (isLoggedIn s)
    (currentUserId s) (readyIndicator s) (listeners s) (PUPPET_EVENT_DICT s)
    (streamHandlers s) v (nextId s) (trace s).

Definition set_nextId (v : nat) (s : State) : State :=
  mkState (eventStream s) (puppetListening s) (offCallbackList s)
    (scanPayload s) (readyPayload s) (readyTimeout s) (isLoggedIn s)
    (currentUserId s) (readyIndicator s) (listeners s) (PUPPET_EVENT_DICT s)
    (streamHandlers s) (timers s) v (trace s).

(** Append one effect to the trace. *)
Definition effect (e : Effect) (s : State) : State :=
  mkState (eventStream s) (puppetListening s) (offCallbackList s)
    (scanPayload s) (readyPayload s) (readyTimeout s) (isLoggedIn s)
    (currentUserId s) (readyIndicator s) (listeners s) (PUPPET_EVENT_DICT s)
    (streamHandlers s) (timers s) (nextId s) (trace s ++ [e]).

Arguments set_eventStream _ !_ /.
Arguments set_puppetListening _ !_ /.
Arguments set_offCallbackList _ !_ /.
Arguments set_scanPayload _ !_ /.
Arguments set_readyPayload _ !_ /.
Arguments set_readyTimeout _ !_ /.
Arguments set_puppet _ _ _ !_ /.
Arguments set_listeners _ !_ /.
Arguments set_streamHandlers _ !_ /.
Arguments set_timers _ !_ /.
Arguments set_nextId _ !_ /.
Arguments effect _ !_ /.

(** [busy()]: [!!this.eventStream]. *)
Definition busy (s : State) : bool :=
  match eventStream s with Some _ => true | None => false end.

(** [grpcEmit(type, obj)]: write one envelope to the attached stream, or
    drop it with a warning when none is attached. *)
Definition grpcEmit (type : EventType) (obj : Payload) (s : State) : State :=
  let response := mkEventResponse type obj 0 in
  match eventStream s with
  | Some st => effect (stream_write st response) s
  | None    => s  (* log.warn: this.eventStream is undefined *)
  end.

(** [this.puppet.off(name, listener)], the body of an [off] closure. *)
Definition puppet_off_call (l : Listener) (s : State) : State :=
  effect (puppet_off l)
    (set_listeners (filter (fun l' => l' ≠ l) (listeners s)) s).

(** [removePuppetListeners()]: pop and call every [off] closure.  [stack]
    is the array read from its end. *)
Fixpoint popAll (stack : list Listener) (s : State) : State :=
  match stack with
  | [] => s
  | func :: rest => popAll rest (puppet_off_call func s)
  end.

Definition removePuppetListeners (s : State) : State :=
  set_offCallbackList [] (popAll (reverse (offCallbackList s)) s).

(** The [switch (eventName)] of [connectPuppetEventToStreamingCall]: the
    envelope type a listener for [eventName] emits; [None] for [reset]
    (nothing registered) and for a name the switch does not know. *)
Definition eventTypeOfName (eventName : string) : option EventType :=
  if decide (eventName = "dong") then Some EVENT_TYPE_DONG
  else if decide (eventName = "dirty") then Some EVENT_TYPE_DIRTY
  else if decide (eventName = "error") then Some EVENT_TYPE_ERROR
  else if decide (eventName = "heartbeat") then Some EVENT_TYPE_HEARTBEAT
  else if decide (eventName = "friendship") then Some EVENT_TYPE_FRIENDSHIP
  else if decide (eventName = "login") then Some EVENT_TYPE_LOGIN
  else if decide (eventName = "logout") then Some EVENT_TYPE_LOGOUT
  else if decide (eventName = "message") then Some EVENT_TYPE_MESSAGE
  else if decide (eventName = "post") then Some EVENT_TYPE_POST
  else if decide (eventName = "ready") then Some EVENT_TYPE_READY
  else if decide (eventName = "room-invite") then Some EVENT_TYPE_ROOM_INVITE
  else if decide (eventName = "room-join") then Some EVENT_TYPE_ROOM_JOIN
  else if decide (eventName = "room-leave") then Some EVENT_TYPE_ROOM_LEAVE
  else if decide (eventName = "room-topic") then Some EVENT_TYPE_ROOM_TOPIC
  else if decide (eventName = "room-announce") then Some EVENT_TYPE_ROOM_ANNOUNCE
  else if decide (eventName = "scan") then Some EVENT_TYPE_SCAN
  else if decide (eventName = "tag") then Some EVENT_TYPE_TAG
  else if decide (eventName = "tag-group") then Some EVENT_TYPE_TAG_GROUP
  else if decide (eventName = "post-comment") then Some EVENT_TYPE_POST_COMMENT
  else if decide (eventName = "post-tap") then Some EVENT_TYPE_POST_TAP
  else if decide (eventName = "verify-code") then Some EVENT_TYPE_VERIFY_CODE
  else None.

(** One turn of the [for (const eventName of eventNameList)] loop. *)
Definition connectOne (eventName : string) (s : State) : State :=
  match eventTypeOfName eventName with
  | Some type =>
      let listener := mkListener eventName type (nextId s) in
      let s := set_nextId (S (nextId s)) s in
      (* this.puppet.on(eventName, listener) *)
      let s := effect (puppet_on listener)
                 (set_listeners (listeners s ++ [listener]) s) in
      (* this.offCallbackList.push(off) *)
      set_offCallbackList (offCallbackList s ++ [listener]) s
  | None => s  (* 'reset': not sent out; default: log.warn *)
  end.

Definition connectPuppetEventToStreamingCall (s : State) : State :=
  set_puppetListening true
    (fold_left (fun s eventName => connectOne eventName s)
       (PUPPET_EVENT_DICT s) s).

(** The body shared by the five handlers that [onStreamingCallEnd]
    installs; they differ in their log lines only. *)
Definition onTeardown (sig : Signal) (s : State) : State :=
  let s := if puppetListening s then removePuppetListeners s else s in
  match eventStream s with
  | Some _ => set_eventStream None s
  | None => s  (* log.warn: this.eventStream.on(sig) eventStream is undefined *)
  end.

(** [onStreamingCallEnd()]: install the five handlers on the attached
    stream. *)
Definition onStreamingCallEnd (s : State) : Result State :=
  match eventStream s with
  | None => Throw "no this.eventStream found"
  | Some st => Ok (set_streamHandlers (streamHandlers s ++ [st]) s)
  end.

Definition newTimer (ms : Z) (act : TimerAction) (s : State) : State :=
  set_nextId (S (nextId s))
    (set_timers (timers s ++ [mkTimer (nextId s) ms act]) s).

Definition connectSuccessHeartbeatPayload : Payload :=
  dataPayload "Wechaty Puppet gRPC stream connect successfully".

(** The envelopes that [start] itself writes. *)
Definition heartbeat : EventResponse :=
  mkEventResponse EVENT_TYPE_HEARTBEAT connectSuccessHeartbeatPayload 0.

Definition login (id : string) : EventResponse :=
  mkEventResponse EVENT_TYPE_LOGIN (loginPayload id) 0.

(** [start(stream)]. *)
Definition start (stream : Stream) (s : State) : Result State :=
  match eventStream s with
  | Some _ => Throw "can not set twice"
  | None =>
      let s := removePuppetListeners s in
      let s := set_eventStream (Some stream) s in
      let s := connectPuppetEventToStreamingCall s in
      match onStreamingCallEnd s with
      | Throw m => Throw m
      | Ok s =>
          let s := grpcEmit EVENT_TYPE_HEARTBEAT connectSuccessHeartbeatPayload s in
          let s := if isLoggedIn s
                   then grpcEmit EVENT_TYPE_LOGIN (loginPayload (currentUserId s)) s
                   else s in
          let s := if readyIndicator s
                   then newTimer (15 * 1000)
                          (EmitLater EVENT_TYPE_READY (dataPayload "ready")) s
                   else s in
          Ok s
      end
  end.

(** [stop()]. *)
Definition stop (s : State) : Result State :=
  match eventStream s with
  | None => Throw "no this.eventStream"
  | Some st =>
      let s := removePuppetListeners s in
      let s := effect (stream_end st) s in
      Ok (set_eventStream None s)
  end.

(** A stream object emits one of the five events: every handler installed
    on that object runs. *)
Definition streamSignal (st : Stream) (sig : Signal) (s : State) : State :=
  fold_left (fun s _ => onTeardown sig s)
    (filter (fun st' => st' = st) (streamHandlers s)) s.

(** [puppetImplementation(...).event(streamingCall)]. *)
Definition event (streamingCall : Stream) (s : State) : Result State :=
  if busy s then
    let details := "GrpcServerImpl.event() can not call twice." in
    (* streamingCall.emit('error', error) *)
    Ok (streamSignal streamingCall sig_error
          (effect (stream_emit_error streamingCall ALREADY_EXISTS details) s))
  else
    match start streamingCall s with
    | Throw m => Throw m
    | Ok s =>
        match scanPayload s with
        | Some p => Ok (grpcEmit EVENT_TYPE_SCAN p s)
        | None => Ok s
        end
    end.

(** [clearTimeout(id)]. *)
Definition clearTimeout (id : nat) (s : State) : State :=
  set_timers (filter (fun t => tid t ≠ id) (timers s)) s.

(** The four listeners that [puppetImplementation] registers on the puppet
    when it is built ([scan], [ready], [logout], [login]). *)
Definition implListeners (name : string) (payload : Payload) (s : State) : State :=
  if decide (name = "scan") then set_scanPayload (Some payload) s
  else if decide (name = "ready") then set_readyPayload (Some payload) s
  else if decide (name = "logout") then
    let s := set_readyPayload None s in
    match readyTimeout s with
    | Some id => clearTimeout id s
    | None => s
    end
  else if decide (name = "login") then
    let s := set_scanPayload None s in
    let id := nextId s in
    set_readyTimeout (Some id) (newTimer (5 * 1000) EmitReadyPayload s)
  else s.

(** The puppet emits [name] with [payload]: the listeners run in the order
    of their registration, those of [puppetImplementation] first. *)
Definition puppetEmit (name : string) (payload : Payload) (s : State) : State :=
  let s := implListeners name payload s in
  fold_left (fun s l => grpcEmit (ltype l) payload s)
    (filter (fun l => lname l = name) (listeners s)) s.

(** A pending timer fires. *)
Definition runTimer (act : TimerAction) (s : State) : State :=
  match act with
  | EmitLater type obj => grpcEmit type obj s
  | EmitReadyPayload =>
      match readyPayload s with
      | Some p => grpcEmit EVENT_TYPE_READY p s
      | None => s
      end
  end.

Definition fireTimer (id : nat) (s : State) : State :=
  match find (fun t => bool_decide (tid t = id)) (timers s) with
  | Some t => runTimer (action t) (clearTimeout id s)
  | None => s
  end.

(** What can happen to a running server, one event-loop turn each. *)
Inductive Op : Type :=
| op_event (streamingCall : Stream)
| op_stop
| op_signal (st : Stream) (sig : Signal)
| op_puppet_emit (name : string) (payload : Payload)
| op_puppet_state (loggedIn : bool) (userId : string) (ready : bool)
| op_timer (id : nat).

(** A call that throws leaves the state as it was when it threw; none of
    the calls below changes the state before it throws. *)
Definition step (op : Op) (s : State) : State :=
  match op with
  | op_event st => match event st s with Ok s' => s' | Throw _ => s end
  | op_stop => match stop s with Ok s' => s' | Throw _ => s end
  | op_signal st sig => streamSignal st sig s
  | op_puppet_emit name payload => puppetEmit name payload s
  | op_puppet_state li id rd => set_puppet li id rd s
  | op_timer id => fireTimer id s
  end.

Definition exec (ops : list Op) (s : State) : State :=
  fold_left (fun s op => step op s) ops s.

(** The envelopes written to stream [st], in order. *)
Definition written (st : Stream) (s : State) : list EventResponse :=
  omap (fun e => match e with
                 | stream_write st' r => if decide (st' = st) then Some r else None
                 | _ => None
                 end) (trace s).

(** The [off] closures that have run, in order. *)
Definition offCalls (s : State) : list Listener :=
  omap (fun e => match e with puppet_off l => Some l | _ => None end) (trace s).

(** The streams that were closed by [end()]. *)
Definition ended (s : State) : list Stream :=
  omap (fun e => match e with stream_end st => Some st | _ => None end) (trace s).

(** Sequencing of two calls that may throw. *)
Definition and_then (r : Result State) (f : State -> Result State) : Result State :=
  match r with
  | Ok s => f s
  | Throw m => Throw m
  end.

(** The closures that [connectPuppetEventToStreamingCall] creates for the
    event names [names] when the next fresh identity is [n]. *)
Fixpoint registered (names : list string) (n : nat) : list Listener :=
  match names with
  | [] => []
  | eventName :: names =>
      match eventTypeOfName eventName with
      | Some type => mkListener eventName type n :: registered names (S n)
      | None => registered names n
      end
  end.

(** A server whose event RPC has not been called yet. *)
Definition init (names : list string) : State :=
  mkState None false [] None None None false "" false [] names [] [] 0 [].

End Server.

(* ===================================================================== *)
(** * Client side: [PuppetService] *)
(* ===================================================================== *)

Module Client.

(** ** State *)

(** A listener on the [data] event of the [GrpcManager].  The two closures
    that [reset()] builds capture the [accountId] it read from the store and
    the [resolve] function of a promise, named here by a number. *)
Inductive DataListener : Type :=
| L_onGrpcStreamEvent                              (* this.onGrpcStreamEvent.bind(this) *)
| L_onLogin (accountId : option string) (future : nat)
| L_onReady (future : nat).

Global Instance DataListener_eq_dec : EqDecision DataListener.
Proof. solve_decision. Defined.

(** Modelled from the spec: [GrpcManager] ([src/client/grpc-manager.ts] is
    not among the sources).  Per section 4.2 it owns the connection and the
    inbound event subscription, [stopStream()] tears down only the
    subscription, [startStream] re-establishes it, and it is an ordinary
    event emitter for [data]: [streaming] says whether the subscription is
    open, [dataListeners] are the [data] listeners in registration order. *)
Record GrpcManager : Type := mkGrpcManager {
  streaming     : bool;
  dataListeners : list DataListener;
}.

(** What [PuppetService] does to the outside, in program order: events
    emitted to the listeners of the puppet, calls into the base class
    [PUPPET.Puppet] and into the [GrpcManager], deletions in the payload
    caches, and exceptions that leave an event listener. *)
Inductive Effect : Type :=
| emit (name : string) (payload : Payload)
| call_login (contactId : option string)
| call_logout (reason : option string)
| call_super_reset
| call_stopStream
| call_startStream (lastEventSeq accountId : option string)
| cache_delete (kind : Dirty) (id : option string)
| uncaught (message : string).

Global Instance Effect_eq_dec : EqDecision Effect.
Proof. solve_decision. Defined.

Record PuppetService : Type := mkPuppetService {
  _grpcManager        : option GrpcManager;
  timeoutMilliseconds : Z;
  waitingForLogin     : bool;
  waitingForReady     : bool;
  reconnectIndicator  : bool;
  (* this._payloadStore.miscellaneous, undefined while the store is stopped *)
  miscellaneous       : option (gmap string string);
  (* base class PUPPET.Puppet *)
  isLoggedIn          : bool;
  readyIndicator      : bool;
  (* envVars.WECHATY_PUPPET_SERVICE_DISABLE_EVENT_CACHE() *)
  DISABLE_EVENT_CACHE : bool;
  (* Date.now() *)
  now                 : Z;
  (* promises created by reset(): those already resolved, next fresh name *)
  resolved            : list nat;
  nextFuture          : nat;
  trace               : list Effect;
}.

Definition set_grpcManager (v : option GrpcManager) (s : PuppetService) :=
  mkPuppetService v (timeoutMilliseconds s) (waitingForLogin s)
    (waitingForReady s) (reconnectIndicator s) (miscellaneous s)
    (isLoggedIn s) (readyIndicator s) (DISABLE_EVENT_CACHE s) (now s)
    (resolved s) (nextFuture s) (trace s).

Definition set_waitingForLogin (v : bool) (s : PuppetService) :=
  mkPuppetService (_grpcManager s) (timeoutMilliseconds s) v
    (waitingForReady s) (reconnectIndicator s) (miscellaneous s)
    (isLoggedIn s) (readyIndicator s) (DISABLE_EVENT_CACHE s) (now s)
    (resolved s) (nextFuture s) (trace s).

Definition set_waitingForReady (v : bool) (s : PuppetService) :=
  mkPuppetService (_grpcManager s) (timeoutMilliseconds s) (waitingForLogin s)
    v (reconnectIndicator s) (miscellaneous s)
    (isLoggedIn s) (readyIndicator s) (DISABLE_EVENT_CACHE s) (now s)
    (resolved s) (nextFuture s) (trace s).

Definition set_reconnectIndicator (v : bool) (s : PuppetService) :=
  mkPuppetService (_grpcManager s) (timeoutMilliseconds s) (waitingForLogin s)
    (waitingForReady s) v (miscellaneous s)
    (isLoggedIn s) (readyIndicator s) (DISABLE_EVENT_CACHE s) (now s)
    (resolved s) (nextFuture s) (trace s).

Definition set_miscellaneous (v : option (gmap string string)) (s : PuppetService) :=
  mkPuppetService (_grpcManager s) (timeoutMilliseconds s) (waitingForLogin s)
    (waitingForReady s) (reconnectIndicator s) v
    (isLoggedIn s) (readyIndicator s) (DISABLE_EVENT_CACHE s) (now s)
    (resolved s) (nextFuture s) (trace s).

Definition set_puppet (li rd : bool) (s : PuppetService) :=
  mkPuppetService (_grpcManager s) (timeoutMilliseconds s) (waitingForLogin s)
    (waitingForReady s) (reconnectIndicator s) (miscellaneous s)
    li rd (DISABLE_EVENT_CACHE s) (now s)
    (resolved s) (nextFuture s) (trace s).

Definition set_now (v : Z) (s : PuppetService) :=
  mkPuppetService (_grpcManager s) (timeoutMilliseconds s) (waitingForLogin s)
    (waitingForReady s) (reconnectIndicator s) (miscellaneous s)
    (isLoggedIn s) (readyIndicator s) (DISABLE_EVENT_CACHE s) v
    (resolved s) (nextFuture s) (trace s).

Definition set_resolved (v : list nat) (s : PuppetService) :=
  mkPuppetService (_grpcManager s) (timeoutMilliseconds s) (waitingForLogin s)
    (waitingForReady s) (reconnectIndicator s) (miscellaneous s)
    (isLoggedIn s) (readyIndicator s) (DISABLE_EVENT_CACHE s) (now s)
    v (nextFuture s) (trace s).

Definition set_nextFuture (v : nat) (s : PuppetService) :=
  mkPuppetService (_grpcManager s) (timeoutMilliseconds s) (waitingForLogin s)
    (waitingForReady s) (reconnectIndicator s) (miscellaneous s)
    (isLoggedIn s) (readyIndicator s) (DISABLE_EVENT_CACHE s) (now s)
    (resolved s) v (trace s).

Definition effect (e : Effect) (s : PuppetService) :=
  mkPuppetService (_grpcManager s) (timeoutMilliseconds s) (waitingForLogin s)
    (waitingForReady s) (reconnectIndicator s) (miscellaneous s)
    (isLoggedIn s) (readyIndicator s) (DISABLE_EVENT_CACHE s) (now s)
    (resolved s) (nextFuture s) (trace s ++ [e]).

Arguments set_grpcManager _ !_ /.
Arguments set_waitingForLogin _ !_ /.
Arguments set_waitingForReady _ !_ /.
Arguments set_reconnectIndicator _ !_ /.
Arguments set_miscellaneous _ !_ /.
Arguments set_puppet _ _ !_ /.
Arguments set_now _ !_ /.
Arguments set_resolved _ !_ /.
Arguments set_nextFuture _ !_ /.
Arguments effect _ !_ /.

(** ** Asynchronous functions

    An [async] function runs synchronously up to its first [await], hands
    a promise back to its caller and is resumed later from the job queue.
    [Async A] is the syntax tree of such a function: reads and updates of
    the object's state, the points where it gives up control ([Yield], an
    [await] of a promise of this program), and the points where it waits
    for the world ([Await]: the transport, a timer, or a promise that an
    event listener resolves, optionally raced against [timeoutPromise]). *)

Inductive Wait : Type :=
| W_startStream (lastEventSeq accountId : option string)
| W_sleep (ms : Z)
| W_future (future : nat).

Inductive Outcome : Type :=
| Resolved
| Rejected (message : string).

Inductive Async (A : Type) : Type :=
| Done (r : Result A)
| Get (k : PuppetService -> Async A)
| Modify (f : PuppetService -> PuppetService) (k : Async A)
| Yield (k : Async A)
| Await (w : Wait) (timeout : option Z) (k : Outcome -> Async A).
Arguments Done {A} r.
Arguments Get {A} k.
Arguments Modify {A} f k.
Arguments Yield {A} k.
Arguments Await {A} w timeout k.

Fixpoint bind {A B : Type} (m : Async A) (f : A -> Async B) : Async B :=
  match m with
  | Done (Ok a) => f a
  | Done (Throw e) => Done (Throw e)
  | Get k => Get (fun s => bind (k s) f)
  | Modify g k => Modify g (bind k f)
  | Yield k => Yield (bind k f)
  | Await w t k => Await w t (fun o => bind (k o) f)
  end.

Global Instance Async_ret : MRet Async := fun A a => Done (Ok a).
Global Instance Async_bind : MBind Async := fun A B f m => bind m f.

Definition throw {A : Type} (message : string) : Async A := Done (Throw message).

(** [try { m } catch (e) { h e }]. *)
Fixpoint try_catch {A : Type} (m : Async A) (h : string -> Async A) : Async A :=
  match m with
  | Done (Ok a) => Done (Ok a)
  | Done (Throw e) => h e
  | Get k => Get (fun s => try_catch (k s) h)
  | Modify g k => Modify g (try_catch k h)
  | Yield k => Yield (try_catch k h)
  | Await w t k => Await w t (fun o => try_catch (k o) h)
  end.

(** [m.finally(() => { fin })]: run [fin] once [m] has settled and settle
    the same way. *)
Definition finally {A : Type} (m : Async A) (fin : Async unit) : Async A :=
  try_catch (a ← m; fin;; mret a) (fun e => fin;; throw e).

Definition gets {B : Type} (proj : PuppetService -> B) : Async B :=
  Get (fun s => mret (proj s)).

Definition modify (f : PuppetService -> PuppetService) : Async unit :=
  Modify f (mret tt).

Definition perform (e : Effect) : Async unit := modify (effect e).

(** [await m], where [m] is a promise of this program. *)
Definition await {A : Type} (m : Async A) : Async A :=
  a ← m; Yield (mret a).

(** [await] of something the world settles; a rejection is thrown. *)
Definition wait (w : Wait) (timeout : option Z) : Async unit :=
  Await w timeout (fun o =>
    match o with
    | Resolved => mret tt
    | Rejected e => throw e
    end).

(** ** Strings and numbers *)

(** [n.toString()] and [String(n)] of an integer. *)
Definition toString (n : Z) : string := NilZero.string_of_int (Z.to_int n).

(** [Number(s)] for the strings the store holds, which are written by
    [toString]: the integer a decimal numeral stands for, 0 for the empty
    string, [None] ([NaN]) otherwise. *)
Definition Number (s : string) : option Z :=
  if decide (s = "") then Some 0%Z
  else Z.of_int <$> NilZero.int_of_string s.

(** Truthiness of [string | undefined]. *)
Definition truthy (v : option string) : bool :=
  match v with
  | Some s => bool_decide (s ≠ "")
  | None => false
  end.

(** [a > b] where [b] may be [NaN]. *)
Definition gt_number (a : Z) (b : option Z) : bool :=
  match b with
  | Some b => (b <? a)%Z
  | None => false
  end.

(** ** The miscellaneous store *)

Record MiscellaneousStoreData : Type := mkMisc {
  lastEventSeq       : option string;
  lastEventTimestamp : option string;
  accountId          : option string;
}.

(** [this._payloadStore.miscellaneous?.get(key)]. *)
Definition store_get (key : string) : Async (option string) :=
  gets (fun s => m ← miscellaneous s; m !! key).

(** [this._payloadStore.miscellaneous?.set(key, value)]. *)
Definition store_set (key value : string) : Async unit :=
  modify (fun s => set_miscellaneous (insert key value <$> miscellaneous s) s).

(** [this._payloadStore.miscellaneous?.delete(key)]. *)
Definition store_delete (key : string) : Async unit :=
  modify (fun s => set_miscellaneous (delete key <$> miscellaneous s) s).

Definition getMiscellaneousStoreData : Async MiscellaneousStoreData :=
  disabled ← gets DISABLE_EVENT_CACHE;
  if disabled : bool then mret (mkMisc None None (Some ""))
  else
    lastEventTimestamp ← await (store_get "lastEventTimestamp");
    lastEventSeq ← await (store_get "lastEventSeq");
    t ← gets now;
    timeout ← gets timeoutMilliseconds;
    let last := if truthy lastEventTimestamp
                then from_option Number (Some 0%Z) lastEventTimestamp
                else Some 0%Z in
    let lastEventSeq :=
      match last with
      | Some last => if (timeout <? t - last)%Z then None else lastEventSeq
      | None => lastEventSeq
      end in
    accountId ← await (store_get "accountId");
    mret (mkMisc lastEventSeq lastEventTimestamp accountId).

Definition setMiscellaneousStoreData (data : MiscellaneousStoreData) : Async unit :=
  disabled ← gets DISABLE_EVENT_CACHE;
  if disabled : bool then mret tt
  else
    match lastEventSeq data with
    | Some v => await (store_set "lastEventSeq" v)
    | None => mret tt
    end;;
    match lastEventTimestamp data with
    | Some v => await (store_set "lastEventTimestamp" v)
    | None => mret tt
    end;;
    match accountId data with
    | Some v => await (store_set "accountId" v)
    | None => mret tt
    end.

Definition resetMiscellaneousStoreData : Async unit :=
  disabled ← gets DISABLE_EVENT_CACHE;
  if disabled : bool then mret tt
  else
    await (store_delete "lastEventSeq");;
    await (store_delete "lastEventTimestamp");;
    await (store_delete "accountId").

(** ** The [GrpcManager] as [PuppetService] uses it *)

(** [get grpcManager ()]. *)
Definition grpcManager : Async GrpcManager :=
  m ← gets _grpcManager;
  match m with
  | Some mgr => mret mgr
  | None =>
      perform (emit "error" (dataPayload "no grpc manager"));;
      throw "no grpc manager"
  end.

Definition update_manager (f : GrpcManager -> GrpcManager) : Async unit :=
  modify (fun s => set_grpcManager (f <$> _grpcManager s) s).

(** [this.grpcManager.stopStream()]. *)
Definition stopStream : Async unit :=
  _ ← grpcManager;
  perform call_stopStream;;
  update_manager (fun mgr => mkGrpcManager false (dataListeners mgr)).

(** [this.grpcManager.on('data', listener)]. *)
Definition on_data (l : DataListener) : Async unit :=
  _ ← grpcManager;
  update_manager (fun mgr => mkGrpcManager (streaming mgr) (dataListeners mgr ++ [l])).

(** [this.grpcManager.off('data', listener)]; every closure is registered
    at most once. *)
Definition off_data (l : DataListener) : Async unit :=
  _ ← grpcManager;
  update_manager (fun mgr =>
    mkGrpcManager (streaming mgr) (filter (fun l' => l' ≠ l) (dataListeners mgr))).

(** [timeoutPromise(this.grpcManager.startStream(lastEventSeq, accountId), ms)]. *)
Definition startStream (lastEventSeq accountId : option string) (ms : Z) : Async unit :=
  _ ← grpcManager;
  perform (call_startStream lastEventSeq accountId);;
  wait (W_startStream lastEventSeq accountId) (Some ms);;
  update_manager (fun mgr => mkGrpcManager true (dataListeners mgr)).

(** [new Promise(resolve => ...)]: a fresh, unresolved promise. *)
Definition newPromise : Async nat :=
  f ← gets nextFuture;
  modify (set_nextFuture (S f));;
  mret f.

(** [resolve()]; resolving twice is the same as resolving once. *)
Definition resolve (future : nat) (s : PuppetService) : PuppetService :=
  if bool_decide (future ∈ resolved s) then s
  else set_resolved (future :: resolved s) s.

(** ** [onGrpcStreamEvent] *)

(** [fastDirty({ payloadType, payloadId })]. *)
Definition fastDirty (payload : Payload) : Async unit :=
  let dirtyMap (id : option string) : Async unit :=
    match payloadType payload with
    | Some DirtyContact    => perform (cache_delete DirtyContact id)
    | Some DirtyFriendship => mret tt
    | Some DirtyMessage    => mret tt
    | Some DirtyPost       => mret tt
    | Some DirtyRoom       => perform (cache_delete DirtyRoom id)
    | Some DirtyRoomMember => perform (cache_delete DirtyRoomMember id)
    | Some DirtyTag        => perform (cache_delete DirtyTag id)
    | Some DirtyTagGroup   => perform (cache_delete DirtyTagGroup id)
    | Some DirtyUnspecified => throw "Unspecified type with id"
    | None => throw "dirtyMap[payloadType] is not a function"
    end in
  try_catch (await (dirtyMap (payloadId payload)))
    (fun error => perform (emit "error" (dataPayload error))).

(** The block of [onGrpcStreamEvent] that keeps the watermark
    ([if (seq && !DISABLE_EVENT_CACHE()) { ... }]). *)
Definition updateWatermark (seq : Z) (timestamp : string) : Async unit :=
  disabled ← gets DISABLE_EVENT_CACHE;
  if bool_decide (seq ≠ 0%Z) && negb disabled then
    stored ← await getMiscellaneousStoreData;
    if negb (truthy (lastEventSeq stored))
       || gt_number seq (from_option Number None (lastEventSeq stored))
       || bool_decide (seq = 1%Z)
    then await (setMiscellaneousStoreData
                  (mkMisc (Some (toString seq)) (Some timestamp) None))
    else mret tt
  else mret tt.

(** The [switch (type)] of [onGrpcStreamEvent]. *)
Definition switchType (type : EventType) (payload : Payload) : Async unit :=
  match type with
  | EVENT_TYPE_DONG => perform (emit "dong" payload)
  | EVENT_TYPE_ERROR => perform (emit "error" payload)
  | EVENT_TYPE_HEARTBEAT => perform (emit "heartbeat" payload)
  | EVENT_TYPE_FRIENDSHIP => perform (emit "friendship" payload)
  | EVENT_TYPE_LOGIN =>
      waiting ← gets waitingForLogin;
      loggedIn ← gets isLoggedIn;
      if waiting && loggedIn then mret tt   (* ignored: expected by the reconnect *)
      else
        disabled ← gets DISABLE_EVENT_CACHE;
        (if negb disabled then
           stored ← await getMiscellaneousStoreData;
           if bool_decide (accountId stored ≠ contactId payload) then
             await resetMiscellaneousStoreData;;
             await (setMiscellaneousStoreData (mkMisc None None (contactId payload)))
           else mret tt
         else mret tt);;
        perform (call_login (contactId payload))
  | EVENT_TYPE_LOGOUT =>
      disabled ← gets DISABLE_EVENT_CACHE;
      (if negb disabled then await resetMiscellaneousStoreData else mret tt);;
      perform (call_logout (data payload))
  | EVENT_TYPE_DIRTY =>
      await (fastDirty payload);;
      perform (emit "dirty" payload)
  | EVENT_TYPE_MESSAGE => perform (emit "message" payload)
  | EVENT_TYPE_POST => perform (emit "post" payload)
  | EVENT_TYPE_POST_COMMENT => perform (emit "post-comment" payload)
  | EVENT_TYPE_POST_TAP => perform (emit "post-tap" payload)
  | EVENT_TYPE_READY =>
      waiting ← gets waitingForReady;
      ready ← gets readyIndicator;
      if waiting && ready then mret tt   (* ignored: expected by the reconnect *)
      else perform (emit "ready" payload)
  | EVENT_TYPE_ROOM_INVITE => perform (emit "room-invite" payload)
  | EVENT_TYPE_ROOM_JOIN => perform (emit "room-join" payload)
  | EVENT_TYPE_ROOM_LEAVE => perform (emit "room-leave" payload)
  | EVENT_TYPE_ROOM_TOPIC => perform (emit "room-topic" payload)
  | EVENT_TYPE_ROOM_ANNOUNCE => perform (emit "room-announce" payload)
  | EVENT_TYPE_SCAN => perform (emit "scan" payload)
  | EVENT_TYPE_TAG => perform (emit "tag" payload)
  | EVENT_TYPE_TAG_GROUP => perform (emit "tag-group" payload)
  | EVENT_TYPE_RESET => mret tt          (* log.warn; not sent out *)
  | EVENT_TYPE_VERIFY_CODE => perform (emit "verify-code" payload)
  | EVENT_TYPE_UNSPECIFIED => mret tt    (* log.error *)
  | EVENT_TYPE_UNKNOWN _ => mret tt      (* default: log.error *)
  end.

(** The payload of the heartbeat that stands for a received envelope. *)
Definition receivedHeartbeat (type : EventType) : Payload :=
  dataPayload ("onGrpcStreamEvent(" +:+ EventTypeRev type +:+ ")").

Definition onGrpcStreamEvent (event : EventResponse) : Async unit :=
  let type := getType event in
  let payload := getPayload event in
  let seq := getSeq event in
  t ← gets now;
  let timestamp := toString t in
  (if bool_decide (type ≠ EVENT_TYPE_HEARTBEAT) then
     perform (emit "heartbeat" (receivedHeartbeat type))
   else mret tt);;
  updateWatermark seq timestamp;;
  switchType type payload.

(** ** [constructor], [onStart], [onStop] *)

(** [new PuppetService(options)], as far as the fields above go;
    [timeoutSeconds] is [options.timeoutSeconds]. *)
Definition constructor (timeoutSeconds : option Z) (disableEventCache : bool)
    (clock : Z) : PuppetService :=
  let seconds := match timeoutSeconds with
                 | Some n => if (n =? 0)%Z then 2%Z else n
                 | None => 2%Z
                 end in
  mkPuppetService None (seconds * 1000 * 60) false false false None
    false false disableEventCache clock [] 0 [].

(** [onStart()], up to the call of [grpcManager.start]. *)
Definition onStart : Async unit :=
  modify (set_waitingForLogin false);;
  modify (set_waitingForReady false);;
  modify (set_grpcManager (Some (mkGrpcManager false [])));;
  (* bridgeGrpcEventStream(grpcManager) *)
  on_data L_onGrpcStreamEvent;;
  stored ← await getMiscellaneousStoreData;
  perform (call_startStream (lastEventSeq stored) (accountId stored));;
  wait (W_startStream (lastEventSeq stored) (accountId stored)) None;;
  update_manager (fun mgr => mkGrpcManager true (dataListeners mgr)).


(** ** [reset] *)

Definition ResetLoginTimeout : Z := 30 * 1000.
Definition ResetReadyTimeout : Z := 20 * 1000.

(** The listener that [onLoginResolve(resolve)] returns. *)
Definition onLogin (accountId : option string) (future : nat)
    (event : EventResponse) (s : PuppetService) : PuppetService * Result unit :=
  let type := getType event in
  let payload := getPayload event in
  if waitingForLogin s && bool_decide (type = EVENT_TYPE_LOGIN) then
    let payloadObj := payload in
    let s := set_waitingForLogin false s in
    if truthy accountId && bool_decide (contactId payloadObj ≠ accountId) then
      (s, Throw "login with a different account, perform regular reset")
    else (resolve future s, Ok tt)
  else (s, Ok tt).

(** The listener that [onReadyResolve(resolve)] returns. *)
Definition onReady (future : nat) (event : EventResponse) (s : PuppetService)
    : PuppetService :=
  let type := getType event in
  if waitingForReady s && bool_decide (type = EVENT_TYPE_READY) then
    resolve future (set_waitingForReady false s)
  else s.

(** The [while (true)] loop of [reset()].  It answers [true] when it is
    left by [break] and [false] when it is left by [return super.reset()].
    [fuel] bounds the number of turns. *)
Fixpoint startStreamLoop (fuel : nat) (lastEventSeq accountId : option string)
    (startTime timeoutMilliseconds : Z) : Async bool :=
  match fuel with
  | O => throw "startStreamLoop: out of fuel"
  | S fuel =>
      try_catch
        (startStream lastEventSeq accountId (30 * 1000);; mret true)
        (fun _ =>
           t ← gets now;
           if (t - startTime <? timeoutMilliseconds)%Z then
             wait (W_sleep 5000) None;;
             startStreamLoop fuel lastEventSeq accountId startTime timeoutMilliseconds
           else
             modify (set_reconnectIndicator false);;
             perform call_super_reset;;
             mret false)
  end.

(** Every turn but the last sleeps 5000 ms, and a turn goes on to the next
    only while less than [timeoutMilliseconds] have passed: that many turns
    are enough (see [loopFuel_enough] below). *)
Definition loopFuel (timeoutMilliseconds : Z) : nat :=
  S (S (Z.to_nat (timeoutMilliseconds / 5000))).

(** The first [try] block of [reset()]: wait for the login event.  It
    answers [false] when it is left by [return super.reset()]. *)
Definition awaitLogin (accountId : option string) (loginFuture : nat) : Async bool :=
  let onLogin := L_onLogin accountId loginFuture in
  try_catch
    (finally (wait (W_future loginFuture) (Some ResetLoginTimeout))
       (modify (set_waitingForLogin false);;
        modify (set_reconnectIndicator false);;
        off_data onLogin);;
     mret true)
    (fun _ => perform call_super_reset;; mret false).

(** The second [try] block of [reset()]: wait for the ready event. *)
Definition awaitReady (readyFuture : nat) : Async unit :=
  let onReady := L_onReady readyFuture in
  try_catch
    (finally (wait (W_future readyFuture) (Some ResetReadyTimeout))
       (modify (set_waitingForReady false);;
        off_data onReady))
    (fun _ => mret tt).

(** [reset()] from [this.waitingForLogin = true] on. *)
Definition awaitLoginAndReady (accountId : option string)
    (loginFuture readyFuture : nat) : Async unit :=
  modify (set_waitingForLogin true);;
  modify (set_waitingForReady true);;
  loggedIn ← awaitLogin accountId loginFuture;
  if loggedIn : bool then awaitReady readyFuture else mret tt.

Definition reset : Async unit :=
  s ← gets id;
  if negb (bool_decide (is_Some (_grpcManager s))) then perform call_super_reset
  else if negb (isLoggedIn s) then perform call_super_reset
  else if reconnectIndicator s then mret tt
  else
    modify (set_reconnectIndicator true);;
    stopStream;;
    stored ← await getMiscellaneousStoreData;
    let lastEventSeq := lastEventSeq stored in
    let accountId := accountId stored in
    loginFuture ← newPromise;
    on_data (L_onLogin accountId loginFuture);;
    readyFuture ← newPromise;
    on_data (L_onReady readyFuture);;
    startTime ← gets now;
    timeout ← gets timeoutMilliseconds;
    let timeoutMilliseconds := (timeout / 10)%Z in
    started ← startStreamLoop (loopFuel timeoutMilliseconds)
                lastEventSeq accountId startTime timeoutMilliseconds;
    if started : bool then awaitLoginAndReady accountId loginFuture readyFuture
    else mret tt.

(** ** Running the program

    The event loop, as far as [PuppetService] is concerned.  [head] runs a
    function up to the point where it gives up control.  [advance] lets the
    job queue run: a suspended function goes on until it has finished or
    waits for the world; an [await] of a promise that a listener has
    already resolved does not wait. *)

Fixpoint head {A : Type} (t : Async A) (s : PuppetService) : PuppetService * Async A :=
  match t with
  | Get k => head (k s) s
  | Modify f k => head k (f s)
  | _ => (s, t)
  end.

Fixpoint advance {A : Type} (t : Async A) (s : PuppetService) : PuppetService * Async A :=
  match t with
  | Get k => advance (k s) s
  | Modify f k => advance k (f s)
  | Yield k => advance k s
  | Await (W_future f) _ k =>
      if bool_decide (f ∈ resolved s) then advance (k Resolved) s else (s, t)
  | _ => (s, t)
  end.

(** [grpcManager.emit('data', event)]: the listeners are called one after
    the other, in the order of their registration.  An [async] listener
    returns at its first [await] and its remainder is queued behind the
    emit; an exception thrown by a listener leaves [emit] and the listeners
    behind it are not called. *)
Fixpoint callListeners (ls : list DataListener) (event : EventResponse)
    (s : PuppetService) (queue : list (Async unit))
    : PuppetService * list (Async unit) :=
  match ls with
  | [] => (s, queue)
  | L_onGrpcStreamEvent :: rest =>
      let '(s, t) := head (onGrpcStreamEvent event) s in
      callListeners rest event s (queue ++ [t])
  | L_onLogin acc f :: rest =>
      match onLogin acc f event s with
      | (s, Ok _) => callListeners rest event s queue
      | (s, Throw e) => (effect (uncaught e) s, queue)
      end
  | L_onReady f :: rest =>
      callListeners rest event (onReady f event s) queue
  end.

Definition emitData (event : EventResponse) (s : PuppetService) : PuppetService :=
  match _grpcManager s with
  | None => s
  | Some mgr =>
      let '(s, queue) := callListeners (dataListeners mgr) event s [] in
      fold_left (fun s t => fst (advance t s)) queue s
  end.

(** What the world does between two turns of [reset()]. *)
Inductive Input : Type :=
| in_data (event : EventResponse)
    (* the stream delivers an envelope *)
| in_settle (o : Outcome) (elapsed : Z)
    (* the operation [reset()] waits for (startStream, the sleep) settles
       [elapsed] ms after it began; [timeoutPromise] rejects instead when
       its time is up first *)
| in_timeout
    (* the time of [timeoutPromise] is up and its promise is still pending *)
| in_elapse (ms : Z)
    (* time passes *)
| in_puppet (loggedIn ready : bool).
    (* the base class changes its login and ready state *)

Definition resume (o : Outcome) (k : Outcome -> Async unit) (s : PuppetService)
    : PuppetService * Async unit :=
  advance (k o) s.

Definition feed (i : Input) (t : Async unit) (s : PuppetService)
    : PuppetService * Async unit :=
  match i with
  | in_data event => advance t (emitData event s)
  | in_elapse ms => (set_now (now s + Z.max 0 ms) s, t)
  | in_puppet li rd => (set_puppet li rd s, t)
  | in_settle o elapsed =>
      match t with
      | Await (W_startStream _ _) timeout k =>
          let elapsed := Z.max 0 elapsed in
          match timeout with
          | Some ms =>
              if (elapsed <? ms)%Z
              then resume o k (set_now (now s + elapsed) s)
              else resume (Rejected "timeout") k (set_now (now s + ms) s)
          | None => resume o k (set_now (now s + elapsed) s)
          end
      | Await (W_sleep ms) _ k =>
          resume Resolved k (set_now (now s + ms + Z.max 0 elapsed) s)
      | _ => (s, t)
      end
  | in_timeout =>
      match t with
      | Await (W_future f) (Some ms) k =>
          if bool_decide (f ∈ resolved s) then advance t s
          else resume (Rejected "timeout") k s
      | _ => (s, t)
      end
  end.

Fixpoint drive (inputs : list Input) (t : Async unit) (s : PuppetService)
    : PuppetService * Async unit :=
  match inputs with
  | [] => (s, t)
  | i :: inputs => let '(s, t) := feed i t s in drive inputs t s
  end.

(** Call [m] and let the world go through [inputs]. *)
Definition run (m : Async unit) (inputs : list Input) (s : PuppetService)
    : PuppetService * Async unit :=
  let '(s, t) := advance m s in drive inputs t s.

(** Run a function alone until it has finished: for an event handler,
    which never waits for the world. *)
Definition complete {A : Type} (m : Async A) (s : PuppetService) : PuppetService :=
  fst (advance m s).

(** What a suspended function waits for, and for how long at most. *)
Definition waitsFor {A : Type} (t : Async A) : option (Wait * option Z) :=
  match t with
  | Await w timeout _ => Some (w, timeout)
  | _ => None
  end.

(** ** The store helpers, read in one go

    What the three helpers amount to when nothing else runs between their
    [await]s (see [getMiscellaneousStoreData_advance] and the lemmas next
    to it). *)

Definition lookupMisc (key : string) (s : PuppetService) : option string :=
  m ← miscellaneous s; m !! key.

(** The last event is more than [timeoutMilliseconds] old. *)
Definition stale (s : PuppetService) : bool :=
  let lastEventTimestamp := lookupMisc "lastEventTimestamp" s in
  let last := if truthy lastEventTimestamp
              then from_option Number (Some 0%Z) lastEventTimestamp
              else Some 0%Z in
  match last with
  | Some last => (timeoutMilliseconds s <? now s - last)%Z
  | None => false
  end.

Definition storedData (s : PuppetService) : MiscellaneousStoreData :=
  if DISABLE_EVENT_CACHE s then mkMisc None None (Some "")
  else mkMisc (if stale s then None else lookupMisc "lastEventSeq" s)
         (lookupMisc "lastEventTimestamp" s) (lookupMisc "accountId" s).

Definition setField (key : string) (value : option string)
    (m : option (gmap string string)) : option (gmap string string) :=
  match value with
  | Some v => insert key v <$> m
  | None => m
  end.

Definition storeData (data : MiscellaneousStoreData) (s : PuppetService)
    : PuppetService :=
  if DISABLE_EVENT_CACHE s then s
  else set_miscellaneous
         (setField "accountId" (accountId data)
            (setField "lastEventTimestamp" (lastEventTimestamp data)
               (setField "lastEventSeq" (lastEventSeq data) (miscellaneous s)))) s.

Definition clearData (s : PuppetService) : PuppetService :=
  if DISABLE_EVENT_CACHE s then s
  else set_miscellaneous
         (delete "accountId" <$>
            (delete "lastEventTimestamp" <$>
               (delete "lastEventSeq" <$> miscellaneous s))) s.

(** The test of [updateWatermark]. *)
Definition overwrites (seq : Z) (s : PuppetService) : bool :=
  bool_decide (seq ≠ 0%Z) && negb (DISABLE_EVENT_CACHE s) &&
  (negb (truthy (lastEventSeq (storedData s)))
   || gt_number seq (from_option Number None (lastEventSeq (storedData s)))
   || bool_decide (seq = 1%Z)).

(** ** What an event handler does

    [Runs R Q m]: [m] never waits for the world, every update it makes to
    the state is a step of the relation [R], and it settles with a result
    that satisfies [Q]. *)

Section Runs.
Context (R : relation PuppetService) {A : Type} (Q : Result A -> Prop).

Inductive Runs : Async A -> Prop :=
| Runs_Done r : Q r -> Runs (Done r)
| Runs_Get k : (forall s, Runs (k s)) -> Runs (Get k)
| Runs_Modify f k : (forall s, R s (f s)) -> Runs k -> Runs (Modify f k)
| Runs_Yield k : Runs k -> Runs (Yield k).
End Runs.

Definition returns {A : Type} (r : Result A) : Prop :=
  match r with Ok _ => True | Throw _ => False end.

Definition settles {A : Type} (r : Result A) : Prop := True.

(** The fields that only [reset()] and its two listeners write. *)
Definition control (s : PuppetService) :=
  (_grpcManager s, timeoutMilliseconds s, waitingForLogin s, waitingForReady s,
   reconnectIndicator s, isLoggedIn s, readyIndicator s,
   DISABLE_EVENT_CACHE s, now s, resolved s, nextFuture s).

(** [s'] differs from [s] in the store and in effects added to the trace. *)
Definition handler_step (s s' : PuppetService) : Prop :=
  control s' = control s /\ trace s `prefix_of` trace s'.

(** [s'] differs from [s] in effects added to the trace only. *)
Definition effects_step (s s' : PuppetService) : Prop :=
  control s' = control s /\ miscellaneous s' = miscellaneous s /\
  trace s `prefix_of` trace s'.

(** [s'] differs from [s] in the store only. *)
Definition store_step (s s' : PuppetService) : Prop :=
  control s' = control s /\ trace s' = trace s.

(** ** The listeners of [reset()] alone

    [callListeners] on a list that holds none but the two kinds of listener
    that [reset()] registers: they are synchronous, nothing is queued. *)

Fixpoint callResetListeners (ls : list DataListener) (event : EventResponse)
    (s : PuppetService) : PuppetService :=
  match ls with
  | [] => s
  | L_onGrpcStreamEvent :: rest => callResetListeners rest event s
  | L_onLogin acc f :: rest =>
      match onLogin acc f event s with
      | (s, Ok _) => callResetListeners rest event s
      | (s, Throw e) => effect (uncaught e) s
      end
  | L_onReady f :: rest => callResetListeners rest event (onReady f event s)
  end.

(** ** Scripts for the retry loop *)

(** One failed attempt to start the stream and the sleep behind it: the
    attempt settles with [r_outcome] after [r_elapsed] ms, the timer of the
    sleep fires [r_late] ms late. *)
Record Retry : Type := mkRetry {
  r_outcome : Outcome;
  r_elapsed : Z;
  r_late    : Z;
}.

Definition retryInputs (r : Retry) : list Input :=
  [in_settle (r_outcome r) (r_elapsed r); in_settle Resolved (r_late r)].

(** The attempt is rejected, or is still pending when the 30 s of
    [timeoutPromise] are up. *)
Definition attemptFails (r : Retry) : Prop :=
  r_outcome r <> Resolved \/ (30000 <= Z.max 0 (r_elapsed r))%Z.

(** [Date.now()] in the [catch] block, when the attempt began at [clock]. *)
Definition failedAt (clock : Z) (r : Retry) : Z :=
  (clock + Z.min (Z.max 0 (r_elapsed r)) 30000)%Z.

(** [Date.now()] when the next attempt begins. *)
Definition retriedAt (clock : Z) (r : Retry) : Z :=
  (failedAt clock r + 5000 + Z.max 0 (r_late r))%Z.

(** Every attempt of [rs] fails within the budget, so that the loop goes
    through all of them. *)
Fixpoint retried (startTime budget clock : Z) (rs : list Retry) : Prop :=
  match rs with
  | [] => True
  | r :: rs =>
      attemptFails r /\
      (failedAt clock r - startTime < budget)%Z /\
      retried startTime budget (retriedAt clock r) rs
  end.

(** The state after an attempt was made, ... *)
Definition attempted (seq acc : option string) (clock : Z) (s : PuppetService)
    : PuppetService :=
  set_now clock (effect (call_startStream seq acc) s).

(** ... after it succeeded, ... *)
Definition started (seq acc : option string) (clock : Z) (s : PuppetService)
    : PuppetService :=
  set_grpcManager
    ((fun mgr => mkGrpcManager true (dataListeners mgr)) <$> _grpcManager s)
    (attempted seq acc clock s).

(** ... and after the loop gave up on it. *)
Definition gaveUp (seq acc : option string) (clock : Z) (s : PuppetService)
    : PuppetService :=
  effect call_super_reset
    (set_reconnectIndicator false (attempted seq acc clock s)).

Fixpoint afterRetries (seq acc : option string) (rs : list Retry)
    (s : PuppetService) : PuppetService :=
  match rs with
  | [] => s
  | r :: rs => afterRetries seq acc rs (attempted seq acc (retriedAt (now s) r) s)
  end.

(** The state in which [reset()] enters its loop. *)
Definition prepared (s : PuppetService) : PuppetService :=
  let acc := accountId (storedData s) in
  let f := nextFuture s in
  set_nextFuture (S (S f))
    (set_grpcManager
       ((fun mgr => mkGrpcManager false
                      (dataListeners mgr ++ [L_onLogin acc f; L_onReady (S f)]))
          <$> _grpcManager s)
       (effect call_stopStream (set_reconnectIndicator true s))).

(** [mgr] is in place and the promise [f] is pending. *)
Definition pending (mgr : GrpcManager) (f : nat) (s : PuppetService) : Prop :=
  _grpcManager s = Some mgr /\ f ∉ resolved s.

(** A started session on which [reset()] takes the fast path: the event
    handler is bridged (once, in front of the listeners [ls] that earlier
    calls of [reset()] may have left behind), the puppet is logged in, no
    reconnect is in flight, and the name of the next promise is fresh. *)
Definition fastPath (s : PuppetService) (ls : list DataListener) : Prop :=
  (exists mgr, _grpcManager s = Some mgr /\
               dataListeners mgr = L_onGrpcStreamEvent :: ls) /\
  (L_onGrpcStreamEvent ∉ ls) /\
  isLoggedIn s = true /\
  reconnectIndicator s = false /\
  (nextFuture s ∉ resolved s) /\
  forall l, l ∈ ls ->
    l <> L_onReady (nextFuture s) /\ forall acc, l <> L_onLogin acc (nextFuture s).

(** ** Example sessions *)

(** A session that has seen the event number 5 at time 1000 (default
    options, so [timeoutMilliseconds] is 120000), at time [clock]. *)
Definition seen5 (clock : Z) : PuppetService :=
  set_miscellaneous
    (Some (<["lastEventSeq" := "5"]> {["lastEventTimestamp" := "1000"]}))
    (constructor None false clock).

Definition message (seq : Z) : EventResponse :=
  mkEventResponse EVENT_TYPE_MESSAGE (dataPayload "m") seq.

(** A started session (default options, event cache enabled) that is
    logged in as account [A1] and ready, at time 1010. *)
Definition session : PuppetService :=
  set_miscellaneous (Some {["accountId" := "A1"]})
    (set_puppet true true
       (fst (run onStart [in_settle Resolved 10] (constructor None false 1000)))).


End Client.

(* ===================================================================== *)
(** * Server side: the [stop] handler, and what a running server keeps *)
(* ===================================================================== *)

Module ServerLife.
Import Server.

(** What a unary handler hands to its [callback]. *)
Inductive Reply : Type :=
| reply_ok                       (* [callback(null, response)] *)
| reply_error (message : string) (* [grpcError(method, e, callback)] *).

(** [puppetImplementation(...).stop(call, callback)].  [puppetStop] is the
    way [timeoutPromise(puppet.stop(), 15 * 1000)] settles; what the puppet
    does while it stops is not part of the embedding. *)
Definition stopHandler (puppetStop : Result unit) (s : State) : State * Reply :=
  let stopped := if busy s then stop s
                 else Ok s (* log.error: eventStreamManager is not busy? *) in
  match stopped with
  | Throw m => (s, reply_error m)
  | Ok s =>
      let s := set_readyPayload None s in
      match puppetStop with
      | Ok _ => (s, reply_ok)
      | Throw m => (s, reply_error m)
      end
  end.

(** The envelopes of a trace carry no sequence number. *)
Definition unsequenced (e : Effect) : Prop :=
  match e with
  | stream_write _ response => getSeq response = 0%Z
  | _ => True
  end.

(** What holds of a server after any sequence of operations (see
    [exec_steady]): the dictionary of event names is the one it was built
    with; the [off] closures kept by the manager are those of the listeners
    that the puppet carries; before the first attach nothing is attached or
    registered; the puppet carries no listener of the manager while no
    stream is attached and one set of them while one is; timers have
    distinct identities; no envelope carries a sequence number. *)
Definition steady (names : list string) (s : State) : Prop :=
  PUPPET_EVENT_DICT s = names /\
  offCallbackList s = listeners s /\
  (puppetListening s = false -> eventStream s = None /\ listeners s = []) /\
  match eventStream s with
  | None => listeners s = []
  | Some _ => exists k, listeners s = registered names k
  end /\
  (forall t, t ∈ timers s -> tid t < nextId s) /\
  Forall unsequenced (trace s).

End ServerLife.

(* ===================================================================== *)
(** * Client side: the calls that manage the stream *)
(* ===================================================================== *)

Module ClientLife.
Import Client.

(** The effects by which [PuppetService] manages its stream: stopping it,
    asking for it, and handing over to the full reset. *)
Definition managesStream (e : Effect) : bool :=
  match e with
  | call_super_reset | call_stopStream | call_startStream _ _ => true
  | _ => false
  end.

(** The calls of a trace that manage the stream, in order. *)
Definition streamCalls (tr : list Effect) : list Effect :=
  filter (fun e => managesStream e = true) tr.

(** [s'] differs from [s] in the store and in effects added to the trace,
    none of which manages the stream. *)
Definition polite_step (s s' : PuppetService) : Prop :=
  control s' = control s /\
  exists l, trace s' = trace s ++ l /\ streamCalls l = [].

(** The promises that have been resolved were created before
    [nextFuture]. *)
Definition freshFutures (s : PuppetService) : Prop :=
  forall future, future ∈ resolved s -> future < nextFuture s.

(** What [reset()] and its listeners go by, and what they leave in the
    trace: the manager with its listeners, the three flags, the login
    state, the promises resolved so far, and the calls that manage the
    stream. *)
Definition phase (s : PuppetService) :=
  (_grpcManager s, waitingForLogin s, waitingForReady s, reconnectIndicator s,
   isLoggedIn s, resolved s, streamCalls (trace s)).

End ClientLife.

(* ===================================================================== *)
(** * Unary calls: the client method and the handler that serves it *)
(* ===================================================================== *)

(** Four of the calls that [PuppetService] makes and [puppetImplementation]
    serves, both ends of each.  A request or response message is a record
    of the fields the code sets or reads.  A getter of a string field
    answers the empty string while the field is not set, [hasX()] tells
    whether it was set, and the getter of a message field answers
    [undefined] ([None]) while it is not set.  The client end takes the
    way its request is answered ([call]) as an argument, the handler the
    method of the puppet it calls. *)
Module Rpc.

(** What the caller of a unary call gets from its handler: the response
    that the handler passes to its callback, or, where the handler ends in
    [grpcError(method, e, callback)], a rejection with an error that grpc
    makes of [e]; [status] is the message of that error, given the message
    of [e]. *)
Definition served {Request Response : Type} (status : string -> string)
    (handler : Request -> Result Response) (request : Request)
    : Result Response :=
  match handler request with
  | Ok response => Ok response
  | Throw e => Throw (status e)
  end.

(** *** [OptionalBoolean] *)

(** [puppet.OptionalBoolean]; [BOOL_OTHER] stands for a number that is none
    of the three members.  [BOOL_UNSET] is the value of a field that was
    never set. *)
Inductive OptionalBoolean : Type :=
| BOOL_UNSET | BOOL_TRUE | BOOL_FALSE | BOOL_OTHER (code : Z).

Definition OptionalBooleanWrapper (val : option bool) : OptionalBoolean :=
  match val with
  | Some true => BOOL_TRUE
  | Some false => BOOL_FALSE
  | None => BOOL_UNSET
  end.

Definition OptionalBooleanUnwrapper (val : OptionalBoolean) : option bool :=
  match val with
  | BOOL_TRUE => Some true
  | BOOL_FALSE => Some false
  | BOOL_UNSET => None
  | BOOL_OTHER _ => None   (* default: *)
  end.

(** *** [roomPermission] *)

(** [Partial<PUPPET.types.RoomPermission>]. *)
Record RoomPermission : Type := mkRoomPermission {
  inviteConfirm          : option bool;
  adminOnlyManage        : option bool;
  adminOnlyAtAll         : option bool;
  muteAll                : option bool;
  forbidRoomTopicEdit    : option bool;
  disableMemberMutualAdd : option bool;
}.

#[global] Instance RoomPermission_eq_dec : EqDecision RoomPermission.
Proof. solve_decision. Defined.

(** The six [OptionalBoolean] fields that [RoomPermissionRequest] and
    [RoomPermissionResponse] share. *)
Record PermissionFields : Type := mkPermissionFields {
  getInviteConfirm          : OptionalBoolean;
  getAdminOnlyManage        : OptionalBoolean;
  getAdminOnlyAtAll         : OptionalBoolean;
  getMuteAll                : OptionalBoolean;
  getForbidRoomTopicEdit    : OptionalBoolean;
  getDisableMemberMutualAdd : OptionalBoolean;
}.

(** The fields of a message on which no setter was called. *)
Definition unsetFields : PermissionFields :=
  mkPermissionFields BOOL_UNSET BOOL_UNSET BOOL_UNSET BOOL_UNSET BOOL_UNSET
    BOOL_UNSET.

Record RoomPermissionRequest : Type := mkRoomPermissionRequest {
  rp_getId  : string;
  rp_fields : PermissionFields;
}.

Definition RoomPermissionResponse : Type := PermissionFields.

(** The six [setX(OptionalBooleanWrapper(permission.x))] calls. *)
Definition wrapPermission (permission : RoomPermission) : PermissionFields :=
  mkPermissionFields
    (OptionalBooleanWrapper (inviteConfirm permission))
    (OptionalBooleanWrapper (adminOnlyManage permission))
    (OptionalBooleanWrapper (adminOnlyAtAll permission))
    (OptionalBooleanWrapper (muteAll permission))
    (OptionalBooleanWrapper (forbidRoomTopicEdit permission))
    (OptionalBooleanWrapper (disableMemberMutualAdd permission)).

(** The object literal of six [OptionalBooleanUnwrapper(message.getX())]. *)
Definition unwrapPermission (fields : PermissionFields) : RoomPermission :=
  mkRoomPermission
    (OptionalBooleanUnwrapper (getInviteConfirm fields))
    (OptionalBooleanUnwrapper (getAdminOnlyManage fields))
    (OptionalBooleanUnwrapper (getAdminOnlyAtAll fields))
    (OptionalBooleanUnwrapper (getMuteAll fields))
    (OptionalBooleanUnwrapper (getForbidRoomTopicEdit fields))
    (OptionalBooleanUnwrapper (getDisableMemberMutualAdd fields)).

(** [typeof x === 'boolean'] for one of the six fields at least. *)
Definition anyBoolean (permission : RoomPermission) : bool :=
  bool_decide (is_Some (inviteConfirm permission)) ||
  bool_decide (is_Some (adminOnlyManage permission)) ||
  bool_decide (is_Some (adminOnlyAtAll permission)) ||
  bool_decide (is_Some (muteAll permission)) ||
  bool_decide (is_Some (forbidRoomTopicEdit permission)) ||
  bool_decide (is_Some (disableMemberMutualAdd permission)).

(** [PuppetService.roomPermission(roomId, permission?)]. *)
Definition roomPermission
    (call : RoomPermissionRequest -> Result RoomPermissionResponse)
    (roomId : string) (permission : option RoomPermission)
    : Result (option RoomPermission) :=
  let (set, fields) :=
    match permission with
    | Some permission => (true, wrapPermission permission)
    | None => (false, unsetFields)
    end in
  let request := mkRoomPermissionRequest roomId fields in
  match call request with
  | Throw e => Throw e
  | Ok response =>
      let result := unwrapPermission response in
      Ok (if set then None else Some result)
  end.

(** The [roomPermission] handler of [puppetImplementation];
    [puppet_roomPermission] is [puppet.roomPermission].  Reading a field of
    the result when the puppet answered [undefined] is a [TypeError]. *)
Definition roomPermissionHandler
    (puppet_roomPermission :
       string -> option RoomPermission -> Result (option RoomPermission))
    (request : RoomPermissionRequest) : Result RoomPermissionResponse :=
  let roomId := rp_getId request in
  let permission := unwrapPermission (rp_fields request) in
  let set := anyBoolean permission in
  match puppet_roomPermission roomId (if set then Some permission else None) with
  | Throw e => Throw e
  | Ok result =>
      if negb set then
        match result with
        | Some permissionResult => Ok (wrapPermission permissionResult)
        | None =>
            Throw "Cannot read properties of undefined (reading 'inviteConfirm')"
        end
      else Ok unsetFields
  end.

(** *** [roomTopic] and [roomAnnounce] *)

(** [RoomTopicRequest] and [RoomAnnounceRequest]: the id, the text
    ([topic], [text]) if it was set, and the deprecated [StringValue]
    wrapper of it. *)
Record TextRequest : Type := mkTextRequest {
  tr_getId      : string;
  tr_text       : option string;
  tr_deprecated : option string;
}.

Definition tr_hasText (request : TextRequest) : bool :=
  bool_decide (is_Some (tr_text request)).

Definition tr_getText (request : TextRequest) : string :=
  default "" (tr_text request).

(** [RoomTopicResponse] and [RoomAnnounceResponse]. *)
Record TextResponse : Type := mkTextResponse {
  ts_text       : option string;
  ts_deprecated : option string;
}.

Definition ts_getText (response : TextResponse) : string :=
  default "" (ts_text response).

(** [PuppetService.roomTopic(roomId, topic?)]. *)
Definition roomTopic (call : TextRequest -> Result TextResponse)
    (roomId : string) (topic : option string) : Result (option string) :=
  match topic with
  | None =>
      (* Get *)
      let request := mkTextRequest roomId None None in
      match call request with
      | Throw e => Throw e
      | Ok response =>
          let result := ts_getText response in
          if bool_decide (result ≠ "") then Ok (Some result)
          else
            match ts_deprecated response with
            | Some value => Ok (Some value)
            | None => Ok (Some "")
            end
      end
  | Some topic =>
      (* Set *)
      let request := mkTextRequest roomId (Some topic) (Some topic) in
      match call request with
      | Throw e => Throw e
      | Ok _ => Ok None
      end
  end.

(** [PuppetService.roomAnnounce(roomId, text?)]. *)
Definition roomAnnounce (call : TextRequest -> Result TextResponse)
    (roomId : string) (text : option string) : Result (option string) :=
  match text with
  | Some text =>
      (* Set *)
      let request := mkTextRequest roomId (Some text) (Some text) in
      match call request with
      | Throw e => Throw e
      | Ok _ => Ok None
      end
  | None =>
      (* Get *)
      let request := mkTextRequest roomId None None in
      match call request with
      | Throw e => Throw e
      | Ok response =>
          let result := ts_getText response in
          if bool_decide (result ≠ "") then Ok (Some result)
          else
            match ts_deprecated response with
            | Some value => Ok (Some value)
            | None => Ok (Some "")
            end
      end
  end.

(** The [roomTopic] and the [roomAnnounce] handler of
    [puppetImplementation], which differ in the method of the puppet they
    call: [puppet_get] is [puppet.roomTopic(roomId)], [puppet_set] is
    [puppet.roomTopic(roomId, topic)]. *)
Definition textHandler
    (puppet_get : string -> Result string)
    (puppet_set : string -> string -> Result unit)
    (request : TextRequest) : Result TextResponse :=
  let roomId := tr_getId request in
  if tr_hasText request then
    match puppet_set roomId (tr_getText request) with
    | Throw e => Throw e
    | Ok _ => Ok (mkTextResponse None None)
    end
  else
    match puppet_get roomId with
    | Throw e => Throw e
    | Ok text => Ok (mkTextResponse (Some text) None)
    end.

(** *** [contactAlias] *)

(** [PuppetService.contactAlias(contactId, alias?)]; [alias] is
    [undefined] ([None]), [null] ([Some None]) or a string. *)
Definition contactAlias (call : TextRequest -> Result TextResponse)
    (contactId : string) (alias : option (option string))
    : Result (option string) :=
  match alias with
  | None =>
      (* Get alias *)
      let request := mkTextRequest contactId None None in
      match call request with
      | Throw e => Throw e
      | Ok response =>
          let result := ts_getText response in
          if bool_decide (result ≠ "") then Ok (Some result)
          else
            match ts_deprecated response with
            | None => Throw "can not get aliasWrapper"
            | Some value => Ok (Some value)
            end
      end
  | Some alias =>
      (* Set alias: null -> '' *)
      let text := match alias with
                  | Some a => if bool_decide (a ≠ "") then a else ""
                  | None => ""
                  end in
      let request := mkTextRequest contactId (Some text) (Some text) in
      match call request with
      | Throw e => Throw e
      | Ok _ => Ok None
      end
  end.

(** The [contactAlias] handler of [puppetImplementation] is [textHandler]
    on [puppet.contactAlias]: it tests [hasAlias()] and passes
    [getAlias()] on as it is. *)
Definition contactAliasHandler := textHandler.

End Rpc.

(* ===================================================================== *)
(** * The contact payload cache of the client *)
(* ===================================================================== *)

(** [contactRawPayload] and [batchContactRawPayload] of [PuppetService],
    with the store [this._payloadStore.contact] they read and fill and the
    two calls they make to the server.  One call of a method runs from its
    start to its end; the calls of other methods that could run between
    two [await]s of it are not part of the model. *)
Module Cache.

(** [PUPPET.payloads.Contact], the fields that [contactRawPayload] fills. *)
Module Contact.
Record t : Type := mk {
  address        : string;
  alias          : string;
  avatar         : string;
  city           : string;
  corporation    : string;
  coworker       : bool;
  description    : string;
  friend         : bool;
  gender         : Z;
  handle         : string;
  id             : string;
  name           : string;
  phone          : list string;
  province       : string;
  signature      : string;
  star           : bool;
  title          : string;
  type           : Z;
  weixin         : string;
  additionalInfo : string;
  tags           : list string;
  realName       : string;
  aka            : string;
}.
End Contact.

#[global] Instance Contact_eq_dec : EqDecision Contact.t.
Proof. solve_decision. Defined.

(** [grpcPuppet.ContactPayloadResponse], by its getters. *)
Record ContactPayloadResponse : Type := mkContactPayloadResponse {
  getAddress        : string;
  getAlias          : string;
  getAvatar         : string;
  getCity           : string;
  getCorporation    : string;
  getCoworker       : bool;
  getDescription    : string;
  getFriend         : bool;
  getGender         : Z;
  getWeixin         : string;
  getId             : string;
  getName           : string;
  getPhonesList     : list string;
  getProvince       : string;
  getSignature      : string;
  getStar           : bool;
  getTitle          : string;
  getType           : Z;
  getAdditionalInfo : string;
  getTagIdsList     : list string;
  getRealName       : string;
  getAka            : string;
}.

(** [this.grpcManager.client], the two calls: what the server answers to a
    [ContactPayloadRequest] with the given id and to a
    [BatchContactPayloadRequest] with the given list of ids. *)
Record GrpcClient : Type := mkGrpcClient {
  contactPayload      : string -> Result ContactPayloadResponse;
  batchContactPayload : list string -> Result (list ContactPayloadResponse);
}.

(** A request that went to the server. *)
Inductive Call : Type :=
| call_contactPayload (id : string)
| call_batchContactPayload (ids : list string).

#[global] Instance Call_eq_dec : EqDecision Call.
Proof. solve_decision. Defined.

(** [contact] is [this._payloadStore.contact], [undefined] ([None]) while
    the payload store is not started; [calls] are the requests made so
    far, the oldest first. *)
Record Env : Type := mkEnv {
  contact : option (gmap string Contact.t);
  calls   : list Call;
}.

(** [this._payloadStore.contact?.get(id)] *)
Definition get (id : string) (env : Env) : option Contact.t :=
  contact env ≫= fun store => store !! id.

(** [this._payloadStore.contact?.set(id, payload)] *)
Definition set (id : string) (payload : Contact.t) (env : Env) : Env :=
  mkEnv (insert id payload <$> contact env) (calls env).

(** [this._payloadStore.contact?.delete(id)] *)
Definition delete (id : string) (env : Env) : Env :=
  mkEnv (base.delete id <$> contact env) (calls env).

Definition request (call : Call) (env : Env) : Env :=
  mkEnv (contact env) (calls env ++ [call]).

(** The object literal that [contactRawPayload] builds from the response. *)
Definition payloadOf (response : ContactPayloadResponse) : Contact.t :=
  {| Contact.address        := getAddress response;
     Contact.alias          := getAlias response;
     Contact.avatar         := getAvatar response;
     Contact.city           := getCity response;
     Contact.corporation    := getCorporation response;
     Contact.coworker       := getCoworker response;
     Contact.description    := getDescription response;
     Contact.friend         := getFriend response;
     Contact.gender         := getGender response;
     Contact.handle         := getWeixin response;
     Contact.id             := getId response;
     Contact.name           := getName response;
     Contact.phone          := getPhonesList response;
     Contact.province       := getProvince response;
     Contact.signature      := getSignature response;
     Contact.star           := getStar response;
     Contact.title          := getTitle response;
     Contact.type           := getType response;
     Contact.weixin         := getWeixin response;
     Contact.additionalInfo := getAdditionalInfo response;
     Contact.tags           := getTagIdsList response;
     Contact.realName       := getRealName response;
     Contact.aka            := getAka response |}.

(** [contactRawPayload(id)] *)
Definition contactRawPayload (client : GrpcClient) (id : string) (env : Env)
    : Env * Result Contact.t :=
  match get id env with
  | Some cachedPayload => (env, Ok cachedPayload)   (* cache HIT *)
  | None =>
      let env := request (call_contactPayload id) env in
      match contactPayload client id with
      | Throw e => (env, Throw e)
      | Ok response =>
          let payload := payloadOf response in
          (set id payload env, Ok payload)
      end
  end.

(** [Set.prototype.add] and [new Set(list)]: a set keeps its members in
    the order in which they were added first. *)
Definition Set_add (x : string) (members : list string) : list string :=
  if decide (x ∈ members) then members else members ++ [x].

Definition Set_of (l : list string) : list string :=
  fold_left (fun members x => Set_add x members) l [].

(** The loop of the [catch] block of [batchContactRawPayload]: one
    [contactRawPayload] for each id, the first rejection of which rejects
    the whole call. *)
Fixpoint oneByOne (client : GrpcClient) (needGetSet : list string)
    (result : gmap string Contact.t) (env : Env)
    : Env * Result (gmap string Contact.t) :=
  match needGetSet with
  | [] => (env, Ok result)
  | contactId :: rest =>
      match contactRawPayload client contactId env with
      | (env, Throw e) => (env, Throw e)
      | (env, Ok payload) =>
          oneByOne client rest (<[contactId := payload]> result) env
      end
  end.

Section batch.

(** [contactPbToPayload] of [utils/pb-payload-helper] (the function is
    not among the sources): any function from a response to a payload;
    what follows holds for each. *)
Variable contactPbToPayload : ContactPayloadResponse -> Contact.t.

(** [batchContactRawPayload(contactIdList)].  The result is the
    [Map<string, Contact>] the method returns, by its entries. *)
Definition batchContactRawPayload (client : GrpcClient)
    (contactIdList : list string) (env : Env)
    : Env * Result (gmap string Contact.t) :=
  let contactIdSet := Set_of contactIdList in
  let '(result, needGetSet) :=
    fold_left
      (fun '(result, needGetSet) contactId =>
         match get contactId env with
         | Some cachedContactPayload =>
             (<[contactId := cachedContactPayload]> result, needGetSet)
         | None => (result, Set_add contactId needGetSet)
         end)
      contactIdSet ((∅ : gmap string Contact.t), []) in
  if bool_decide (0 < length needGetSet) then
    let env := request (call_batchContactPayload needGetSet) env in
    match batchContactPayload client needGetSet with
    | Ok payloads =>
        let '(result, env) :=
          fold_left
            (fun '(result, env) payload =>
               let contactId := getId payload in
               let puppetPayload := contactPbToPayload payload in
               (<[contactId := puppetPayload]> result,
                set contactId puppetPayload env))
            payloads (result, env) in
        (env, Ok result)
    | Throw e =>
        (* use one by one method *)
        oneByOne client needGetSet result env
    end
  else (env, Ok result).

(** The second loop of [batchContactRawPayload], over the payloads of the
    response, on its own. *)
Definition fill (payloads : list ContactPayloadResponse)
    (acc : gmap string Contact.t * Env) : gmap string Contact.t * Env :=
  fold_left
    (fun '(result, env) payload =>
       let contactId := getId payload in
       let puppetPayload := contactPbToPayload payload in
       (<[contactId := puppetPayload]> result,
        set contactId puppetPayload env))
    payloads acc.

End batch.

(** The first loop of [batchContactRawPayload] on its own. *)
Definition scan (env : Env) (contactIdSet : list string)
    (acc : gmap string Contact.t * list string)
    : gmap string Contact.t * list string :=
  fold_left
    (fun '(result, needGetSet) contactId =>
       match get contactId env with
       | Some cachedContactPayload =>
           (<[contactId := cachedContactPayload]> result, needGetSet)
       | None => (result, Set_add contactId needGetSet)
       end)
    contactIdSet acc.

(** The ids of a list that the store does not hold: each once, in the
    order of their first appearance in the list. *)
Definition missing (env : Env) (contactIdList : list string) : list string :=
  filter (fun id => get id env = None) (Set_of contactIdList).

(** What the deletions that [fastDirty] asks for do to the contact store:
    [cache_delete DirtyContact id] is
    [this._payloadStore.contact?.delete(id)], the other effects of the
    client leave this store as it is.  An [undefined] id is the key of no
    entry. *)
Definition replay (effects : list Client.Effect) (env : Env) : Env :=
  fold_left
    (fun env effect =>
       match effect with
       | Client.cache_delete DirtyContact (Some id) => delete id env
       | _ => env
       end)
    effects env.

(** *** Examples: a server and a contact *)

(** The response of the example servers for a contact. *)
Definition contactOf (id : string) : ContactPayloadResponse :=
  {| getAddress := ""; getAlias := ""; getAvatar := ""; getCity := "";
     getCorporation := ""; getCoworker := false; getDescription := "";
     getFriend := true; getGender := 0; getWeixin := ""; getId := id;
     getName := "name of " ++ id; getPhonesList := []; getProvince := "";
     getSignature := ""; getStar := false; getTitle := ""; getType := 1;
     getAdditionalInfo := ""; getTagIdsList := []; getRealName := "";
     getAka := "" |}.

(** A server that answers both calls. *)
Definition answering : GrpcClient :=
  mkGrpcClient (fun id => Ok (contactOf id))
               (fun ids => Ok (contactOf <$> ids)).

(** A server that has no batch call. *)
Definition unbatched : GrpcClient :=
  mkGrpcClient (fun id => Ok (contactOf id))
               (fun ids => Throw "12 UNIMPLEMENTED").

(** A server that answers nothing. *)
Definition failing : GrpcClient :=
  mkGrpcClient (fun id => Throw "14 UNAVAILABLE")
               (fun ids => Throw "14 UNAVAILABLE").

(** A started store that holds the contact [c1]. *)
Definition warm : Env :=
  mkEnv (Some {[ "c1" := payloadOf (contactOf "c1") ]}) [].

End Cache.

(* ===================================================================== *)
(** * Properties of the server side *)
(* ===================================================================== *)

Module ServerProps.
Import Server.

Lemma filter_notin_nil `{EqDecision A} (l : list A) :
  filter (fun x => x ∉ @nil A) l = l.
Proof.
  induction l as [|x l IH]; [done|].
  rewrite filter_cons_True; [by f_equal|]. apply not_elem_of_nil.
Qed.

(** *** [removePuppetListeners] in closed form *)

Lemma popAll_eq stack s :
  popAll stack s =
  mkState (eventStream s) (puppetListening s) (offCallbackList s)
    (scanPayload s) (readyPayload s) (readyTimeout s) (isLoggedIn s)
    (currentUserId s) (readyIndicator s)
    (filter (fun l => l ∉ stack) (listeners s)) (PUPPET_EVENT_DICT s)
    (streamHandlers s) (timers s) (nextId s)
    (trace s ++ map puppet_off stack).
Proof.
  revert s. induction stack as [|f rest IH]; intros [].
  - cbn. by rewrite app_nil_r, filter_notin_nil.
  - cbn [popAll]. rewrite IH. cbn. f_equal.
    + rewrite list_filter_filter. apply list_filter_iff.
      intros l. rewrite not_elem_of_cons. tauto.
    + by rewrite <- app_assoc.
Qed.

Lemma removePuppetListeners_eq s :
  removePuppetListeners s =
  mkState (eventStream s) (puppetListening s) []
    (scanPayload s) (readyPayload s) (readyTimeout s) (isLoggedIn s)
    (currentUserId s) (readyIndicator s)
    (filter (fun l => l ∉ offCallbackList s) (listeners s)) (PUPPET_EVENT_DICT s)
    (streamHandlers s) (timers s) (nextId s)
    (trace s ++ map puppet_off (reverse (offCallbackList s))).
Proof.
  unfold removePuppetListeners, set_offCallbackList. rewrite popAll_eq. cbn.
  f_equal. apply list_filter_iff. intros l. by rewrite elem_of_reverse.
Qed.

Lemma removePuppetListeners_nil s :
  offCallbackList s = [] -> removePuppetListeners s = s.
Proof.
  intros H. rewrite removePuppetListeners_eq, H. destruct s; cbn in *. subst.
  by rewrite app_nil_r, filter_notin_nil.
Qed.

(** *** [connectPuppetEventToStreamingCall] in closed form *)

Lemma connect_fold_eq names s :
  fold_left (fun s eventName => connectOne eventName s) names s =
  let ls := registered names (nextId s) in
  mkState (eventStream s) (puppetListening s) (offCallbackList s ++ ls)
    (scanPayload s) (readyPayload s) (readyTimeout s) (isLoggedIn s)
    (currentUserId s) (readyIndicator s) (listeners s ++ ls)
    (PUPPET_EVENT_DICT s) (streamHandlers s) (timers s)
    (nextId s + length ls) (trace s ++ map puppet_on ls).
Proof.
  revert s. induction names as [|name names IH]; intros s.
  - destruct s; cbn. by rewrite !app_nil_r, Nat.add_0_r.
  - cbn [fold_left registered]. rewrite IH. unfold connectOne.
    destruct (eventTypeOfName name) as [type|]; [|done].
    destruct s; cbn. rewrite <- !app_assoc. cbn. f_equal. lia.
Qed.

Lemma registered_lid names n l : l ∈ registered names n -> n <= lid l.
Proof.
  revert n. induction names as [|name names IH]; intros n; cbn.
  - by intros ?%elem_of_nil.
  - destruct (eventTypeOfName name).
    + intros [->|H]%elem_of_cons; [cbn; lia|]. apply IH in H. lia.
    + apply IH.
Qed.

Lemma registered_NoDup names n : NoDup (registered names n).
Proof.
  revert n. induction names as [|name names IH]; intros n; cbn.
  - constructor.
  - destruct (eventTypeOfName name); [|apply IH].
    constructor; [|apply IH].
    intros H%registered_lid. cbn in H. lia.
Qed.

(** *** What [start] does to a free manager *)

Lemma start_eq stream s :
  eventStream s = None ->
  start stream s =
  let ls := registered (PUPPET_EVENT_DICT s) (nextId s) in
  let ready := mkTimer (nextId s + length ls) (15 * 1000)
                 (EmitLater EVENT_TYPE_READY (dataPayload "ready")) in
  Ok (mkState (Some stream) true ls
        (scanPayload s) (readyPayload s) (readyTimeout s) (isLoggedIn s)
        (currentUserId s) (readyIndicator s)
        (filter (fun l => l ∉ offCallbackList s) (listeners s) ++ ls)
        (PUPPET_EVENT_DICT s) (streamHandlers s ++ [stream])
        (timers s ++ if readyIndicator s then [ready] else [])
        (nextId s + length ls + if readyIndicator s then 1 else 0)
        (trace s ++ map puppet_off (reverse (offCallbackList s))
                 ++ map puppet_on ls
                 ++ stream_write stream heartbeat
                    :: if isLoggedIn s
                       then [stream_write stream (login (currentUserId s))]
                       else [])).
Proof.
  intros He. unfold start. rewrite He.
  unfold connectPuppetEventToStreamingCall. rewrite connect_fold_eq.
  rewrite removePuppetListeners_eq.
  destruct s as [es pl ocl sp rp rt li id rd ls names sh tm n tr].
  cbn in He. subst es.
  unfold newTimer, grpcEmit.
  destruct li, rd; cbn -[reverse];
    rewrite <- ?app_assoc, ?app_nil_r, ?Nat.add_0_r, ?Nat.add_1_r;
    reflexivity.
Qed.

Lemma start_busy stream s st :
  eventStream s = Some st -> start stream s = Throw "can not set twice".
Proof. intros He. unfold start. by rewrite He. Qed.

(** *** Reading the trace *)

Lemma written_app st s (l : list Effect) s' :
  trace s' = trace s ++ l ->
  written st s' =
  written st s ++
  omap (fun e => match e with
                 | stream_write st' r => if decide (st' = st) then Some r else None
                 | _ => None
                 end) l.
Proof. intros H. unfold written. by rewrite H, omap_app. Qed.

Lemma written_puppet_on st (ls : list Listener) :
  omap (fun e => match e with
                 | stream_write st' r => if decide (st' = st) then Some r else None
                 | _ => None
                 end) (map puppet_on ls) = [].
Proof. by induction ls. Qed.

Lemma written_puppet_off st (ls : list Listener) :
  omap (fun e => match e with
                 | stream_write st' r => if decide (st' = st) then Some r else None
                 | _ => None
                 end) (map puppet_off ls) = [].
Proof. by induction ls. Qed.

Lemma offCalls_puppet_off (ls : list Listener) :
  omap (fun e => match e with puppet_off l => Some l | _ => None end)
    (map puppet_off ls) = ls.
Proof. induction ls; [done|]. cbn. by f_equal. Qed.

(** *** The trace only grows *)

Lemma grpcEmit_trace type obj s :
  trace s `prefix_of` trace (grpcEmit type obj s).
Proof.
  unfold grpcEmit. destruct (eventStream s); [|done].
  destruct s; cbn. by apply prefix_app_r.
Qed.

Lemma removePuppetListeners_trace s :
  trace s `prefix_of` trace (removePuppetListeners s).
Proof. rewrite removePuppetListeners_eq. cbn. by apply prefix_app_r. Qed.

Lemma onTeardown_trace sig s : trace s `prefix_of` trace (onTeardown sig s).
Proof.
  unfold onTeardown.
  pose proof (removePuppetListeners_trace s) as H.
  destruct (puppetListening s);
    [destruct (eventStream (removePuppetListeners s))
    |destruct (eventStream s)]; done.
Qed.

Lemma fold_left_trace {A} (f : State -> A -> State) (l : list A) s :
  (forall s a, trace s `prefix_of` trace (f s a)) ->
  trace s `prefix_of` trace (fold_left f l s).
Proof.
  intros Hf. revert s. induction l as [|a l IH]; intros s; [done|].
  cbn. etrans; [apply Hf|apply IH].
Qed.

Lemma streamSignal_trace st sig s :
  trace s `prefix_of` trace (streamSignal st sig s).
Proof.
  unfold streamSignal. apply fold_left_trace. intros. apply onTeardown_trace.
Qed.

Lemma start_trace stream s s' :
  start stream s = Ok s' -> trace s `prefix_of` trace s'.
Proof.
  destruct (eventStream s) eqn:He.
  - by rewrite (start_busy _ _ _ He).
  - rewrite (start_eq _ _ He). intros [= <-]. cbn. by apply prefix_app_r.
Qed.

Lemma implListeners_trace name payload s :
  trace (implListeners name payload s) = trace s.
Proof.
  destruct s as [es pl ocl sp rp rt li id rd ls names sh tm n tr].
  unfold implListeners, newTimer, clearTimeout.
  repeat case_decide; cbn; try done. by destruct rt.
Qed.

Lemma event_trace st s s' : event st s = Ok s' -> trace s `prefix_of` trace s'.
Proof.
  unfold event. destruct (busy s).
  - intros [= <-]. etrans; [|apply streamSignal_trace].
    destruct s; cbn. by apply prefix_app_r.
  - destruct (start st s) as [s1|] eqn:Hs; [|done].
    apply start_trace in Hs.
    destruct (scanPayload s1); intros [= <-]; [|done].
    etrans; [exact Hs|apply grpcEmit_trace].
Qed.

Lemma stop_eq s st :
  eventStream s = Some st ->
  stop s =
  Ok (mkState None (puppetListening s) []
        (scanPayload s) (readyPayload s) (readyTimeout s) (isLoggedIn s)
        (currentUserId s) (readyIndicator s)
        (filter (fun l => l ∉ offCallbackList s) (listeners s))
        (PUPPET_EVENT_DICT s) (streamHandlers s) (timers s) (nextId s)
        (trace s ++ map puppet_off (reverse (offCallbackList s))
                 ++ [stream_end st])).
Proof.
  intros He. unfold stop. rewrite He, removePuppetListeners_eq.
  destruct s; cbn -[reverse]. by rewrite <- app_assoc.
Qed.

Lemma stop_trace s s' : stop s = Ok s' -> trace s `prefix_of` trace s'.
Proof.
  destruct (eventStream s) as [st|] eqn:He.
  - rewrite (stop_eq _ _ He). intros [= <-]. cbn. by apply prefix_app_r.
  - unfold stop. by rewrite He.
Qed.

Lemma fireTimer_trace id s : trace s `prefix_of` trace (fireTimer id s).
Proof.
  unfold fireTimer. destruct (find _ _) as [t|]; [|done].
  assert (trace (clearTimeout id s) = trace s) as <- by by destruct s.
  unfold runTimer. destruct (action t); [apply grpcEmit_trace|].
  destruct (readyPayload _); [apply grpcEmit_trace|done].
Qed.

Lemma step_trace op s : trace s `prefix_of` trace (step op s).
Proof.
  destruct op as [st| |st sig|name payload|li id rd|id]; cbn.
  - destruct (event st s) eqn:H; [by apply event_trace in H|done].
  - destruct (stop s) eqn:H; [by apply stop_trace in H|done].
  - apply streamSignal_trace.
  - unfold puppetEmit. rewrite <- (implListeners_trace name payload s) at 1.
    apply fold_left_trace. intros. apply grpcEmit_trace.
  - by destruct s.
  - apply fireTimer_trace.
Qed.

Lemma exec_trace ops s : trace s `prefix_of` trace (exec ops s).
Proof.
  unfold exec. apply fold_left_trace. intros. apply step_trace.
Qed.

(** *** Teardown signals *)

Lemma onTeardown_clean sig s :
  eventStream s = None -> offCallbackList s = [] -> onTeardown sig s = s.
Proof.
  intros He Ho. unfold onTeardown.
  destruct (puppetListening s); rewrite ?removePuppetListeners_nil, ?He; done.
Qed.

Lemma onTeardown_attached sig s st :
  eventStream s = Some st -> puppetListening s = true ->
  onTeardown sig s = set_eventStream None (removePuppetListeners s).
Proof.
  intros He Hp. unfold onTeardown. rewrite Hp.
  rewrite removePuppetListeners_eq. cbn. by rewrite He.
Qed.

Lemma streamSignal_clean st sig s :
  eventStream s = None -> offCallbackList s = [] -> streamSignal st sig s = s.
Proof.
  intros He Ho. unfold streamSignal.
  induction (filter _ _) as [|x l IH]; [done|].
  cbn. by rewrite onTeardown_clean.
Qed.

Lemma streamSignal_no_handler st sig s :
  st ∉ streamHandlers s -> streamSignal st sig s = s.
Proof.
  intros Hn. unfold streamSignal.
  destruct (filter _ _) as [|x l] eqn:Hf; [done|].
  assert (x ∈ filter (fun st' => st' = st) (streamHandlers s)) as Hx
    by (rewrite Hf; left).
  apply list_elem_of_filter in Hx as [-> Hx]. done.
Qed.

Lemma streamSignal_attached st st' sig s :
  eventStream s = Some st' -> puppetListening s = true ->
  st ∈ streamHandlers s ->
  streamSignal st sig s = set_eventStream None (removePuppetListeners s).
Proof.
  intros He Hp Hin. unfold streamSignal.
  destruct (filter _ _) as [|x l] eqn:Hf.
  - exfalso.
    by apply (filter_nil_not_elem_of (fun st' => st' = st) _ st Hf eq_refl).
  - cbn. rewrite (onTeardown_attached _ _ _ He Hp). clear Hf.
    induction l as [|y l IH]; [done|].
    cbn. rewrite onTeardown_clean; [done| |].
    + by rewrite removePuppetListeners_eq.
    + by rewrite removePuppetListeners_eq.
Qed.

(** ** The claims about the Event Stream Sink *)

(** C5.  Attaching a second stream while one is attached fails with a
    conflict that the new call can tell apart: [EventStreamManager.start]
    throws "can not set twice" without touching the manager, and the [event]
    handler answers the new call with an error of status [ALREADY_EXISTS].
    After the rejected attempt the manager is in the state it was in (the
    first stream is still the attached one, its listeners and handlers are
    as before), and what the puppet emits is still written to the first
    stream.  [new] is the call object of the new attempt, on which nothing
    has been installed. *)
Theorem second_attach_rejected (s : State) (st new : Stream) :
  eventStream s = Some st ->
  new ∉ streamHandlers s ->
  start new s = Throw "can not set twice" /\
  event new s =
    Ok (effect (stream_emit_error new ALREADY_EXISTS
                  "GrpcServerImpl.event() can not call twice.") s) /\
  forall s', event new s = Ok s' ->
    eventStream s' = Some st /\
    puppetListening s' = puppetListening s /\
    offCallbackList s' = offCallbackList s /\
    listeners s' = listeners s /\
    streamHandlers s' = streamHandlers s /\
    written st s' = written st s /\
    ended s' = ended s /\
    forall type obj,
      written st (grpcEmit type obj s') =
      written st s ++ [mkEventResponse type obj 0].
Proof.
  intros He Hnew.
  assert (event new s =
    Ok (effect (stream_emit_error new ALREADY_EXISTS
                  "GrpcServerImpl.event() can not call twice.") s)) as Hev.
  { unfold event, busy. rewrite He. f_equal.
    apply streamSignal_no_handler. by destruct s. }
  split; [by eapply start_busy|]. split; [exact Hev|].
  intros s'. rewrite Hev. intros [= <-].
  destruct s as [es pl ocl sp rp rt li id rd ls names sh tm n tr].
  cbn in He. subst es. cbn.
  unfold written, ended. cbn. rewrite !omap_app. cbn.
  rewrite !app_nil_r. repeat split; try done.
  intros type obj. rewrite !omap_app. cbn. rewrite app_nil_r.
  by rewrite decide_True.
Qed.

Lemma second_attach_rejected_witness :
  exists s1, start 1 (init ["login"; "message"]) = Ok s1 /\
    start 2 s1 = Throw "can not set twice" /\
    written 1 (fold_left (fun s op => step op s)
                 [op_event 2; op_puppet_emit "message" (dataPayload "hello")] s1)
    = [heartbeat; mkEventResponse EVENT_TYPE_MESSAGE (dataPayload "hello") 0].
Proof.
  eexists. split; [vm_compute; reflexivity|].
  split; [|vm_compute; reflexivity].
  refine (proj1 (second_attach_rejected _ 1 2 _ _)); [reflexivity|].
  vm_compute. intros H. apply list_elem_of_singleton in H. discriminate.
Defined.

(** C6.  A successful [start(stream)] on a stream that nothing has been
    written to writes the connect heartbeat first: what [start] itself
    writes is [heartbeat], followed by [login(currentUserId)] exactly when
    the puppet is logged in; the ready envelope is not written by [start]
    but left to a timer of 15 * 1000 ms; and whatever the server does later
    (puppet events, timers, teardown signals, further event calls, stop),
    the first envelope on that stream remains the heartbeat. *)
Theorem attach_heartbeat_first (s s1 : State) (st : Stream) (ops : list Op) :
  start st s = Ok s1 ->
  written st s = [] ->
  written st s1 =
    heartbeat :: (if isLoggedIn s then [login (currentUserId s)] else []) /\
  timers s1 =
    timers s ++
    (if readyIndicator s
     then [mkTimer (nextId s + length (offCallbackList s1)) (15 * 1000)
             (EmitLater EVENT_TYPE_READY (dataPayload "ready"))]
     else []) /\
  exists rest, written st (exec ops s1) = heartbeat :: rest.
Proof.
  intros Hs Hfresh.
  destruct (eventStream s) as [st'|] eqn:He;
    [by rewrite (start_busy _ _ _ He) in Hs|].
  rewrite (start_eq _ _ He) in Hs. injection Hs as <-.
  match goal with |- ?W = _ /\ _ => assert (W =
    heartbeat :: (if isLoggedIn s then [login (currentUserId s)] else []))
    as Hw end.
  { erewrite written_app with (s := s); [|reflexivity].
    rewrite Hfresh, !omap_app, written_puppet_off, written_puppet_on. cbn.
    rewrite decide_True by done.
    destruct (isLoggedIn s); cbn; [|done]. by rewrite decide_True. }
  split; [exact Hw|]. split; [reflexivity|].
  match goal with |- context [exec ops ?S1] =>
    destruct (exec_trace ops S1) as [l Hl] end.
  erewrite written_app; [|exact Hl]. rewrite Hw. eauto.
Qed.

Lemma attach_heartbeat_first_witness :
  let s := set_puppet true "A1" true (init ["login"; "ready"; "message"]) in
  exists s1, start 1 s = Ok s1 /\
    written 1 s1 = [heartbeat; login "A1"] /\
    written 1 (exec [op_timer 3] s1) =
      [heartbeat; login "A1";
       mkEventResponse EVENT_TYPE_READY (dataPayload "ready") 0].
Proof.
  intros s. eexists. split; [vm_compute; reflexivity|].
  split; [|vm_compute; reflexivity].
  refine (proj1 (attach_heartbeat_first s _ 1 [] _ _)); vm_compute; reflexivity.
Defined.

(** C7.  Any non-empty sequence of teardown signals (cancelled, error,
    finish, end, close; any order, any multiplicity) delivered to the stream
    that [start] attached clears the handle and runs every [off] closure
    that [start] registered exactly once (the closures are pairwise
    distinct and the calls made are those closures, last registered first);
    everything is done by the handler of the first signal, and the handler
    of any later signal leaves the state as it is. *)
Theorem teardown_exactly_once (s s1 : State) (st : Stream)
    (sig : Signal) (sigs : list Signal) :
  start st s = Ok s1 ->
  let s2 := fold_left (fun s sig => streamSignal st sig s) (sig :: sigs) s1 in
  eventStream s2 = None /\
  offCallbackList s2 = [] /\
  NoDup (offCallbackList s1) /\
  offCalls s2 = offCalls s1 ++ reverse (offCallbackList s1) /\
  (forall l, l ∈ offCallbackList s1 -> l ∉ listeners s2) /\
  s2 = streamSignal st sig s1 /\
  forall sig', streamSignal st sig' s2 = s2.
Proof.
  intros Hs.
  destruct (eventStream s) as [st'|] eqn:He;
    [by rewrite (start_busy _ _ _ He) in Hs|].
  rewrite (start_eq _ _ He) in Hs. injection Hs as Hs.
  assert (eventStream s1 = Some st) as He1 by by subst s1.
  assert (puppetListening s1 = true) as Hp1 by by subst s1.
  assert (st ∈ streamHandlers s1) as Hh1.
  { subst s1. cbn. apply elem_of_app. right. left. }
  assert (offCallbackList s1 = registered (PUPPET_EVENT_DICT s) (nextId s))
    as Ho1 by by subst s1.
  clear Hs. cbn [fold_left].
  rewrite (streamSignal_attached _ _ _ _ He1 Hp1 Hh1).
  set (c := set_eventStream None (removePuppetListeners s1)).
  assert (eventStream c = None) as Hec
    by (unfold c; by rewrite removePuppetListeners_eq).
  assert (offCallbackList c = []) as Hoc
    by (unfold c; by rewrite removePuppetListeners_eq).
  assert (fold_left (fun s sig => streamSignal st sig s) sigs c = c) as ->.
  { induction sigs as [|sig' sigs IH]; [done|].
    cbn. by rewrite streamSignal_clean. }
  repeat split; try done.
  - rewrite Ho1. apply registered_NoDup.
  - unfold c, offCalls. rewrite removePuppetListeners_eq. cbn.
    by rewrite omap_app, offCalls_puppet_off.
  - intros l Hl. unfold c. rewrite removePuppetListeners_eq. cbn.
    rewrite list_elem_of_filter. tauto.
  - intros sig'. by apply streamSignal_clean.
Qed.

Lemma teardown_exactly_once_witness :
  let s := init ["login"; "message"; "reset"; "scan"] in
  exists s1, start 1 s = Ok s1 /\
    length (offCallbackList s1) = 3 /\
    let s2 := fold_left (fun s sig => streamSignal 1 sig s)
                [sig_finish; sig_close; sig_cancelled; sig_close] s1 in
    eventStream s2 = None /\ offCallbackList s2 = [] /\ listeners s2 = [] /\
    offCalls s2 = reverse (offCallbackList s1).
Proof.
  intros s. eexists. split; [vm_compute; reflexivity|].
  split; [vm_compute; reflexivity|].
  split; [|vm_compute; auto].
  refine (proj1 (teardown_exactly_once s _ 1 sig_finish
                   [sig_close; sig_cancelled; sig_close] _)).
  vm_compute. reflexivity.
Defined.

(** C8, as the code has it.  [stop()] with a stream attached runs every
    registered [off] closure (none of them is left on the puppet), ends the
    stream and clears the handle; [stop()] with nothing attached throws
    "no this.eventStream" and changes nothing.  In particular a second
    [stop()] right after a successful one throws. *)
Theorem stop_detaches_or_throws (s : State) :
  match eventStream s with
  | Some st =>
      exists s', stop s = Ok s' /\
        eventStream s' = None /\
        offCallbackList s' = [] /\
        offCalls s' = offCalls s ++ reverse (offCallbackList s) /\
        (forall l, l ∈ offCallbackList s -> l ∉ listeners s') /\
        ended s' = ended s ++ [st] /\
        stop s' = Throw "no this.eventStream"
  | None => stop s = Throw "no this.eventStream"
  end.
Proof.
  destruct (eventStream s) as [st|] eqn:He.
  - eexists. split; [by apply stop_eq|]. cbn.
    unfold offCalls, ended. cbn. rewrite !omap_app, offCalls_puppet_off. cbn.
    repeat split; try done.
    + f_equal. rewrite app_nil_r. done.
    + intros l Hl. rewrite list_elem_of_filter. tauto.
    + f_equal. clear. induction (reverse _); [done|]. done.
  - unfold stop. by rewrite He.
Qed.

(** C8, the claim as stated fails: a second [stop()], and a [stop()] after
    a teardown signal has cleared the handle, both throw. *)
Lemma stop_after_detach_throws :
  and_then (and_then (start 1 (init ["login"; "message"])) stop) stop
    = Throw "no this.eventStream" /\
  and_then (start 1 (init ["login"; "message"]))
    (fun s => stop (streamSignal 1 sig_close s))
    = Throw "no this.eventStream".
Proof. split; vm_compute; reflexivity. Qed.

End ServerProps.

(* ===================================================================== *)
(** * Properties of the client side *)
(* ===================================================================== *)

Module ClientProps.
Import Client.

(** *** Running a sequence *)

Lemma advance_bind {A B} (m : Async A) (f : A -> Async B) s :
  advance (m ≫= f) s =
  match advance m s with
  | (s', Done (Ok a)) => advance (f a) s'
  | (s', Done (Throw e)) => (s', Done (Throw e))
  | (s', t) => (s', t ≫= f)
  end.
Proof.
  unfold mbind, Async_bind. revert s.
  induction m as [[a|e]|k IH|g k IH|k IH|w t k IH]; intros s; cbn; try done.
  destruct w as [| |fut]; try done.
  case_bool_decide; [apply IH|done].
Qed.

Lemma advance_try_catch {A} (m : Async A) (h : string -> Async A) s :
  advance (try_catch m h) s =
  match advance m s with
  | (s', Done (Ok a)) => (s', Done (Ok a))
  | (s', Done (Throw e)) => advance (h e) s'
  | (s', t) => (s', try_catch t h)
  end.
Proof.
  revert s.
  induction m as [[a|e]|k IH|g k IH|k IH|w t k IH]; intros s; cbn; try done.
  destruct w as [| |fut]; try done.
  case_bool_decide; [apply IH|done].
Qed.

(** *** Event handlers *)

Section Runs.
Context (R : relation PuppetService) `{!PreOrder R}.

Lemma Runs_bind {A B} (Q1 : Result A -> Prop) (Q2 : Result B -> Prop)
    (m : Async A) (f : A -> Async B) :
  Runs R Q1 m ->
  (forall a, Q1 (Ok a) -> Runs R Q2 (f a)) ->
  (forall e, Q1 (Throw e) -> Q2 (Throw e)) ->
  Runs R Q2 (m ≫= f).
Proof.
  unfold mbind, Async_bind. intros Hm Hf He.
  induction Hm as [[a|e] Hr|k Hk IH|g k Hg Hk IH|k Hk IH]; cbn.
  - by apply Hf.
  - constructor. by apply He.
  - constructor. auto.
  - constructor; auto.
  - constructor; auto.
Qed.

Lemma Runs_try_catch {A} (Q1 Q2 : Result A -> Prop)
    (m : Async A) (h : string -> Async A) :
  Runs R Q1 m ->
  (forall a, Q1 (Ok a) -> Q2 (Ok a)) ->
  (forall e, Q1 (Throw e) -> Runs R Q2 (h e)) ->
  Runs R Q2 (try_catch m h).
Proof.
  intros Hm Ha Hh.
  induction Hm as [[a|e] Hr|k Hk IH|g k Hg Hk IH|k Hk IH]; cbn.
  - constructor. by apply Ha.
  - by apply Hh.
  - constructor. auto.
  - constructor; auto.
  - constructor; auto.
Qed.

Lemma Runs_ret {A} (a : A) : Runs R returns (mret a).
Proof. by constructor. Qed.

Lemma Runs_gets {B} (proj : PuppetService -> B) : Runs R returns (gets proj).
Proof. constructor. intros. by constructor. Qed.

Lemma Runs_modify f : (forall s, R s (f s)) -> Runs R returns (modify f).
Proof. intros. constructor; [done|by constructor]. Qed.

(** A sequence of steps that all return. *)
Lemma Runs_seq {A B} (m : Async A) (f : A -> Async B) :
  Runs R returns m -> (forall a, Runs R returns (f a)) ->
  Runs R returns (m ≫= f).
Proof. intros Hm Hf. eapply Runs_bind; [exact Hm|auto|done]. Qed.

Lemma Runs_await {A} (m : Async A) : Runs R returns m -> Runs R returns (await m).
Proof.
  intros. apply Runs_seq; [done|]. intros. constructor. by constructor.
Qed.

Lemma Runs_advance {A} (Q : Result A -> Prop) (m : Async A) s :
  Runs R Q m ->
  R s (fst (advance m s)) /\ exists r, snd (advance m s) = Done r /\ Q r.
Proof.
  intros Hm. revert s.
  induction Hm as [r Hr|k Hk IH|f k Hf Hk IH|k Hk IH]; intros s; cbn.
  - split; [reflexivity|eauto].
  - apply IH.
  - destruct (IH (f s)). split; [|done]. etrans; [apply Hf|done].
  - apply IH.
Qed.

Lemma Runs_head {A} (Q : Result A -> Prop) (m : Async A) s :
  Runs R Q m -> R s (fst (head m s)) /\ Runs R Q (snd (head m s)).
Proof.
  intros Hm. revert s.
  induction Hm as [r Hr|k Hk IH|f k Hf Hk IH|k Hk IH]; intros s; cbn.
  - split; [reflexivity|by constructor].
  - apply IH.
  - destruct (IH (f s)). split; [|done]. etrans; [apply Hf|done].
  - split; [reflexivity|by constructor].
Qed.
End Runs.

Lemma Runs_weaken {A} (R R' : relation PuppetService)
    (Q Q' : Result A -> Prop) (m : Async A) :
  (forall s s', R s s' -> R' s s') -> (forall r, Q r -> Q' r) ->
  Runs R Q m -> Runs R' Q' m.
Proof. intros HR HQ Hm. induction Hm; constructor; auto. Qed.

Global Instance handler_step_preorder : PreOrder handler_step.
Proof.
  split.
  - intros s. by split.
  - intros s1 s2 s3 [H1 H1'] [H2 H2']. split; [congruence|by etrans].
Qed.

Global Instance store_step_preorder : PreOrder store_step.
Proof.
  split.
  - intros s. by split.
  - intros s1 s2 s3 [H1 H1'] [H2 H2']. split; congruence.
Qed.

Lemma store_step_handler_step s s' : store_step s s' -> handler_step s s'.
Proof. intros [H1 H2]. split; [done|]. by rewrite H2. Qed.

Create HintDb runs discriminated.

Ltac runs :=
  repeat first
    [ progress intros
    | solve [auto 1 with runs nocore]
    | apply Runs_ret
    | apply Runs_gets
    | apply Runs_await
    | apply Runs_seq
    | match goal with
      | |- Runs _ _ (if ?b then _ else _) => destruct b
      | |- Runs _ _ (match ?x with _ => _ end) => destruct x
      end ].

(** The store helpers touch the store only, and return. *)

Lemma store_get_runs key : Runs store_step returns (store_get key).
Proof. apply Runs_gets. Qed.

Lemma store_set_runs key value : Runs store_step returns (store_set key value).
Proof. apply Runs_modify. by intros []. Qed.

Lemma store_delete_runs key : Runs store_step returns (store_delete key).
Proof. apply Runs_modify. by intros []. Qed.

#[local] Hint Resolve store_get_runs store_set_runs store_delete_runs : runs.

Lemma getMiscellaneousStoreData_runs :
  Runs store_step returns getMiscellaneousStoreData.
Proof. unfold getMiscellaneousStoreData. runs. Qed.

Lemma setMiscellaneousStoreData_runs data :
  Runs store_step returns (setMiscellaneousStoreData data).
Proof. unfold setMiscellaneousStoreData. runs. Qed.

Lemma resetMiscellaneousStoreData_runs :
  Runs store_step returns resetMiscellaneousStoreData.
Proof. unfold resetMiscellaneousStoreData. runs. Qed.

#[local] Hint Resolve getMiscellaneousStoreData_runs
  setMiscellaneousStoreData_runs resetMiscellaneousStoreData_runs : runs.

Lemma updateWatermark_runs seq timestamp :
  Runs store_step returns (updateWatermark seq timestamp).
Proof. unfold updateWatermark. runs. Qed.

(** The handler adds effects and touches the store, and returns. *)

Lemma perform_runs e : Runs handler_step returns (perform e).
Proof.
  apply Runs_modify. intros []. split; [done|]. cbn.
  by apply prefix_app_r.
Qed.

Lemma store_runs_handler {A} (m : Async A) :
  Runs store_step returns m -> Runs handler_step returns m.
Proof. apply Runs_weaken; [apply store_step_handler_step|done]. Qed.

Lemma getMiscellaneousStoreData_handler :
  Runs handler_step returns getMiscellaneousStoreData.
Proof. apply store_runs_handler; auto with runs. Qed.

Lemma setMiscellaneousStoreData_handler data :
  Runs handler_step returns (setMiscellaneousStoreData data).
Proof. apply store_runs_handler; auto with runs. Qed.

Lemma resetMiscellaneousStoreData_handler :
  Runs handler_step returns resetMiscellaneousStoreData.
Proof. apply store_runs_handler; auto with runs. Qed.

Lemma updateWatermark_handler seq timestamp :
  Runs handler_step returns (updateWatermark seq timestamp).
Proof. apply store_runs_handler, updateWatermark_runs. Qed.

Lemma fastDirty_runs payload : Runs handler_step returns (fastDirty payload).
Proof.
  unfold fastDirty.
  apply Runs_try_catch with (Q1 := settles); [|done|].
  - eapply Runs_bind with (Q1 := settles).
    + destruct (payloadType payload) as [[]|];
        try (constructor; exact I);
        (eapply Runs_weaken; [| |apply perform_runs]; done).
    + intros. constructor. by constructor.
    + done.
  - intros. apply perform_runs.
Qed.

#[local] Hint Resolve perform_runs getMiscellaneousStoreData_handler
  setMiscellaneousStoreData_handler resetMiscellaneousStoreData_handler
  updateWatermark_handler fastDirty_runs : runs.

Lemma switchType_runs type payload :
  Runs handler_step returns (switchType type payload).
Proof. destruct type; unfold switchType; runs. Qed.

#[local] Hint Resolve switchType_runs : runs.

Lemma onGrpcStreamEvent_runs event :
  Runs handler_step returns (onGrpcStreamEvent event).
Proof. unfold onGrpcStreamEvent. runs. Qed.

(** The first thing the handler does. *)
Lemma onGrpcStreamEvent_advance event s :
  advance (onGrpcStreamEvent event) s =
  advance (updateWatermark (getSeq event) (toString (now s));;
           switchType (getType event) (getPayload event))
    (if bool_decide (getType event ≠ EVENT_TYPE_HEARTBEAT)
     then effect (emit "heartbeat" (receivedHeartbeat (getType event))) s
     else s).
Proof.
  unfold onGrpcStreamEvent, gets. cbn [mbind Async_bind bind advance mret Async_ret].
  destruct (bool_decide _); reflexivity.
Qed.

Lemma onGrpcStreamEvent_head event s :
  head (onGrpcStreamEvent event) s =
  head (updateWatermark (getSeq event) (toString (now s));;
        switchType (getType event) (getPayload event))
    (if bool_decide (getType event ≠ EVENT_TYPE_HEARTBEAT)
     then effect (emit "heartbeat" (receivedHeartbeat (getType event))) s
     else s).
Proof.
  unfold onGrpcStreamEvent, gets. cbn [mbind Async_bind bind head mret Async_ret].
  destruct (bool_decide _); reflexivity.
Qed.

(** ** The claims about [onGrpcStreamEvent] *)

(** C10.  For an envelope whose type is not heartbeat the handler first
    emits the local event [heartbeat] with the data
    [onGrpcStreamEvent(<name of the type>)] (in its synchronous part, before
    it looks at the sequence number or dispatches on the type); everything
    else it does comes after.  For a heartbeat envelope it emits [heartbeat]
    with the received payload, and nothing else: once, not twice. *)
Theorem heartbeat_for_every_envelope (event : EventResponse) (s : PuppetService) :
  let s' := complete (onGrpcStreamEvent event) s in
  (getType event <> EVENT_TYPE_HEARTBEAT ->
     let heartbeat := emit "heartbeat" (receivedHeartbeat (getType event)) in
     (trace s ++ [heartbeat]) `prefix_of`
       trace (fst (head (onGrpcStreamEvent event) s)) /\
     exists rest, trace s' = trace s ++ heartbeat :: rest) /\
  (getType event = EVENT_TYPE_HEARTBEAT ->
     trace s' = trace s ++ [emit "heartbeat" (getPayload event)]).
Proof.
  unfold complete. rewrite onGrpcStreamEvent_advance, onGrpcStreamEvent_head.
  split.
  - intros Hty. rewrite !bool_decide_true by done.
    set (s1 := effect _ s).
    assert (trace s1 = trace s ++
              [emit "heartbeat" (receivedHeartbeat (getType event))]) as Hs1
      by by destruct s.
    assert (Runs handler_step returns
              (updateWatermark (getSeq event) (toString (now s));;
               switchType (getType event) (getPayload event))) as Hr
      by (apply Runs_seq; auto with runs).
    split.
    + rewrite <- Hs1. apply (Runs_head _ _ _ s1 Hr).
    + destruct (Runs_advance _ _ _ s1 Hr) as [[_ [l Hl]] _].
      exists l. rewrite Hl, Hs1, <- app_assoc. done.
  - intros Hty. rewrite bool_decide_false by (by rewrite Hty; intros []).
    rewrite advance_bind.
    destruct (Runs_advance _ _ _ s
                (updateWatermark_runs (getSeq event) (toString (now s))))
      as [[Hc Ht] [[[]|e] [Hd Hq]]]; [|done].
    destruct (advance (updateWatermark _ _) s) as [s1 t1]. cbn in *. subst t1.
    rewrite Hty. cbn. destruct s1; cbn in *. by rewrite Ht.
Qed.

Lemma heartbeat_for_every_envelope_witness :
  let s := set_miscellaneous (Some ∅) (constructor None false 1000) in
  let message := mkEventResponse EVENT_TYPE_MESSAGE (dataPayload "m") 7 in
  let heartbeat := mkEventResponse EVENT_TYPE_HEARTBEAT (dataPayload "h") 8 in
  (exists rest,
     trace (complete (onGrpcStreamEvent message) s) =
     trace s ++
     emit "heartbeat" (dataPayload "onGrpcStreamEvent(EVENT_TYPE_MESSAGE)")
       :: rest) /\
  trace (complete (onGrpcStreamEvent heartbeat) s)
    = trace s ++ [emit "heartbeat" (dataPayload "h")].
Proof.
  intros s message heartbeat. split.
  - refine (proj2 (proj1 (heartbeat_for_every_envelope message s) _)).
    discriminate.
  - exact (proj2 (heartbeat_for_every_envelope heartbeat s) eq_refl).
Defined.

(** *** The store helpers in closed form *)

Lemma getMiscellaneousStoreData_advance s :
  advance getMiscellaneousStoreData s = (s, Done (Ok (storedData s))).
Proof.
  unfold getMiscellaneousStoreData, storedData, stale, lookupMisc.
  destruct s as [mgr tm wl wr ri misc li rd dis clock res nf tr].
  destruct dis; [reflexivity|]. cbn -[Number].
  repeat case_match; reflexivity.
Qed.

Lemma setMiscellaneousStoreData_advance data s :
  advance (setMiscellaneousStoreData data) s = (storeData data s, Done (Ok tt)).
Proof.
  unfold setMiscellaneousStoreData, storeData, setField.
  destruct s as [mgr tm wl wr ri misc li rd dis clock res nf tr].
  destruct data as [[a|] [b|] [c|]], dis; reflexivity.
Qed.

Lemma resetMiscellaneousStoreData_advance s :
  advance resetMiscellaneousStoreData s = (clearData s, Done (Ok tt)).
Proof.
  unfold resetMiscellaneousStoreData, clearData.
  destruct s as [mgr tm wl wr ri misc li rd dis clock res nf tr].
  destruct dis; reflexivity.
Qed.

Lemma await_advance {A} (m : Async A) s :
  advance (await m) s =
  match advance m s with
  | (s', Done (Ok a)) => (s', Done (Ok a))
  | (s', Done (Throw e)) => (s', Done (Throw e))
  | (s', t) => (s', await t)
  end.
Proof.
  unfold await. rewrite advance_bind.
  destruct (advance m s) as [s' [[a|e]| | | |]]; reflexivity.
Qed.

Lemma updateWatermark_advance seq timestamp s :
  advance (updateWatermark seq timestamp) s =
  (if overwrites seq s
   then storeData (mkMisc (Some (toString seq)) (Some timestamp) None) s
   else s,
   Done (Ok tt)).
Proof.
  unfold updateWatermark, overwrites, gets.
  cbn [mbind Async_bind bind advance mret Async_ret].
  destruct (bool_decide (seq ≠ 0%Z)), (DISABLE_EVENT_CACHE s) eqn:Hd;
    cbn [andb negb]; try reflexivity.
  change (bind ?m ?f) with (m ≫= f).
  rewrite advance_bind, await_advance, getMiscellaneousStoreData_advance.
  destruct (_ || _ || _).
  - by rewrite await_advance, setMiscellaneousStoreData_advance.
  - reflexivity.
Qed.

(** Apart from login and logout, the [switch] leaves the store alone. *)

Global Instance effects_step_preorder : PreOrder effects_step.
Proof.
  split.
  - intros s. by repeat split.
  - intros s1 s2 s3 (H1 & H1' & H1'') (H2 & H2' & H2'').
    repeat split; [congruence|congruence|by etrans].
Qed.

Lemma perform_effects e : Runs effects_step returns (perform e).
Proof.
  apply Runs_modify. intros []. repeat split. cbn. by apply prefix_app_r.
Qed.

Lemma fastDirty_effects payload : Runs effects_step returns (fastDirty payload).
Proof.
  unfold fastDirty.
  apply Runs_try_catch with (Q1 := settles); [|done|].
  - eapply Runs_bind with (Q1 := settles).
    + destruct (payloadType payload) as [[]|];
        try (constructor; exact I);
        (eapply Runs_weaken; [| |apply perform_effects]; done).
    + intros. constructor. by constructor.
    + done.
  - intros. apply perform_effects.
Qed.

Lemma switchType_effects type payload :
  type <> EVENT_TYPE_LOGIN -> type <> EVENT_TYPE_LOGOUT ->
  Runs effects_step returns (switchType type payload).
Proof.
  intros Hin Hout.
  destruct type; try done; unfold switchType;
    try apply perform_effects; try apply Runs_ret.
  - apply Runs_seq; [apply Runs_gets|]. intros.
    apply Runs_seq; [apply Runs_gets|]. intros.
    destruct (_ && _); [apply Runs_ret|apply perform_effects].
  - apply Runs_seq; [apply Runs_await, fastDirty_effects|].
    intros. apply perform_effects.
Qed.

(** ** The claim about the watermark *)

(** C9, as the code has it.  Let the handler process an envelope that is
    neither a login nor a logout (those two reset the store).  The stored
    [lastEventSeq] changes only if the envelope carries a sequence number,
    the event cache is enabled, and one of these holds: no watermark is
    stored, the stored one is stale (the last event is more than
    [timeoutMilliseconds] old), the incoming number is strictly greater
    than the stored one, or the incoming number is 1; the new value is then
    the incoming number.  So for an envelope whose number is at most a
    stored, fresh watermark, and is not 1, the store is left as it is. *)
Theorem watermark_overwrite_rule (event : EventResponse) (s : PuppetService) :
  getType event <> EVENT_TYPE_LOGIN ->
  getType event <> EVENT_TYPE_LOGOUT ->
  let s' := complete (onGrpcStreamEvent event) s in
  let seq := getSeq event in
  (lookupMisc "lastEventSeq" s' <> lookupMisc "lastEventSeq" s ->
     lookupMisc "lastEventSeq" s' = Some (toString seq) /\
     seq <> 0%Z /\ DISABLE_EVENT_CACHE s = false /\
     (truthy (lookupMisc "lastEventSeq" s) = false \/
      stale s = true \/
      seq = 1%Z \/
      exists w, lookupMisc "lastEventSeq" s ≫= Number = Some w /\ (w < seq)%Z)) /\
  (forall sv w,
     lookupMisc "lastEventSeq" s = Some sv -> sv <> "" ->
     Number sv = Some w -> stale s = false ->
     (seq <= w)%Z -> seq <> 1%Z ->
     miscellaneous s' = miscellaneous s).
Proof.
  intros Hin Hout s' seq. subst seq. set (seq := getSeq event) in *.
  assert (miscellaneous s' =
          miscellaneous
            (if overwrites seq s
             then storeData (mkMisc (Some (toString seq))
                               (Some (toString (now s))) None) s
             else s)) as Hs'.
  { unfold s', complete. rewrite onGrpcStreamEvent_advance, advance_bind.
    set (s1 := if bool_decide _ then _ else s).
    rewrite updateWatermark_advance. fold seq.
    assert (overwrites seq s1 = overwrites seq s /\
            DISABLE_EVENT_CACHE s1 = DISABLE_EVENT_CACHE s /\
            miscellaneous s1 = miscellaneous s) as (Ho & Hd & Hm).
    { unfold s1. destruct (bool_decide _); [|done]. by destruct s. }
    destruct (Runs_advance _ _ _
                (if overwrites seq s1
                 then storeData (mkMisc (Some (toString seq))
                                   (Some (toString (now s))) None) s1
                 else s1)
                (switchType_effects _ (getPayload event) Hin Hout))
      as [(_ & -> & _) _].
    rewrite Ho. destruct (overwrites seq s); [|done].
    unfold storeData. rewrite Hd. destruct (DISABLE_EVENT_CACHE s); [done|].
    destruct s1, s; cbn in *. by subst. }
  clearbody s'.
  assert (lastEventSeq (storedData s) =
          if DISABLE_EVENT_CACHE s then None
          else if stale s then None else lookupMisc "lastEventSeq" s) as Hstored
    by (unfold storedData; by destruct (DISABLE_EVENT_CACHE s)).
  destruct (overwrites seq s) eqn:Ho.
  - unfold overwrites in Ho. rewrite Hstored in Ho.
    apply andb_true_iff in Ho as [[Hz Hd]%andb_true_iff Hc].
    apply bool_decide_eq_true in Hz. apply negb_true_iff in Hd.
    rewrite Hd in Hc. split.
    + intros Hne. unfold lookupMisc in Hne |- *. rewrite Hs' in Hne |- *.
      unfold storeData, setField in Hne |- *. rewrite Hd in Hne |- *.
      cbn [lastEventSeq lastEventTimestamp accountId] in Hne |- *.
      destruct s as [mgr tm wl wr ri [m|] li rd dis clock res nf tr];
        cbn in Hne |- *; [|done].
      split; [rewrite lookup_insert_ne by done; by rewrite lookup_insert_eq|].
      split; [done|]. split; [done|].
      fold (lookupMisc "lastEventSeq"
              (mkPuppetService mgr tm wl wr ri (Some m) li rd dis clock res nf tr))
        in Hc.
      set (s0 := mkPuppetService _ _ _ _ _ _ _ _ _ _ _ _ _) in *.
      change (m !! "lastEventSeq") with (lookupMisc "lastEventSeq" s0).
      destruct (stale s0); [by auto|].
      apply orb_true_iff in Hc as [[Hc|Hc]%orb_true_iff|Hc].
      * left. by apply negb_true_iff.
      * right. right. right.
        destruct (lookupMisc "lastEventSeq" s0) as [sv|]; [|done].
        cbn in Hc |- *. destruct (Number sv) as [w|]; [|done].
        exists w. split; [done|]. cbn in Hc. lia.
      * right. right. left. by apply bool_decide_eq_true in Hc.
    + intros sv w Hsv Hne Hw Hst Hle Hone. exfalso.
      rewrite Hst, Hsv in Hc. cbn in Hc. rewrite Hw in Hc. cbn in Hc.
      rewrite bool_decide_true, (bool_decide_false (seq = 1%Z)) in Hc by done.
      cbn in Hc. lia.
  - split; [|done]. intros Hne. exfalso. apply Hne.
    unfold lookupMisc. by rewrite Hs'.
Qed.

Lemma watermark_overwrite_rule_witness :
  miscellaneous (complete (onGrpcStreamEvent (message 3)) (seen5 2000))
    = miscellaneous (seen5 2000) /\
  lookupMisc "lastEventSeq" (complete (onGrpcStreamEvent (message 7)) (seen5 2000))
    = Some "7".
Proof.
  split.
  - refine (proj2 (watermark_overwrite_rule (message 3) (seen5 2000) _ _)
              "5" 5%Z _ _ _ _ _ _); try done; vm_compute; congruence.
  - refine (proj1 (proj1 (watermark_overwrite_rule (message 7) (seen5 2000) _ _)
                     _)); try done; vm_compute; congruence.
Defined.

(** C9, the claim as stated fails.  With the watermark 5 stored, an
    envelope numbered 1 is at most the watermark and overwrites it with 1;
    and once the watermark is stale, any numbered envelope overwrites it,
    here one numbered 3. *)
Lemma watermark_regresses :
  lookupMisc "lastEventSeq" (seen5 2000) = Some "5" /\
  stale (seen5 2000) = false /\
  (getSeq (message 1) <= 5)%Z /\
  lookupMisc "lastEventSeq" (complete (onGrpcStreamEvent (message 1)) (seen5 2000))
    = Some "1" /\
  stale (seen5 200000) = true /\
  (getSeq (message 3) <= 5)%Z /\
  lookupMisc "lastEventSeq" (complete (onGrpcStreamEvent (message 3)) (seen5 200000))
    = Some "3".
Proof. repeat split; vm_compute; congruence. Qed.

(** ** The claims about [reset] *)




(** *** Dispatch of a [data] event *)

Lemma callListeners_reset_only ls event s queue :
  L_onGrpcStreamEvent ∉ ls ->
  callListeners ls event s queue = (callResetListeners ls event s, queue).
Proof.
  revert s. induction ls as [|[|acc f|f] ls IH]; intros s Hn; cbn.
  - done.
  - exfalso. apply Hn. left.
  - destruct (onLogin acc f event s) as [s' [[]|e]]; [|done].
    apply IH. by intros ?; apply Hn; right.
  - apply IH. by intros ?; apply Hn; right.
Qed.

(** With the handler bridged first and the listeners of [reset()] behind
    it: the handler runs up to its first [await], then the listeners, then
    the rest of the handler. *)
Lemma emitData_bridged event s mgr ls :
  _grpcManager s = Some mgr ->
  dataListeners mgr = L_onGrpcStreamEvent :: ls ->
  L_onGrpcStreamEvent ∉ ls ->
  emitData event s =
  let '(s1, t1) := head (onGrpcStreamEvent event) s in
  fst (advance t1 (callResetListeners ls event s1)).
Proof.
  intros Hm Hl Hn. unfold emitData. rewrite Hm, Hl. cbn [callListeners].
  destruct (head _ s) as [s1 t1].
  by rewrite callListeners_reset_only.
Qed.

(** *** The listeners of [reset()] *)

Lemma elem_of_resolve f f' s :
  f' ∈ resolved (resolve f s) <-> f' = f \/ f' ∈ resolved s.
Proof.
  unfold resolve. case_bool_decide as H.
  - split; [auto|]. by intros [->|].
  - destruct s; cbn. apply elem_of_cons.
Qed.

(** What the listeners leave alone. *)
Lemma callResetListeners_frame ls event s :
  let s' := callResetListeners ls event s in
  _grpcManager s' = _grpcManager s /\
  reconnectIndicator s' = reconnectIndicator s /\
  isLoggedIn s' = isLoggedIn s /\
  readyIndicator s' = readyIndicator s /\
  DISABLE_EVENT_CACHE s' = DISABLE_EVENT_CACHE s /\
  miscellaneous s' = miscellaneous s.
Proof.
  revert s. induction ls as [|[|acc f|f] ls IH]; intros s; cbn.
  - done.
  - apply IH.
  - unfold onLogin, resolve.
    destruct s as [mgr tm wl wr ri misc li rd dis clock res nf tr]; cbn.
    repeat (case_match; cbn); simplify_eq; try done;
      match goal with |- context [callResetListeners ls event ?s0] =>
        apply (IH s0) end.
  - unfold onReady, resolve.
    destruct s as [mgr tm wl wr ri misc li rd dis clock res nf tr]; cbn.
    repeat (case_match; cbn);
      match goal with |- context [callResetListeners ls event ?s0] =>
        apply (IH s0) end.
Qed.

(** Only a login event changes [waitingForLogin]; the flag is never set. *)
Lemma callResetListeners_waitingForLogin ls event s :
  waitingForLogin s = false \/ getType event <> EVENT_TYPE_LOGIN ->
  waitingForLogin (callResetListeners ls event s) = waitingForLogin s.
Proof.
  revert s. induction ls as [|[|acc f|f] ls IH]; intros s Hs; cbn.
  - done.
  - by apply IH.
  - unfold onLogin.
    assert (waitingForLogin s && bool_decide (getType event = EVENT_TYPE_LOGIN)
            = false) as ->.
    { destruct Hs as [->|Hs]; [done|].
      rewrite bool_decide_false by done. apply andb_false_r. }
    by apply IH.
  - rewrite IH.
    + unfold onReady, resolve.
      destruct s as [mgr tm wl wr ri misc li rd dis clock res nf tr]; cbn.
      by repeat (case_match; cbn).
    + unfold onReady, resolve.
      destruct s as [mgr tm wl wr ri misc li rd dis clock res nf tr]; cbn in *.
      by repeat (case_match; cbn).
Qed.

(** A login event disarms the login listeners, whatever it carries. *)
Lemma callResetListeners_disarms ls event s acc f :
  getType event = EVENT_TYPE_LOGIN ->
  L_onLogin acc f ∈ ls ->
  waitingForLogin (callResetListeners ls event s) = false.
Proof.
  intros Hty. revert s.
  induction ls as [|[|acc' f'|f'] ls IH]; intros s Hin; cbn.
  - by apply elem_of_nil in Hin.
  - apply IH. by apply elem_of_cons in Hin as [|].
  - destruct (waitingForLogin s) eqn:Hw.
    + unfold onLogin. rewrite Hw, bool_decide_true by done. cbn [andb].
      destruct (_ && _).
      * by destruct s.
      * rewrite callResetListeners_waitingForLogin.
        -- unfold resolve. destruct s; cbn. by case_match.
        -- left. unfold resolve. destruct s; cbn. by case_match.
    + unfold onLogin. rewrite Hw. cbn [andb].
      rewrite callResetListeners_waitingForLogin; auto.
  - apply IH. by apply elem_of_cons in Hin as [|].
Qed.

(** A promise stays pending unless a listener that holds its [resolve] is
    called with the event it waits for: for the login promise [f], a login
    event, received while [waitingForLogin] is set, that does not make the
    listener throw. *)
Lemma callResetListeners_pending ls event s f :
  f ∉ resolved s ->
  L_onReady f ∉ ls ->
  (forall acc, L_onLogin acc f ∈ ls ->
     waitingForLogin s = true -> getType event = EVENT_TYPE_LOGIN ->
     truthy acc && bool_decide (contactId (getPayload event) ≠ acc) = true) ->
  f ∉ resolved (callResetListeners ls event s).
Proof.
  revert s. induction ls as [|[|acc' f'|f'] ls IH]; intros s Hf Hr Hl; cbn.
  - done.
  - apply IH; [done| |].
    + by intros ?; apply Hr; right.
    + intros acc Hin. apply Hl. by right.
  - assert (L_onReady f ∉ ls) as Hr' by (by intros ?; apply Hr; right).
    unfold onLogin.
    destruct (waitingForLogin s && bool_decide (getType event = EVENT_TYPE_LOGIN))
      eqn:Harmed.
    + apply andb_true_iff in Harmed as [Hw Hty].
      apply bool_decide_eq_true in Hty.
      destruct (truthy acc' && _) eqn:Hmis.
      * by destruct s.
      * assert (f' <> f) as Hne.
        { intros ->. specialize (Hl acc' ltac:(left) Hw Hty). congruence. }
        apply IH; [|done|].
        -- rewrite elem_of_resolve. destruct s; cbn in *. by intros [->|?].
        -- intros acc _ Hw'. exfalso.
           unfold resolve in Hw'. destruct s; cbn in *.
           by case_match.
    + apply IH; [done|done|]. intros acc Hin. apply Hl. by right.
  - assert (f' <> f) as Hne by (intros ->; apply Hr; left).
    apply IH.
    + unfold onReady. case_match; [|done].
      rewrite elem_of_resolve. destruct s; cbn in *. by intros [->|?].
    + by intros ?; apply Hr; right.
    + intros acc Hin Hw. apply Hl; [by right|].
      unfold onReady, resolve in Hw.
      destruct s as [mgr tm wl wr ri misc li rd dis clock res nf tr];
        cbn in *. by repeat (case_match; cbn in * ).
Qed.

Lemma control_fields s s' :
  control s' = control s ->
  _grpcManager s' = _grpcManager s /\
  waitingForLogin s' = waitingForLogin s /\
  waitingForReady s' = waitingForReady s /\
  reconnectIndicator s' = reconnectIndicator s /\
  isLoggedIn s' = isLoggedIn s /\
  readyIndicator s' = readyIndicator s /\
  DISABLE_EVENT_CACHE s' = DISABLE_EVENT_CACHE s /\
  resolved s' = resolved s.
Proof. unfold control. intros [=]. by repeat split. Qed.

(** *** The retry loop, one turn at a time *)

Ltac loop_turn :=
  cbn -[Z.mul Z.ltb Z.sub Z.max Z.min Z.add].

(** An attempt that fails within the budget is followed by a sleep of
    5000 ms and by the next turn. *)
Lemma loop_turn_retry n seq acc t0 B (K : bool -> Async unit) s mgr r rest :
  _grpcManager s = Some mgr -> attemptFails r ->
  (failedAt (now s) r - t0 < B)%Z ->
  run (startStreamLoop (S n) seq acc t0 B ≫= K) (retryInputs r ++ rest) s =
  run (startStreamLoop n seq acc t0 B ≫= K) rest
    (attempted seq acc (retriedAt (now s) r) s).
Proof.
  intros Hm Hf Hb.
  destruct s as [mgr' tm wl wr ri misc li rd dis clock res nf tr].
  cbn in Hm, Hb. subst mgr'.
  destruct r as [o d late]. unfold attemptFails, failedAt, retriedAt in *.
  cbn [r_outcome r_elapsed r_late now] in *.
  unfold run, retryInputs, mbind, Async_bind, attempted. loop_turn.
  destruct (0 `max` d <? 30 * 1000)%Z eqn:Hd.
  - apply Z.ltb_lt in Hd. destruct Hf as [Hf|Hf]; [|lia].
    destruct o as [|e]; [done|]. loop_turn.
    rewrite (proj2 (Z.ltb_lt _ _)) by lia. loop_turn.
    replace (clock + 0 `max` d + 5000 + 0 `max` late)%Z
      with (clock + (0 `max` d) `min` 30000 + 5000 + 0 `max` late)%Z by lia.
    reflexivity.
  - apply Z.ltb_ge in Hd. loop_turn.
    rewrite (proj2 (Z.ltb_lt _ _)) by lia. loop_turn.
    replace (clock + 30 * 1000 + 5000 + 0 `max` late)%Z
      with (clock + (0 `max` d) `min` 30000 + 5000 + 0 `max` late)%Z by lia.
    reflexivity.
Qed.

(** An attempt that succeeds within its 30 s leaves the loop by [break]. *)
Lemma loop_turn_success n seq acc t0 B (K : bool -> Async unit) s mgr dt rest :
  _grpcManager s = Some mgr -> (0 <= dt < 30000)%Z ->
  run (startStreamLoop (S n) seq acc t0 B ≫= K) (in_settle Resolved dt :: rest) s =
  run (K true) rest (started seq acc (now s + dt) s).
Proof.
  intros Hm Hdt.
  destruct s as [mgr' tm wl wr ri misc li rd dis clock res nf tr].
  cbn in Hm. subst mgr'.
  unfold run, mbind, Async_bind, started, attempted. loop_turn.
  rewrite Z.max_r by lia.
  rewrite (proj2 (Z.ltb_lt _ _)) by lia. loop_turn. reflexivity.
Qed.

(** An attempt that fails when the budget is used up clears the reconnect
    indicator and leaves the loop by [return super.reset()]. *)
Lemma loop_turn_give_up n seq acc t0 B (K : bool -> Async unit) s mgr r rest :
  _grpcManager s = Some mgr -> attemptFails r ->
  (B <= failedAt (now s) r - t0)%Z ->
  run (startStreamLoop (S n) seq acc t0 B ≫= K)
    (in_settle (r_outcome r) (r_elapsed r) :: rest) s =
  run (K false) rest (gaveUp seq acc (failedAt (now s) r) s).
Proof.
  intros Hm Hf Hb.
  destruct s as [mgr' tm wl wr ri misc li rd dis clock res nf tr].
  cbn in Hm, Hb. subst mgr'.
  destruct r as [o d late]. unfold attemptFails, failedAt in *.
  cbn [r_outcome r_elapsed r_late now] in *.
  unfold run, mbind, Async_bind, gaveUp, attempted. loop_turn.
  destruct (0 `max` d <? 30 * 1000)%Z eqn:Hd.
  - apply Z.ltb_lt in Hd. destruct Hf as [Hf|Hf]; [|lia].
    destruct o as [|e]; [done|]. loop_turn.
    rewrite (proj2 (Z.ltb_ge _ _)) by lia. loop_turn.
    replace (clock + 0 `max` d)%Z
      with (clock + (0 `max` d) `min` 30000)%Z by lia.
    reflexivity.
  - apply Z.ltb_ge in Hd. loop_turn.
    rewrite (proj2 (Z.ltb_ge _ _)) by lia. loop_turn.
    replace (clock + 30 * 1000)%Z
      with (clock + (0 `max` d) `min` 30000)%Z by lia.
    reflexivity.
Qed.

Lemma attempted_fields seq acc clock s :
  _grpcManager (attempted seq acc clock s) = _grpcManager s /\
  now (attempted seq acc clock s) = clock.
Proof. by destruct s. Qed.

(** The loop goes through a script of failed attempts. *)
Lemma loop_retries rs n seq acc t0 B (K : bool -> Async unit) s mgr rest :
  _grpcManager s = Some mgr ->
  retried t0 B (now s) rs ->
  run (startStreamLoop (length rs + n) seq acc t0 B ≫= K)
    (flat_map retryInputs rs ++ rest) s =
  run (startStreamLoop n seq acc t0 B ≫= K) rest (afterRetries seq acc rs s).
Proof.
  revert s. induction rs as [|r rs IH]; intros s Hm Hrs; [done|].
  destruct Hrs as (Hf & Hb & Hrs).
  cbn [length flat_map afterRetries Nat.add]. rewrite <- app_assoc.
  rewrite (loop_turn_retry _ _ _ _ _ _ _ mgr) by done.
  destruct (attempted_fields seq acc (retriedAt (now s) r) s) as [Hm' Hn'].
  apply IH; [congruence|]. by rewrite Hn'.
Qed.

(** The fuel of [reset()] is enough for every such script: each turn takes
    at least 5000 ms, and a turn goes on only within the budget. *)
Lemma retried_elapsed t0 B clock rs (j : Z) :
  (t0 + 5000 * j <= clock)%Z -> retried t0 B clock rs -> rs <> [] ->
  (5000 * (j + Z.of_nat (length rs) - 1) < B)%Z.
Proof.
  revert clock j. induction rs as [|r rs IH]; intros clock j Hj Hrs Hne; [done|].
  destruct Hrs as (_ & Hb & Hrs).
  assert (clock <= failedAt clock r)%Z as Hc by (unfold failedAt; lia).
  destruct rs as [|r' rs].
  - cbn. lia.
  - specialize (IH (retriedAt clock r) (j + 1)%Z).
    unfold retriedAt in IH at 1. cbn [length] in *.
    lapply IH; [|lia]. intros IH'. specialize (IH' Hrs ltac:(done)). lia.
Qed.

Lemma loopFuel_enough t0 B clock rs :
  (t0 <= clock)%Z -> retried t0 B clock rs ->
  exists n, loopFuel B = length rs + S n.
Proof.
  intros Ht Hrs. unfold loopFuel.
  destruct (decide (rs = [])) as [->|Hne]; [by eexists|].
  pose proof (retried_elapsed t0 B clock rs 0 ltac:(lia) Hrs Hne) as H.
  assert (Z.of_nat (length rs) - 1 <= B / 5000)%Z
    by (apply Z.div_le_lower_bound; lia).
  exists (S (Z.to_nat (B / 5000)) - length rs). lia.
Qed.

(** *** From the call of [reset()] to the wait for the login event *)

Lemma reset_enters_loop s mgr0 inputs :
  _grpcManager s = Some mgr0 -> isLoggedIn s = true ->
  reconnectIndicator s = false ->
  run reset inputs s =
  let acc := accountId (storedData s) in
  let f := nextFuture s in
  let budget := (timeoutMilliseconds s / 10)%Z in
  run (startStreamLoop (loopFuel budget) (lastEventSeq (storedData s)) acc
         (now s) budget ≫=
       (fun started : bool =>
          if started then awaitLoginAndReady acc f (S f) else mret tt))
    inputs (prepared s).
Proof.
  intros Hm Hl Hr.
  destruct s as [mgr tm wl wr ri misc li rd dis clock res nf tr].
  cbn in Hm, Hl, Hr. subst mgr li ri.
  unfold run, reset, prepared, storedData, stale, lookupMisc, mbind, Async_bind.
  destruct dis.
  - cbn -[startStreamLoop awaitLoginAndReady loopFuel Z.div Z.mul Z.ltb Z.sub Number].
    rewrite <- !app_assoc. reflexivity.
  - cbn -[startStreamLoop awaitLoginAndReady loopFuel Z.div Z.mul Z.ltb Z.sub Number].
    rewrite <- !app_assoc.
    destruct (if truthy _ then _ else _) as [last|]; [|reflexivity].
    destruct (tm <? clock - last)%Z; reflexivity.
Qed.

Lemma prepared_fields s :
  _grpcManager (prepared s) =
    (fun mgr => mkGrpcManager false
       (dataListeners mgr ++
        [L_onLogin (accountId (storedData s)) (nextFuture s);
         L_onReady (S (nextFuture s))])) <$> _grpcManager s /\
  now (prepared s) = now s /\ resolved (prepared s) = resolved s /\
  isLoggedIn (prepared s) = isLoggedIn s /\
  trace (prepared s) = trace s ++ [call_stopStream].
Proof. by destruct s. Qed.

Lemma afterRetries_fields seq acc rs s :
  _grpcManager (afterRetries seq acc rs s) = _grpcManager s /\
  resolved (afterRetries seq acc rs s) = resolved s /\
  isLoggedIn (afterRetries seq acc rs s) = isLoggedIn s /\
  trace s `prefix_of` trace (afterRetries seq acc rs s).
Proof.
  revert s. induction rs as [|r rs IH]; intros s; [done|].
  cbn [afterRetries].
  destruct (IH (attempted seq acc (retriedAt (now s) r) s)) as (H1 & H2 & H3 & H4).
  rewrite H1, H2, H3. repeat split; try by destruct s.
  etrans; [|exact H4]. destruct s; cbn. by apply prefix_app_r.
Qed.

Lemma started_fields seq acc clock s :
  _grpcManager (started seq acc clock s) =
    (fun mgr => mkGrpcManager true (dataListeners mgr)) <$> _grpcManager s /\
  resolved (started seq acc clock s) = resolved s /\
  isLoggedIn (started seq acc clock s) = isLoggedIn s /\
  trace (started seq acc clock s) = trace s ++ [call_startStream seq acc].
Proof. by destruct s. Qed.

(** [reset()] on a logged-in session that is not reconnecting yet: after
    any number of failed attempts within the budget and one that succeeds,
    it waits for the login event. *)
Lemma reset_reaches_login_wait s mgr0 rs dt inputs :
  _grpcManager s = Some mgr0 -> isLoggedIn s = true ->
  reconnectIndicator s = false ->
  retried (now s) (timeoutMilliseconds s / 10) (now s) rs ->
  (0 <= dt < 30000)%Z ->
  let seq := lastEventSeq (storedData s) in
  let acc := accountId (storedData s) in
  let f := nextFuture s in
  let s1 := afterRetries seq acc rs (prepared s) in
  run reset (flat_map retryInputs rs ++ in_settle Resolved dt :: inputs) s =
  run (awaitLoginAndReady acc f (S f)) inputs (started seq acc (now s1 + dt) s1).
Proof.
  intros Hm Hl Hr Hrs Hdt seq acc f s1.
  rewrite (reset_enters_loop _ _ _ Hm Hl Hr). cbv zeta.
  destruct (prepared_fields s) as (Hpm & Hpn & _).
  rewrite Hm in Hpm. cbn in Hpm.
  destruct (loopFuel_enough (now s) (timeoutMilliseconds s / 10) (now s) rs
              ltac:(lia) Hrs) as [n ->].
  erewrite loop_retries; [|exact Hpm|by rewrite Hpn].
  destruct (afterRetries_fields seq acc rs (prepared s)) as (Ham & _).
  erewrite loop_turn_success; [|by etrans; [exact Ham|exact Hpm]|done].
  reflexivity.
Qed.

(** *** A reconnect that waits for its login event *)

Section login_wait.
Variables (mgr : GrpcManager) (ls : list DataListener).
Variables (a : string) (f : nat).

(** The handler is bridged first, the listeners of [reset()] come behind
    it; [f] is the login promise of this reconnect, which expects the
    account [a]. *)
Hypothesis bridged : dataListeners mgr = L_onGrpcStreamEvent :: ls.
Hypothesis bridged_once : L_onGrpcStreamEvent ∉ ls.
Hypothesis registered : L_onLogin (Some a) f ∈ ls.
Hypothesis login_promise : forall acc, L_onLogin acc f ∈ ls -> acc = Some a.
Hypothesis not_ready_promise : L_onReady f ∉ ls.
Hypothesis account : a <> "".

Lemma emitData_fields event s :
  _grpcManager s = Some mgr ->
  exists s1 s2,
    handler_step s s1 /\
    s2 = callResetListeners ls event s1 /\
    handler_step s2 (emitData event s).
Proof.
  intros Hm. rewrite (emitData_bridged _ _ _ _ Hm bridged bridged_once).
  destruct (Runs_head _ _ _ s (onGrpcStreamEvent_runs event)) as [H1 Ht].
  destruct (head (onGrpcStreamEvent event) s) as [s1 t1]. cbn in H1, Ht.
  exists s1, (callResetListeners ls event s1). split; [done|]. split; [done|].
  apply (Runs_advance _ _ _ _ Ht).
Qed.

Lemma emitData_pending event s :
  pending mgr f s ->
  (waitingForLogin s = true -> getType event = EVENT_TYPE_LOGIN ->
   contactId (getPayload event) <> Some a) ->
  pending mgr f (emitData event s).
Proof.
  intros [Hm Hf] Hmis.
  destruct (emitData_fields event s Hm) as (s1 & s2 & [H1 _] & -> & [H2 _]).
  apply control_fields in H1 as (Hm1 & Hw1 & _ & _ & _ & _ & _ & Hr1).
  apply control_fields in H2 as (Hm2 & _ & _ & _ & _ & _ & _ & Hr2).
  destruct (callResetListeners_frame ls event s1) as (Hm' & _).
  split; [congruence|]. rewrite Hr2.
  apply callResetListeners_pending; [by rewrite Hr1|done|].
  intros acc Hin Hw Hty. rewrite (login_promise _ Hin). cbn.
  rewrite !bool_decide_true; [done| |done].
  apply Hmis; [congruence|done].
Qed.

Lemma emitData_waitingForLogin event s :
  _grpcManager s = Some mgr ->
  (waitingForLogin s = false \/ getType event = EVENT_TYPE_LOGIN ->
   waitingForLogin (emitData event s) = false) /\
  (getType event <> EVENT_TYPE_LOGIN ->
   waitingForLogin (emitData event s) = waitingForLogin s).
Proof.
  intros Hm.
  destruct (emitData_fields event s Hm) as (s1 & s2 & [H1 _] & -> & [H2 _]).
  apply control_fields in H1 as (_ & Hw1 & _).
  apply control_fields in H2 as (_ & Hw2 & _).
  rewrite Hw2, <- Hw1. split.
  - intros [Hw|Hty].
    + rewrite callResetListeners_waitingForLogin; [congruence|left; congruence].
    + by eapply callResetListeners_disarms.
  - intros Hty. by rewrite callResetListeners_waitingForLogin; [|right].
Qed.

(** While the login promise is pending, [reset()] stays where it is. *)
Lemma awaitLogin_pending (κ : bool -> Async unit) s :
  f ∉ resolved s ->
  advance (awaitLogin (Some a) f ≫= κ) s = (s, awaitLogin (Some a) f ≫= κ).
Proof.
  intros Hf. unfold awaitLogin, finally, wait, mbind, Async_bind.
  cbn [try_catch bind advance]. by rewrite bool_decide_false.
Qed.

(** When the login timeout fires on the pending promise, [reset()] runs the
    [finally] block, falls into the [catch] block and returns what
    [super.reset()] returns. *)
Lemma awaitLogin_timeout (g : nat) s :
  pending mgr f s ->
  feed in_timeout
    (awaitLogin (Some a) f ≫=
     (fun loggedIn : bool => if loggedIn then awaitReady g else mret tt)) s =
  (effect call_super_reset
     (set_grpcManager
        (Some (mkGrpcManager (streaming mgr)
                 (filter (fun l => l ≠ L_onLogin (Some a) f) (dataListeners mgr))))
        (set_reconnectIndicator false (set_waitingForLogin false s))),
   Done (Ok tt)).
Proof.
  intros [Hm Hf]. unfold awaitLogin, finally, wait, mbind, Async_bind.
  cbn [try_catch bind feed]. rewrite bool_decide_false by done.
  unfold resume.
  destruct s as [mgr' tm wl wr ri misc li rd dis clock res nf tr].
  cbn in Hm. subst mgr'. reflexivity.
Qed.

Lemma drive_data_pending (κ : bool -> Async unit) event inputs s :
  pending mgr f (emitData event s) ->
  drive (in_data event :: inputs) (awaitLogin (Some a) f ≫= κ) s =
  drive inputs (awaitLogin (Some a) f ≫= κ) (emitData event s).
Proof.
  intros [_ Hf]. cbn [drive feed]. by rewrite awaitLogin_pending.
Qed.

(** Envelopes that are not login events leave the promise pending. *)
Lemma drive_other_events (κ : bool -> Async unit) events inputs s :
  pending mgr f s ->
  Forall (fun event => getType event <> EVENT_TYPE_LOGIN) events ->
  exists s',
    drive (map in_data events ++ inputs) (awaitLogin (Some a) f ≫= κ) s =
    drive inputs (awaitLogin (Some a) f ≫= κ) s' /\
    pending mgr f s'.
Proof.
  intros Hp Hev. revert s Hp.
  induction Hev as [|event events Hty _ IH]; intros s Hp; [by exists s|].
  assert (pending mgr f (emitData event s)) as Hp'
    by (apply emitData_pending; [done|]; intros; done).
  destruct (IH _ Hp') as (s' & Hd & Hs').
  exists s'. split; [|done].
  cbn [map app]. by rewrite drive_data_pending.
Qed.

(** Once [waitingForLogin] is cleared, no envelope resolves the promise. *)
Lemma drive_disarmed (κ : bool -> Async unit) events inputs s :
  pending mgr f s -> waitingForLogin s = false ->
  exists s',
    drive (map in_data events ++ inputs) (awaitLogin (Some a) f ≫= κ) s =
    drive inputs (awaitLogin (Some a) f ≫= κ) s' /\
    pending mgr f s' /\ waitingForLogin s' = false.
Proof.
  revert s. induction events as [|event events IH]; intros s Hp Hw;
    [by exists s|].
  assert (pending mgr f (emitData event s)) as Hp'
    by (apply emitData_pending; [done|]; intros; congruence).
  assert (waitingForLogin (emitData event s) = false) as Hw'
    by (apply emitData_waitingForLogin; [apply Hp|by left]).
  destruct (IH _ Hp' Hw') as (s' & Hd & Hs').
  exists s'. split; [|done].
  cbn [map app]. by rewrite drive_data_pending.
Qed.

(** The first login event that the reconnect observes names another
    account: the login promise is never resolved, and the login timeout
    sends [reset()] to the full reset. *)
Lemma login_mismatch_times_out (g : nat) events1 event events2 s :
  pending mgr f s ->
  Forall (fun event => getType event <> EVENT_TYPE_LOGIN) events1 ->
  getType event = EVENT_TYPE_LOGIN ->
  contactId (getPayload event) <> Some a ->
  let r := run (awaitLoginAndReady (Some a) f g)
             (map in_data (events1 ++ event :: events2) ++ [in_timeout]) s in
  snd r = Done (Ok tt) /\
  (f ∉ resolved (fst r)) /\
  reconnectIndicator (fst r) = false /\
  waitingForLogin (fst r) = false /\
  last (trace (fst r)) = Some call_super_reset.
Proof.
  intros Hp Hev1 Hty Hmis.
  set (κ := fun loggedIn : bool => if loggedIn then awaitReady g else mret tt).
  set (s0 := set_waitingForReady true (set_waitingForLogin true s)).
  assert (pending mgr f s0) as Hp0 by (by destruct s).
  assert (forall inputs,
            run (awaitLoginAndReady (Some a) f g) inputs s =
            drive inputs (awaitLogin (Some a) f ≫= κ) s0) as Hrun.
  { intros inputs. unfold run, awaitLoginAndReady, modify, mbind, Async_bind.
    cbn [bind advance mret Async_ret].
    change (bind ?m ?k) with (m ≫= k).
    fold s0. fold κ. rewrite awaitLogin_pending by apply Hp0. done. }
  cbv zeta. rewrite Hrun.
  rewrite map_app, <- app_assoc. cbn [map app].
  destruct (drive_other_events κ events1
              (in_data event :: map in_data events2 ++ [in_timeout]) s0 Hp0 Hev1)
    as (s1 & -> & Hp1).
  assert (pending mgr f (emitData event s1)) as Hp2
    by (apply emitData_pending; [done|]; intros; done).
  assert (waitingForLogin (emitData event s1) = false) as Hw2
    by (apply emitData_waitingForLogin; [apply Hp1|by right]).
  rewrite drive_data_pending by done.
  destruct (drive_disarmed κ events2 [in_timeout] _ Hp2 Hw2)
    as (s3 & -> & Hp3 & Hw3).
  cbn [drive]. unfold κ. rewrite awaitLogin_timeout by done.
  destruct Hp3 as [Hm3 Hf3].
  destruct s3 as [mgr' tm wl wr ri misc li rd dis clock res nf tr].
  cbn in *. repeat split; try done. by rewrite last_snoc.
Qed.

End login_wait.

(** C2.  Let [reset()] take the fast path on a session whose persisted
    watermark names the account [a] (not the empty string), let the stream
    be re-established (at the first attempt or after retries within the
    budget), and let the first login event that arrives afterwards carry a
    [contactId] other than [a].  Then the login promise of the reconnect is
    never resolved, whatever arrives later (a login event for [a]
    included); when the login timeout fires, [reset()] clears
    [waitingForLogin] and the reconnect indicator, calls [super.reset()]
    as its last action and returns, without entering the wait for the
    ready event. *)
Theorem reset_account_mismatch_full_reset (s : PuppetService)
    (ls : list DataListener) (a : string) (rs : list Retry) (dt : Z)
    (events1 : list EventResponse) (event : EventResponse)
    (events2 : list EventResponse) :
  fastPath s ls ->
  accountId (storedData s) = Some a -> a <> "" ->
  retried (now s) (timeoutMilliseconds s / 10) (now s) rs ->
  (0 <= dt < 30000)%Z ->
  Forall (fun event => getType event <> EVENT_TYPE_LOGIN) events1 ->
  getType event = EVENT_TYPE_LOGIN ->
  contactId (getPayload event) <> Some a ->
  let r := run reset
             (flat_map retryInputs rs ++ in_settle Resolved dt ::
              map in_data (events1 ++ event :: events2) ++ [in_timeout]) s in
  snd r = Done (Ok tt) /\
  last (trace (fst r)) = Some call_super_reset /\
  (nextFuture s ∉ resolved (fst r)) /\
  reconnectIndicator (fst r) = false /\
  waitingForLogin (fst r) = false.
Proof.
  intros ((mgr0 & Hm & Hb) & Hb1 & Hl & Hr & Hfresh & Hls) Hacc Ha Hrs Hdt
    Hev1 Hty Hmis.
  cbv zeta. rewrite (reset_reaches_login_wait _ _ _ _ _ Hm Hl Hr Hrs Hdt).
  cbv zeta. rewrite Hacc.
  set (f := nextFuture s).
  set (seq := lastEventSeq (storedData s)).
  set (s1 := afterRetries seq (Some a) rs (prepared s)).
  set (s2 := started seq (Some a) (now s1 + dt) s1).
  set (ls' := ls ++ [L_onLogin (Some a) f; L_onReady (S f)]).
  assert (pending (mkGrpcManager true (L_onGrpcStreamEvent :: ls')) f s2) as Hp.
  { destruct (started_fields seq (Some a) (now s1 + dt) s1) as (Hsm & Hsr & _).
    destruct (afterRetries_fields seq (Some a) rs (prepared s)) as (Ham & Har & _).
    destruct (prepared_fields s) as (Hpm & _ & Hpr & _).
    split.
    - unfold s2. rewrite Hsm. unfold s1. rewrite Ham, Hpm, Hm, Hacc. cbn.
      by rewrite Hb.
    - unfold s2. rewrite Hsr. unfold s1. by rewrite Har, Hpr. }
  destruct (login_mismatch_times_out
              (mkGrpcManager true (L_onGrpcStreamEvent :: ls')) ls' a f)
    with (g := S f) (events1 := events1) (event := event) (events2 := events2)
         (s := s2)
    as (H1 & H2 & H3 & H4 & H5); try done.
  - unfold ls'. intros [H|H]%elem_of_app; [done|].
    apply elem_of_cons in H as [|H]; [done|].
    by apply list_elem_of_singleton in H.
  - unfold ls'. apply elem_of_app. right. left.
  - unfold ls'. intros acc [H|H]%elem_of_app.
    + by destruct (proj2 (Hls _ H) acc).
    + apply elem_of_cons in H as [[=]|H]; [done|].
      by apply list_elem_of_singleton in H.
  - unfold ls'. intros [H|H]%elem_of_app.
    + by destruct (proj1 (Hls _ H)).
    + apply elem_of_cons in H as [|H]; [done|].
      apply list_elem_of_singleton in H. injection H. lia.
Qed.

Lemma reset_account_mismatch_full_reset_witness :
  let inputs :=
    retryInputs (mkRetry (Rejected "UNAVAILABLE") 100 0) ++
    [in_settle Resolved 10;
     in_data (mkEventResponse EVENT_TYPE_HEARTBEAT (dataPayload "connected") 0);
     in_data (mkEventResponse EVENT_TYPE_LOGIN (loginPayload "B") 0);
     in_data (mkEventResponse EVENT_TYPE_LOGIN (loginPayload "A1") 0);
     in_timeout] in
  snd (run reset inputs session) = Done (Ok tt) /\
  last (trace (fst (run reset inputs session))) = Some call_super_reset.
Proof.
  intros inputs.
  destruct (reset_account_mismatch_full_reset session [] "A1"
              [mkRetry (Rejected "UNAVAILABLE") 100 0] 10
              [mkEventResponse EVENT_TYPE_HEARTBEAT (dataPayload "connected") 0]
              (mkEventResponse EVENT_TYPE_LOGIN (loginPayload "B") 0)
              [mkEventResponse EVENT_TYPE_LOGIN (loginPayload "A1") 0])
    as (H1 & H2 & _).
  - split; [eexists; split; vm_compute; reflexivity|].
    split; [apply not_elem_of_nil|].
    split; [vm_compute; reflexivity|]. split; [vm_compute; reflexivity|].
    split; [vm_compute; apply not_elem_of_nil|].
    intros l Hl. by apply elem_of_nil in Hl.
  - vm_compute. reflexivity.
  - discriminate.
  - split; [left; discriminate|]. split; [vm_compute; reflexivity|exact I].
  - lia.
  - repeat constructor. discriminate.
  - reflexivity.
  - cbn. congruence.
  - split; [exact H1|exact H2].
Defined.

(** ** The retry budget *)

(** [reset()] on the fast path: after any number of failed attempts within
    the budget, an attempt that fails when the budget is used up ends the
    call with the reconnect indicator cleared and [super.reset()]. *)
Lemma reset_budget_used_up s mgr0 rs r inputs :
  _grpcManager s = Some mgr0 -> isLoggedIn s = true ->
  reconnectIndicator s = false ->
  retried (now s) (timeoutMilliseconds s / 10) (now s) rs ->
  attemptFails r ->
  let seq := lastEventSeq (storedData s) in
  let acc := accountId (storedData s) in
  let s1 := afterRetries seq acc rs (prepared s) in
  (timeoutMilliseconds s / 10 <= failedAt (now s1) r - now s)%Z ->
  run reset
    (flat_map retryInputs rs ++ in_settle (r_outcome r) (r_elapsed r) :: inputs) s =
  drive inputs (Done (Ok tt)) (gaveUp seq acc (failedAt (now s1) r) s1).
Proof.
  intros Hm Hl Hr Hrs Hf seq acc s1 Hb.
  rewrite (reset_enters_loop _ _ _ Hm Hl Hr). cbv zeta.
  destruct (prepared_fields s) as (Hpm & Hpn & _).
  rewrite Hm in Hpm. cbn in Hpm.
  destruct (loopFuel_enough (now s) (timeoutMilliseconds s / 10) (now s) rs
              ltac:(lia) Hrs) as [n ->].
  erewrite loop_retries; [|exact Hpm|by rewrite Hpn].
  destruct (afterRetries_fields seq acc rs (prepared s)) as (Ham & _).
  erewrite loop_turn_give_up;
    [|by etrans; [exact Ham|exact Hpm]|done|exact Hb].
  reflexivity.
Qed.

(** C3.  With the default options [timeoutMilliseconds] is 2 * 1000 * 60 =
    120000 and the budget of the loop, a tenth of it, is 12000 ms.  On the
    session [session] (default options, clock 1010): the call of
    [startStream(undefined, 'A1')] gets its 30 s; a first attempt that is
    rejected 11999 ms after the call is followed by the sleep of 5000 ms
    and a second attempt; a first attempt that is rejected after 12000 ms
    is the last one: the reconnect indicator is cleared and [super.reset()]
    is called, 12 seconds (not 2 minutes) after the call of [reset()]. *)
Theorem reset_default_budget :
  timeoutMilliseconds (constructor None false 1000) = 120000%Z /\
  (timeoutMilliseconds session / 10)%Z = 12000%Z /\
  waitsFor (snd (run reset [] session)) =
    Some (W_startStream None (Some "A1"), Some 30000%Z) /\
  (let r := run reset [in_settle (Rejected "UNAVAILABLE") 11999] session in
   waitsFor (snd r) = Some (W_sleep 5000, None) /\
   reconnectIndicator (fst r) = true /\
   let r' := run reset [in_settle (Rejected "UNAVAILABLE") 11999;
                        in_settle Resolved 0] session in
   waitsFor (snd r') = Some (W_startStream None (Some "A1"), Some 30000%Z) /\
   trace (fst r') = trace session ++
     [call_stopStream; call_startStream None (Some "A1");
      call_startStream None (Some "A1")]) /\
  (let r := run reset [in_settle (Rejected "UNAVAILABLE") 12000] session in
   snd r = Done (Ok tt) /\
   reconnectIndicator (fst r) = false /\
   (now (fst r) - now session)%Z = 12000%Z /\
   trace (fst r) = trace session ++
     [call_stopStream; call_startStream None (Some "A1"); call_super_reset]).
Proof. repeat split; vm_compute; reflexivity. Qed.


(** ** An envelope that the reconnect waits for *)

Lemma head_bind {A B} (m : Async A) (f : A -> Async B) s :
  head (m ≫= f) s =
  match head m s with
  | (s', Done (Ok a)) => head (f a) s'
  | (s', Done (Throw e)) => (s', Done (Throw e))
  | (s', t) => (s', t ≫= f)
  end.
Proof.
  unfold mbind, Async_bind. revert s.
  induction m as [[a|e]|k IH|g k IH|k IH|w t k IH]; intros s; cbn; done.
Qed.

(** Without a sequence number, or with the event cache disabled, the
    handler does not [await] before its [switch]. *)
Lemma updateWatermark_head_through seq timestamp s :
  seq = 0%Z \/ DISABLE_EVENT_CACHE s = true ->
  head (updateWatermark seq timestamp) s = (s, Done (Ok tt)).
Proof.
  intros H. unfold updateWatermark, gets. cbn [mbind Async_bind bind head mret Async_ret].
  destruct H as [-> | Hd]; [done|]. rewrite Hd. by rewrite andb_false_r.
Qed.

(** With a sequence number and the cache enabled it gives up control at
    [await this.getMiscellaneousStoreData()], in front of the [switch]. *)
Lemma updateWatermark_head_suspends seq timestamp s :
  seq <> 0%Z -> DISABLE_EVENT_CACHE s = false ->
  exists k, head (updateWatermark seq timestamp) s = (s, Yield k).
Proof.
  intros Hseq Hd.
  unfold updateWatermark, getMiscellaneousStoreData, await, store_get, gets.
  cbn [mbind Async_bind bind head mret Async_ret].
  rewrite Hd, bool_decide_true by done.
  cbn [mbind Async_bind bind head mret Async_ret andb negb].
  rewrite Hd. cbn [mbind Async_bind bind head mret Async_ret]. eauto.
Qed.

Lemma callResetListeners_trace ls event s :
  getType event <> EVENT_TYPE_LOGIN ->
  trace (callResetListeners ls event s) = trace s.
Proof.
  intros Hty. revert s.
  induction ls as [|[|acc f|f] ls IH]; intros s; cbn.
  - done.
  - apply IH.
  - unfold onLogin. rewrite bool_decide_false by done.
    rewrite andb_false_r. apply IH.
  - rewrite IH. unfold onReady, resolve. destruct s; cbn.
    by repeat (case_match; cbn).
Qed.

(** A ready event disarms the ready listeners. *)
Lemma callResetListeners_ready ls event s f :
  getType event = EVENT_TYPE_READY ->
  L_onReady f ∈ ls ->
  waitingForReady (callResetListeners ls event s) = false.
Proof.
  intros Hty.
  assert (forall ls s, waitingForReady s = false ->
            waitingForReady (callResetListeners ls event s) = false) as Hkeep.
  { clear ls s. intros ls. induction ls as [|[|acc' f'|f'] ls IH]; intros s Hw; cbn.
    - done.
    - by apply IH.
    - unfold onLogin. rewrite Hty. cbn. rewrite andb_false_r. by apply IH.
    - apply IH. unfold onReady. by rewrite Hw. }
  revert s. induction ls as [|[|acc' f'|f'] ls IH]; intros s Hin; cbn.
  - by apply elem_of_nil in Hin.
  - apply IH. by apply elem_of_cons in Hin as [|].
  - unfold onLogin. rewrite Hty. cbn. rewrite andb_false_r.
    apply IH. by apply elem_of_cons in Hin as [|].
  - destruct (waitingForReady s) eqn:Hw.
    + apply Hkeep. unfold onReady, resolve.
      rewrite Hw, Hty, bool_decide_true by done. cbn [andb].
      destruct s; cbn. by case_match.
    + apply Hkeep. unfold onReady. by rewrite Hw.
Qed.

(** A ready event that comes without a sequence number while the reconnect
    waits for it is not passed on: the heartbeat that stands for it is all
    that is emitted. *)
Lemma unsequenced_ready_ignored event s mgr ls :
  _grpcManager s = Some mgr ->
  dataListeners mgr = L_onGrpcStreamEvent :: ls ->
  L_onGrpcStreamEvent ∉ ls ->
  getType event = EVENT_TYPE_READY ->
  waitingForReady s = true -> readyIndicator s = true ->
  getSeq event = 0%Z \/ DISABLE_EVENT_CACHE s = true ->
  trace (emitData event s) =
  trace s ++ [emit "heartbeat" (receivedHeartbeat EVENT_TYPE_READY)].
Proof.
  intros Hm Hl Hn Hty Hw Hr Hseq.
  rewrite (emitData_bridged _ _ _ _ Hm Hl Hn), onGrpcStreamEvent_head.
  rewrite Hty, bool_decide_true by done.
  set (s1 := effect _ s).
  assert (waitingForReady s1 = true /\ readyIndicator s1 = true /\
          DISABLE_EVENT_CACHE s1 = DISABLE_EVENT_CACHE s /\
          trace s1 = trace s ++
            [emit "heartbeat" (receivedHeartbeat EVENT_TYPE_READY)])
    as (Hw1 & Hr1 & Hd1 & Ht1) by (by destruct s).
  rewrite head_bind, updateWatermark_head_through by (by rewrite Hd1).
  unfold switchType, gets. cbn [mbind Async_bind bind head mret Async_ret].
  rewrite Hw1, Hr1. cbn [andb head advance fst mret Async_ret].
  rewrite callResetListeners_trace by (by rewrite Hty). exact Ht1.
Qed.

(** The same event with a sequence number, the event cache enabled: the
    handler has given up control when the listener of [reset()] clears
    [waitingForReady], and finds the flag cleared when it goes on: the
    event [ready] is emitted. *)
Lemma sequenced_ready_emitted event s mgr ls f :
  _grpcManager s = Some mgr ->
  dataListeners mgr = L_onGrpcStreamEvent :: ls ->
  L_onGrpcStreamEvent ∉ ls ->
  L_onReady f ∈ ls ->
  getType event = EVENT_TYPE_READY ->
  getSeq event <> 0%Z -> DISABLE_EVENT_CACHE s = false ->
  trace (emitData event s) =
  trace s ++ [emit "heartbeat" (receivedHeartbeat EVENT_TYPE_READY);
              emit "ready" (getPayload event)].
Proof.
  intros Hm Hl Hn Hin Hty Hseq Hd.
  rewrite (emitData_bridged _ _ _ _ Hm Hl Hn), onGrpcStreamEvent_head.
  rewrite Hty, bool_decide_true by done.
  set (s1 := effect _ s).
  assert (DISABLE_EVENT_CACHE s1 = false /\
          trace s1 = trace s ++
            [emit "heartbeat" (receivedHeartbeat EVENT_TYPE_READY)])
    as (Hd1 & Ht1) by (by destruct s).
  rewrite head_bind.
  pose proof (Runs_head store_step returns _ s1
                (updateWatermark_runs (getSeq event) (toString (now s)))) as [_ Hk].
  destruct (updateWatermark_head_suspends (getSeq event) (toString (now s)) s1
              Hseq Hd1) as [k Hhead].
  rewrite Hhead in Hk |- *. cbn [snd] in Hk.
  set (s2 := callResetListeners ls event s1).
  assert (waitingForReady s2 = false) as Hw2
    by (by apply callResetListeners_ready with f).
  assert (trace s2 = trace s1) as Ht2
    by (by apply callResetListeners_trace; rewrite Hty).
  rewrite advance_bind.
  destruct (Runs_advance store_step returns (Yield k) s2 Hk)
    as [[Hc Ht] [[[]|e] [Hdone Hq]]]; [|done].
  destruct (advance (Yield k) s2) as [s3 t3]. cbn [fst snd] in *. subst t3.
  apply control_fields in Hc as (_ & _ & Hw3 & _).
  unfold switchType, gets. cbn [mbind Async_bind bind advance mret Async_ret].
  rewrite Hw3, Hw2. cbn [andb].
  unfold perform, modify. cbn [advance fst].
  destruct s3; cbn in *. by rewrite Ht, Ht2, Ht1, <- app_assoc.
Qed.

(** C4.  On the session [session] (logged in as A1 and ready, event cache
    enabled) [reset()] re-establishes the stream after 10 ms.  When the
    login event of A1 and the ready event come without sequence numbers
    the reconnect completes and the two heartbeats that stand for them are
    all that is emitted.  When they come with the sequence numbers 1 and 2
    the reconnect completes in the same way, but the handler goes through
    [this.login('A1')] and emits [ready]. *)
Theorem reconnect_sequenced_events_pass :
  let login seq := mkEventResponse EVENT_TYPE_LOGIN (loginPayload "A1") seq in
  let ready seq := mkEventResponse EVENT_TYPE_READY (dataPayload "ready") seq in
  let reconnect seq1 seq2 :=
    run reset [in_settle Resolved 10; in_data (login seq1); in_data (ready seq2)]
      session in
  let common :=
    [call_stopStream; call_startStream None (Some "A1");
     emit "heartbeat" (receivedHeartbeat EVENT_TYPE_LOGIN)] in
  (snd (reconnect 0 0)%Z = Done (Ok tt) /\
   reconnectIndicator (fst (reconnect 0 0)%Z) = false /\
   isLoggedIn (fst (reconnect 0 0)%Z) = true /\
   trace (fst (reconnect 0 0)%Z) = trace session ++ common ++
     [emit "heartbeat" (receivedHeartbeat EVENT_TYPE_READY)]) /\
  (snd (reconnect 1 2)%Z = Done (Ok tt) /\
   reconnectIndicator (fst (reconnect 1 2)%Z) = false /\
   isLoggedIn (fst (reconnect 1 2)%Z) = true /\
   trace (fst (reconnect 1 2)%Z) = trace session ++ common ++
     [call_login (Some "A1");
      emit "heartbeat" (receivedHeartbeat EVENT_TYPE_READY);
      emit "ready" (dataPayload "ready")]).
Proof. repeat split; vm_compute; reflexivity. Qed.

End ClientProps.

(* ===================================================================== *)
(** * More about the server side *)
(* ===================================================================== *)

Module ServerLifeProps.
Import Server ServerLife ServerProps.

(** *** What every operation keeps *)

Lemma init_steady names : steady names (init names).
Proof. repeat split; try done. by intros t Ht%elem_of_nil. Qed.

Lemma grpcEmit_eq type obj s :
  grpcEmit type obj s =
  mkState (eventStream s) (puppetListening s) (offCallbackList s)
    (scanPayload s) (readyPayload s) (readyTimeout s) (isLoggedIn s)
    (currentUserId s) (readyIndicator s) (listeners s) (PUPPET_EVENT_DICT s)
    (streamHandlers s) (timers s) (nextId s)
    (trace s ++ match eventStream s with
                | Some st => [stream_write st (mkEventResponse type obj 0)]
                | None => []
                end).
Proof.
  unfold grpcEmit. destruct s as [[st|] ? ? ? ? ? ? ? ? ? ? ? ? ? ?]; cbn;
    by rewrite ?app_nil_r.
Qed.

Lemma grpcEmit_detached type obj s :
  eventStream s = None -> grpcEmit type obj s = s.
Proof. intros He. unfold grpcEmit. by rewrite He. Qed.

Lemma fold_grpcEmit_detached payload (ls : list Listener) s :
  eventStream s = None ->
  fold_left (fun s l => grpcEmit (ltype l) payload s) ls s = s.
Proof.
  intros He. induction ls as [|l ls IH]; [done|].
  cbn. by rewrite grpcEmit_detached.
Qed.

Lemma grpcEmit_steady names type obj s :
  steady names s -> steady names (grpcEmit type obj s).
Proof.
  intros (H1 & H2 & H3 & H4 & H5 & H6). rewrite grpcEmit_eq.
  repeat split; try done; cbn.
  - by apply H3.
  - by apply H3.
  - apply Forall_app. split; [done|].
    destruct (eventStream s); repeat constructor.
Qed.

Lemma fold_grpcEmit_steady names payload (ls : list Listener) s :
  steady names s ->
  steady names (fold_left (fun s l => grpcEmit (ltype l) payload s) ls s).
Proof.
  revert s. induction ls as [|l ls IH]; intros s Hs; [done|].
  cbn. by apply IH, grpcEmit_steady.
Qed.

(** The four listeners of [puppetImplementation] touch its three [let]
    variables and the timers, nothing else. *)
Lemma implListeners_eq name payload s :
  exists sp rp rt tm n,
    implListeners name payload s =
    mkState (eventStream s) (puppetListening s) (offCallbackList s)
      sp rp rt (isLoggedIn s) (currentUserId s) (readyIndicator s)
      (listeners s) (PUPPET_EVENT_DICT s) (streamHandlers s) tm n (trace s) /\
    (forall t, t ∈ tm -> t ∈ timers s \/ tid t = nextId s /\ n = S (nextId s)) /\
    nextId s <= n.
Proof.
  destruct s as [es pl ocl sp rp rt li id rd ls names sh tm n tr].
  unfold implListeners, newTimer, clearTimeout.
  repeat case_decide; cbn.
  - eexists _, _, _, _, _. split; [reflexivity|]. split; [tauto|lia].
  - eexists _, _, _, _, _. split; [reflexivity|]. split; [tauto|lia].
  - destruct rt as [id0|]; cbn.
    + eexists _, _, _, _, _. split; [reflexivity|]. split; [|lia].
      intros t Ht%list_elem_of_filter. tauto.
    + eexists _, _, _, _, _. split; [reflexivity|]. split; [tauto|lia].
  - eexists _, _, _, _, _. split; [reflexivity|]. split; [|lia].
    intros t [Ht|Ht]%elem_of_app; [tauto|].
    apply list_elem_of_singleton in Ht as ->. cbn. tauto.
  - eexists _, _, _, _, _. split; [reflexivity|]. split; [tauto|lia].
Qed.

Lemma implListeners_steady names name payload s :
  steady names s -> steady names (implListeners name payload s).
Proof.
  intros (H1 & H2 & H3 & H4 & H5 & H6).
  destruct (implListeners_eq name payload s)
    as (sp & rp & rt & tm & n & -> & Htm & Hn).
  repeat split; try done; cbn.
  - by apply H3.
  - by apply H3.
  - intros t Ht. destruct (Htm t Ht) as [Hin|[-> ->]]; [|lia].
    specialize (H5 t Hin). lia.
Qed.

Lemma puppetEmit_steady names name payload s :
  steady names s -> steady names (puppetEmit name payload s).
Proof.
  intros Hs. unfold puppetEmit.
  by apply fold_grpcEmit_steady, implListeners_steady.
Qed.

Lemma filter_none {A} (P : A -> Prop) `{forall x, Decision (P x)} (l : list A) :
  (forall x, x ∈ l -> ~ P x) -> filter P l = [].
Proof.
  induction l as [|x l IH]; intros Hl; [done|].
  rewrite filter_cons_False by (apply Hl; left).
  apply IH. intros y Hy. apply Hl. by right.
Qed.

Lemma unsequenced_off (ls : list Listener) :
  Forall unsequenced (map puppet_off ls).
Proof. apply Forall_forall. intros e (l & -> & _)%list_elem_of_fmap. exact I. Qed.

Lemma unsequenced_on (ls : list Listener) :
  Forall unsequenced (map puppet_on ls).
Proof. apply Forall_forall. intros e (l & -> & _)%list_elem_of_fmap. exact I. Qed.

(** The manager with its listeners removed and its handle cleared. *)
Lemma detached_steady names s :
  steady names s -> steady names (set_eventStream None (removePuppetListeners s)).
Proof.
  intros (H1 & H2 & H3 & H4 & H5 & H6). rewrite removePuppetListeners_eq.
  assert (filter (fun l => l ∉ offCallbackList s) (listeners s) = []) as Hf.
  { apply filter_none. intros l Hl Hn. apply Hn. by rewrite H2. }
  repeat split; cbn; try done.
  - apply Forall_app. split; [done|apply unsequenced_off].
Qed.

Lemma onTeardown_eq sig s :
  puppetListening s = true ->
  onTeardown sig s = set_eventStream None (removePuppetListeners s).
Proof.
  intros Hp. unfold onTeardown. rewrite Hp, removePuppetListeners_eq. cbn.
  by destruct (eventStream s).
Qed.

Lemma onTeardown_steady names sig s :
  steady names s -> steady names (onTeardown sig s).
Proof.
  intros Hs. destruct (puppetListening s) eqn:Hp.
  - rewrite onTeardown_eq by done. by apply detached_steady.
  - destruct Hs as (H1 & H2 & H3 & H4 & H5 & H6).
    destruct (H3 Hp) as [He Hl].
    rewrite onTeardown_clean; [done|done|congruence].
Qed.

Lemma streamSignal_steady names st sig s :
  steady names s -> steady names (streamSignal st sig s).
Proof.
  unfold streamSignal. generalize (filter (fun st' => st' = st) (streamHandlers s)).
  intros l. revert s. induction l as [|x l IH]; intros s Hs; [done|].
  cbn. by apply IH, onTeardown_steady.
Qed.

Lemma start_steady names st s s' :
  steady names s -> start st s = Ok s' -> steady names s'.
Proof.
  intros (H1 & H2 & H3 & H4 & H5 & H6).
  destruct (eventStream s) as [st0|] eqn:He.
  - by rewrite (start_busy _ _ _ He).
  - rewrite (start_eq _ _ He). cbv zeta. intros [= <-].
    assert (filter (fun l => l ∉ offCallbackList s) (listeners s) = []) as Hf.
    { apply filter_none. intros l Hl Hn. apply Hn. by rewrite H2. }
    rewrite Hf, H1. repeat split; cbn; try done.
    + by exists (nextId s).
    + intros t [Ht|Ht]%elem_of_app.
      * specialize (H5 t Ht). lia.
      * destruct (readyIndicator s); [|by apply elem_of_nil in Ht].
        apply list_elem_of_singleton in Ht as ->. cbn. lia.
    + apply Forall_app. split; [done|].
      apply Forall_app. split; [apply unsequenced_off|].
      apply Forall_app. split; [apply unsequenced_on|].
      constructor; [done|]. destruct (isLoggedIn s); repeat constructor.
Qed.

Lemma effect_steady names e s :
  steady names s -> unsequenced e -> steady names (effect e s).
Proof.
  intros (H1 & H2 & H3 & H4 & H5 & H6) He.
  destruct s; repeat split; cbn in *; try done.
  - by apply H3.
  - by apply H3.
  - apply Forall_app. split; [done|by constructor].
Qed.

Lemma event_steady names st s s' :
  steady names s -> event st s = Ok s' -> steady names s'.
Proof.
  intros Hs. unfold event. destruct (busy s).
  - intros [= <-]. by apply streamSignal_steady, effect_steady.
  - destruct (start st s) as [s1|] eqn:Hst; [|done].
    apply (start_steady names) in Hst; [|done].
    destruct (scanPayload s1); intros [= <-]; [|done].
    by apply grpcEmit_steady.
Qed.

Lemma stop_steady names s s' :
  steady names s -> stop s = Ok s' -> steady names s'.
Proof.
  intros Hs. destruct (eventStream s) as [st|] eqn:He;
    [|by unfold stop; rewrite He].
  rewrite (stop_eq _ _ He). intros [= <-].
  pose proof (detached_steady names s Hs) as Hd.
  pose proof (effect_steady names (stream_end st) _ Hd I) as He'.
  revert He'. rewrite removePuppetListeners_eq. cbn -[reverse]. by rewrite <- app_assoc.
Qed.

Lemma fireTimer_steady names id s :
  steady names s -> steady names (fireTimer id s).
Proof.
  intros Hs. unfold fireTimer. destruct (find _ _) as [t|]; [|done].
  assert (steady names (clearTimeout id s)) as Hc.
  { destruct Hs as (H1 & H2 & H3 & H4 & H5 & H6).
    destruct s; repeat split; cbn in *; try done.
    - by apply H3.
    - by apply H3.
    - intros t' Ht'%list_elem_of_filter. apply H5, Ht'. }
  unfold runTimer. destruct (action t); [by apply grpcEmit_steady|].
  destruct (readyPayload _); [by apply grpcEmit_steady|done].
Qed.

Lemma step_steady names op s :
  steady names s -> steady names (step op s).
Proof.
  intros Hs. destruct op as [st| |st sig|name payload|li id rd|id]; cbn.
  - destruct (event st s) eqn:H; [by eapply event_steady|done].
  - destruct (stop s) eqn:H; [by eapply stop_steady|done].
  - by apply streamSignal_steady.
  - by apply puppetEmit_steady.
  - destruct Hs as (H1 & H2 & H3 & H4 & H5 & H6).
    destruct s; repeat split; cbn in *; try done.
    + by apply H3.
    + by apply H3.
  - by apply fireTimer_steady.
Qed.

Lemma exec_steady names ops s :
  steady names s -> steady names (exec ops s).
Proof.
  revert s. induction ops as [|op ops IH]; intros s Hs; [done|].
  cbn. by apply IH, step_steady.
Qed.

(** *** The listeners that [connectPuppetEventToStreamingCall] creates *)

Lemma registered_known names n l :
  l ∈ registered names n ->
  lname l ∈ names /\ eventTypeOfName (lname l) = Some (ltype l).
Proof.
  revert n. induction names as [|name names IH]; intros n; cbn.
  - by intros ?%elem_of_nil.
  - destruct (eventTypeOfName name) eqn:Hn.
    + intros [->|H]%elem_of_cons; [cbn; split; [left|done]|].
      destruct (IH _ H). split; [by right|done].
    + intros H. destruct (IH _ H). split; [by right|done].
Qed.

Lemma registered_unknown names n name :
  name ∉ names -> filter (fun l => lname l = name) (registered names n) = [].
Proof.
  intros Hn. apply filter_none. intros l [Hl _]%registered_known <-. done.
Qed.

(** Each name of the dictionary that the [switch] knows has one listener. *)
Lemma registered_one names n name type :
  NoDup names -> name ∈ names -> eventTypeOfName name = Some type ->
  exists k, filter (fun l => lname l = name) (registered names n)
            = [mkListener name type k].
Proof.
  intros Hnd. revert n. induction Hnd as [|x names Hx Hnd IH]; intros n Hin Hty.
  - by apply elem_of_nil in Hin.
  - cbn. destruct (decide (x = name)) as [->|Hne].
    + rewrite Hty. rewrite filter_cons_True by done.
      rewrite registered_unknown by done. by exists n.
    + apply elem_of_cons in Hin as [->|Hin]; [done|].
      destruct (eventTypeOfName x).
      * rewrite filter_cons_False by done. by apply IH.
      * by apply IH.
Qed.

(** ** Properties of the running server *)

(** X1.  Whatever happens to a server (calls of the [event] handler, of
    [stop()], teardown signals on any stream, events and state changes of
    the puppet, timers), the puppet carries the listeners of the
    [EventStreamManager] exactly while a stream is attached: none when no
    stream is attached, and when one is attached, one listener for each
    event name of [PUPPET_EVENT_DICT] that the [switch] of
    [connectPuppetEventToStreamingCall] knows, in the order of the
    dictionary.  Listeners of an earlier connection never stay behind, and
    [offCallbackList] holds the [off] closures of the listeners in place. *)
Theorem listeners_follow_the_stream (names : list string) (ops : list Op) :
  let s := exec ops (init names) in
  offCallbackList s = listeners s /\
  match eventStream s with
  | None => listeners s = []
  | Some _ => exists k, listeners s = registered names k
  end.
Proof.
  destruct (exec_steady names ops _ (init_steady names))
    as (_ & H2 & _ & H4 & _).
  by split.
Qed.

(** X2.  While a stream is attached, an event of the puppet whose name the
    [switch] knows is written to that stream once, as one envelope of the
    matching type that carries the payload of the event, however many
    streams were attached and detached before.  The names of the dictionary
    are the keys of an object, hence distinct. *)
Theorem puppet_event_written_once (names : list string) (ops : list Op)
    (name : string) (type : EventType) (payload : Payload) (st : Stream) :
  NoDup names -> name ∈ names -> eventTypeOfName name = Some type ->
  eventStream (exec ops (init names)) = Some st ->
  let s := exec ops (init names) in
  trace (puppetEmit name payload s) =
  trace s ++ [stream_write st (mkEventResponse type payload 0)].
Proof.
  intros Hnd Hin Hty He s.
  destruct (exec_steady names ops _ (init_steady names))
    as (_ & _ & _ & H4 & _).
  fold s in He, H4. rewrite He in H4. destruct H4 as [k Hk].
  unfold puppetEmit.
  destruct (implListeners_eq name payload s)
    as (sp & rp & rt & tm & n & -> & _). cbn [listeners].
  rewrite Hk. destruct (registered_one names k name type Hnd Hin Hty) as [k' ->].
  cbn [fold_left ltype]. rewrite grpcEmit_eq. cbn. by rewrite He.
Qed.

Lemma puppet_event_written_once_witness :
  let s := exec [op_event 7; op_stop; op_event 8] (init ["message"; "reset"]) in
  trace (puppetEmit "message" (dataPayload "m") s) =
  trace s ++ [stream_write 8 (mkEventResponse EVENT_TYPE_MESSAGE (dataPayload "m") 0)].
Proof.
  apply (puppet_event_written_once ["message"; "reset"]
           [op_event 7; op_stop; op_event 8] "message" EVENT_TYPE_MESSAGE
           (dataPayload "m") 8).
  - apply NoDup_cons. split; [|apply NoDup_singleton].
    intros H%list_elem_of_singleton. discriminate.
  - left.
  - reflexivity.
  - vm_compute. reflexivity.
Defined.

(** X3.  An event of the puppet whose name the [switch] does not forward
    ([reset], and any name that falls into its [default] branch) is never
    written to a stream. *)
Theorem unforwarded_event_not_written (names : list string) (ops : list Op)
    (name : string) (payload : Payload) :
  eventTypeOfName name = None ->
  let s := exec ops (init names) in
  trace (puppetEmit name payload s) = trace s.
Proof.
  intros Hty s.
  destruct (exec_steady names ops _ (init_steady names))
    as (_ & _ & _ & H4 & _).
  fold s in H4. unfold puppetEmit.
  destruct (implListeners_eq name payload s)
    as (sp & rp & rt & tm & n & -> & _). cbn [listeners].
  assert (filter (fun l => lname l = name) (listeners s) = []) as ->; [|done].
  apply filter_none. intros l Hl Hn.
  destruct (eventStream s).
  - destruct H4 as [k Hk]. rewrite Hk in Hl.
    apply registered_known in Hl as [_ Hl]. congruence.
  - rewrite H4 in Hl. by apply elem_of_nil in Hl.
Qed.

Lemma unforwarded_event_not_written_witness :
  let s := exec [op_event 7] (init ["message"; "reset"]) in
  trace (puppetEmit "reset" (dataPayload "r") s) = trace s.
Proof.
  apply (unforwarded_event_not_written ["message"; "reset"] [op_event 7]
           "reset" (dataPayload "r")).
  reflexivity.
Defined.

(** X4.  The server never numbers an envelope: [grpcEmit] builds the
    response with [setType] and [setPayload] only, so everything that is
    ever written to a stream has the sequence number 0. *)
Theorem server_never_numbers (names : list string) (ops : list Op) (st : Stream) :
  Forall (fun response => getSeq response = 0%Z)
    (written st (exec ops (init names))).
Proof.
  destruct (exec_steady names ops _ (init_steady names))
    as (_ & _ & _ & _ & _ & H6).
  unfold written. induction H6 as [|e tr He _ IH]; [constructor|].
  cbn. destruct e as [st' r| | | |]; try done.
  destruct (decide (st' = st)); [by constructor|done].
Qed.

(** *** A manager with no stream attached *)

Lemma onTeardown_detached sig s :
  eventStream s = None ->
  eventStream (onTeardown sig s) = None /\
  exists ls, trace (onTeardown sig s) = trace s ++ map puppet_off ls.
Proof.
  intros He. unfold onTeardown. destruct (puppetListening s).
  - rewrite removePuppetListeners_eq. cbn. rewrite He. cbn.
    split; [done|]. by eexists.
  - rewrite He. split; [done|]. exists []. by rewrite app_nil_r.
Qed.

Lemma streamSignal_detached st sig s :
  eventStream s = None ->
  eventStream (streamSignal st sig s) = None /\
  exists ls, trace (streamSignal st sig s) = trace s ++ map puppet_off ls.
Proof.
  unfold streamSignal. generalize (filter (fun st' => st' = st) (streamHandlers s)).
  intros l. revert s. induction l as [|x l IH]; intros s He.
  - split; [done|]. exists []. by rewrite app_nil_r.
  - cbn. destruct (onTeardown_detached sig s He) as (He1 & ls1 & Ht1).
    destruct (IH _ He1) as (He2 & ls2 & Ht2).
    split; [done|]. exists (ls1 ++ ls2).
    by rewrite Ht2, Ht1, map_app, app_assoc.
Qed.

Lemma puppetEmit_detached name payload s :
  eventStream s = None ->
  puppetEmit name payload s = implListeners name payload s.
Proof.
  intros He. unfold puppetEmit. apply fold_grpcEmit_detached.
  destruct (implListeners_eq name payload s)
    as (sp & rp & rt & tm & n & -> & _). done.
Qed.

Lemma fireTimer_detached id s :
  eventStream s = None ->
  eventStream (fireTimer id s) = None /\ trace (fireTimer id s) = trace s.
Proof.
  intros He. unfold fireTimer. destruct (find _ _) as [t|]; [|done].
  assert (eventStream (clearTimeout id s) = None) as Hc by (by destruct s).
  assert (trace (clearTimeout id s) = trace s) as Ht by (by destruct s).
  unfold runTimer. destruct (action t).
  - by rewrite grpcEmit_detached.
  - destruct (readyPayload _); [by rewrite grpcEmit_detached|done].
Qed.

Lemma step_detached op s :
  eventStream s = None -> (forall c, op <> op_event c) ->
  eventStream (step op s) = None /\
  forall st, written st (step op s) = written st s.
Proof.
  intros He Hop. destruct op as [c| |st' sig|name payload|li id rd|id]; cbn.
  - by destruct (Hop c).
  - unfold stop. by rewrite He.
  - destruct (streamSignal_detached st' sig s He) as (He' & ls & Ht).
    split; [done|]. intros st.
    by rewrite (written_app st s _ _ Ht), written_puppet_off, app_nil_r.
  - rewrite puppetEmit_detached by done.
    destruct (implListeners_eq name payload s)
      as (sp & rp & rt & tm & n & -> & _). done.
  - by destruct s.
  - destruct (fireTimer_detached id s He) as [He' Ht].
    split; [done|]. intros st. unfold written. by rewrite Ht.
Qed.

(** X5.  With no stream attached nothing is written anywhere: events of
    the puppet, timers that fire (the delayed [ready] of an earlier
    connection among them), teardown signals of earlier streams and calls
    of [stop()] leave every stream as it is, until the [event] handler is
    called again. *)
Theorem detached_writes_nothing (s : State) (ops : list Op) :
  eventStream s = None ->
  Forall (fun op => forall c, op <> op_event c) ops ->
  eventStream (exec ops s) = None /\
  forall st, written st (exec ops s) = written st s.
Proof.
  intros He Hops. revert s He.
  induction Hops as [|op ops Hop _ IH]; intros s He; [done|].
  cbn. destruct (step_detached op s He Hop) as [He' Hw].
  destruct (IH _ He') as [He'' Hw'].
  split; [done|]. intros st. by rewrite Hw', Hw.
Qed.

Lemma detached_writes_nothing_witness :
  let s := exec [op_puppet_state true "A1" true; op_event 7; op_stop]
             (init ["message"]) in
  written 7
    (exec [op_puppet_emit "message" (dataPayload "m"); op_timer 1;
           op_signal 7 sig_close; op_stop] s)
  = written 7 s.
Proof.
  intros s.
  refine (proj2 (detached_writes_nothing s _ _ _) 7).
  - vm_compute. reflexivity.
  - repeat constructor; discriminate.
Defined.

(** X6.  A scan code that the puppet emitted while no client was attached
    is kept and handed to the next client: the [event] handler writes it
    right behind the heartbeat (and the login envelope, if the puppet is
    logged in).  Once the puppet has emitted [login], the code is dropped
    and the next client gets the greeting alone. *)
Theorem scan_replayed_until_login (s : State) (st : Stream)
    (scan payload : Payload) :
  eventStream s = None ->
  let greeting :=
    heartbeat :: if isLoggedIn s then [login (currentUserId s)] else [] in
  (exists s', event st (puppetEmit "scan" scan s) = Ok s' /\
     written st s' =
     written st s ++ greeting ++ [mkEventResponse EVENT_TYPE_SCAN scan 0]) /\
  (exists s', event st (puppetEmit "login" payload (puppetEmit "scan" scan s))
              = Ok s' /\
     written st s' = written st s ++ greeting).
Proof.
  intros He greeting.
  assert (forall s1 : State,
            eventStream s1 = None -> trace s1 = trace s ->
            isLoggedIn s1 = isLoggedIn s -> currentUserId s1 = currentUserId s ->
            exists s', event st s1 = Ok s' /\
              written st s' =
              written st s ++ greeting ++
              match scanPayload s1 with
              | Some p => [mkEventResponse EVENT_TYPE_SCAN p 0]
              | None => []
              end) as Hevent.
  { intros s1 He1 Ht1 Hl1 Hu1. unfold event, busy. rewrite He1.
    rewrite (start_eq _ _ He1). cbv zeta. cbn [scanPayload].
    destruct (scanPayload s1) as [p|]; (eexists; split; [reflexivity|]).
    - rewrite grpcEmit_eq. cbn -[reverse written].
      erewrite (written_app st s); [|cbn -[reverse]; rewrite Ht1, <- !app_assoc; reflexivity].
      f_equal. rewrite !omap_app, written_puppet_off, written_puppet_on.
      rewrite Hl1, Hu1. unfold greeting. cbn.
      rewrite decide_True by done. destruct (isLoggedIn s); cbn;
        by rewrite !decide_True by done.
    - erewrite (written_app st s); [|cbn -[reverse]; rewrite Ht1; reflexivity].
      f_equal. rewrite !omap_app, written_puppet_off, written_puppet_on.
      rewrite Hl1, Hu1, app_nil_r. unfold greeting. cbn.
      rewrite decide_True by done. destruct (isLoggedIn s); cbn;
        by rewrite ?decide_True by done. }
  assert (exists s1, puppetEmit "scan" scan s = s1 /\
            eventStream s1 = None /\ trace s1 = trace s /\
            isLoggedIn s1 = isLoggedIn s /\ currentUserId s1 = currentUserId s /\
            scanPayload s1 = Some scan) as (s1 & Hs1 & He1 & Ht1 & Hl1 & Hu1 & Hp1).
  { eexists. split; [reflexivity|]. rewrite puppetEmit_detached by done.
    by destruct s. }
  split.
  - rewrite Hs1. destruct (Hevent s1 He1 Ht1 Hl1 Hu1) as (s' & Hs' & Hw).
    exists s'. split; [done|]. by rewrite Hw, Hp1.
  - rewrite Hs1.
    assert (exists s2, puppetEmit "login" payload s1 = s2 /\
              eventStream s2 = None /\ trace s2 = trace s /\
              isLoggedIn s2 = isLoggedIn s /\ currentUserId s2 = currentUserId s /\
              scanPayload s2 = None) as (s2 & Hs2 & He2 & Ht2 & Hl2 & Hu2 & Hp2).
    { eexists. split; [reflexivity|]. rewrite puppetEmit_detached by done.
      destruct s1. cbn in *. by subst. }
    rewrite Hs2. destruct (Hevent s2 He2 Ht2 Hl2 Hu2) as (s' & Hs' & Hw).
    exists s'. split; [done|]. by rewrite Hw, Hp2, app_nil_r.
Qed.

Lemma scan_replayed_until_login_witness :
  let s := init ["scan"; "login"] in
  let qr := dataPayload "qrcode" in
  (exists s', event 7 (puppetEmit "scan" qr s) = Ok s' /\
     written 7 s' = [heartbeat; mkEventResponse EVENT_TYPE_SCAN qr 0]) /\
  (exists s', event 7 (puppetEmit "login" (loginPayload "A1")
                         (puppetEmit "scan" qr s)) = Ok s' /\
     written 7 s' = [heartbeat]).
Proof.
  intros s qr.
  exact (scan_replayed_until_login s 7 qr (loginPayload "A1") eq_refl).
Defined.

(** *** The timers of [puppetImplementation] *)

Lemma find_fresh_timer (tm : list Timer) (t : Timer) (id : nat) :
  tid t = id -> (forall t', t' ∈ tm -> tid t' < id) ->
  find (fun t' => bool_decide (tid t' = id)) (tm ++ [t]) = Some t.
Proof.
  intros <-. induction tm as [|t' tm IH]; intros Hlt; cbn.
  - by rewrite bool_decide_true.
  - rewrite bool_decide_false.
    + apply IH. intros t'' H. apply Hlt. by right.
    + specialize (Hlt t' ltac:(left)). lia.
Qed.

Lemma fold_grpcEmit_fields payload (ls : list Listener) s :
  let s' := fold_left (fun s l => grpcEmit (ltype l) payload s) ls s in
  eventStream s' = eventStream s /\ readyPayload s' = readyPayload s /\
  timers s' = timers s.
Proof.
  revert s. induction ls as [|l ls IH]; intros s; [done|].
  cbn. destruct (IH (grpcEmit (ltype l) payload s)) as (-> & -> & ->).
  by rewrite grpcEmit_eq.
Qed.

(** X7.  The [login] listener of [puppetImplementation] arms a timer of
    five seconds; when it fires while the client is still attached, the
    ready payload that the puppet emitted last is written to the stream as
    a [ready] envelope. *)
Theorem login_replays_ready (names : list string) (ops : list Op)
    (st : Stream) (ready payload : Payload) :
  eventStream (exec ops (init names)) = Some st ->
  readyPayload (exec ops (init names)) = Some ready ->
  let s := exec ops (init names) in
  let s1 := puppetEmit "login" payload s in
  (exists t, t ∈ timers s1 /\ tid t = nextId s /\ delay t = 5000%Z) /\
  trace (fireTimer (nextId s) s1) =
  trace s1 ++ [stream_write st (mkEventResponse EVENT_TYPE_READY ready 0)].
Proof.
  intros He Hr s s1.
  destruct (exec_steady names ops _ (init_steady names))
    as (_ & _ & _ & _ & H5 & _).
  fold s in He, Hr, H5.
  set (s0 := implListeners "login" payload s).
  assert (eventStream s0 = Some st /\ readyPayload s0 = Some ready /\
          timers s0 = timers s ++ [mkTimer (nextId s) (5 * 1000) EmitReadyPayload])
    as (He0 & Hr0 & Ht0) by (by destruct s).
  destruct (fold_grpcEmit_fields payload
              (filter (fun l => lname l = "login") (listeners s0)) s0)
    as (He1 & Hr1 & Ht1).
  change (fold_left _ _ s0) with s1 in He1, Hr1, Ht1.
  rewrite He0 in He1. rewrite Hr0 in Hr1. rewrite Ht0 in Ht1.
  split.
  - exists (mkTimer (nextId s) (5 * 1000) EmitReadyPayload).
    split; [|done]. rewrite Ht1. apply elem_of_app. right. left.
  - unfold fireTimer. rewrite Ht1.
    rewrite (find_fresh_timer (timers s)
               (mkTimer (nextId s) (5 * 1000) EmitReadyPayload) (nextId s))
      by (done || exact H5).
    cbn [action runTimer].
    assert (readyPayload (clearTimeout (nextId s) s1) = Some ready) as ->
      by (by destruct s1).
    rewrite grpcEmit_eq. cbn.
    assert (eventStream (clearTimeout (nextId s) s1) = Some st) as ->
      by (by destruct s1).
    by destruct s1.
Qed.

Lemma login_replays_ready_witness :
  let s := exec [op_event 7; op_puppet_emit "ready" (dataPayload "ready")]
             (init ["login"]) in
  let s1 := puppetEmit "login" (loginPayload "A1") s in
  trace (fireTimer (nextId s) s1) =
  trace s1 ++
  [stream_write 7 (mkEventResponse EVENT_TYPE_READY (dataPayload "ready") 0)].
Proof.
  refine (proj2 (login_replays_ready ["login"]
                   [op_event 7; op_puppet_emit "ready" (dataPayload "ready")]
                   7 (dataPayload "ready") (loginPayload "A1") _ _));
    vm_compute; reflexivity.
Defined.


(** *** Signals of a stream that was attached earlier *)

(** X9.  The five teardown handlers do not look at the stream they were
    installed on.  A signal of a stream that was attached earlier (its
    [finish] or [close] after [stop()] ended it, say) takes the listeners
    off the puppet and clears the handle of the stream that is attached
    now, without ending that stream. *)
Theorem late_signal_detaches_current (names : list string) (ops : list Op)
    (old current : Stream) (sig : Signal) :
  eventStream (exec ops (init names)) = Some current ->
  old ∈ streamHandlers (exec ops (init names)) ->
  let s := exec ops (init names) in
  let s' := streamSignal old sig s in
  eventStream s' = None /\ listeners s' = [] /\ ended s' = ended s.
Proof.
  intros He Hin s s'.
  destruct (exec_steady names ops _ (init_steady names))
    as (_ & H2 & H3 & _).
  fold s in He, Hin, H2, H3.
  assert (puppetListening s = true) as Hp.
  { destruct (puppetListening s); [done|].
    destruct (H3 eq_refl). congruence. }
  unfold s'. rewrite (streamSignal_attached _ _ _ _ He Hp Hin).
  rewrite removePuppetListeners_eq. cbn -[reverse]. split; [done|]. split.
  - apply filter_none. intros l Hl Hn. apply Hn. by rewrite H2.
  - unfold ended. cbn -[reverse]. rewrite omap_app.
    assert (omap (fun e => match e with stream_end st => Some st | _ => None end)
              (map puppet_off (reverse (offCallbackList s))) = []) as ->
      by (by induction (reverse (offCallbackList s))).
    by rewrite app_nil_r.
Qed.

Lemma late_signal_detaches_current_witness :
  let s := exec [op_event 1; op_stop; op_event 2] (init ["message"]) in
  eventStream s = Some 2 /\
  eventStream (streamSignal 1 sig_close s) = None /\
  ended (streamSignal 1 sig_close s) = [1].
Proof.
  intros s. split; [vm_compute; reflexivity|].
  destruct (late_signal_detaches_current ["message"]
              [op_event 1; op_stop; op_event 2] 1 2 sig_close)
    as (H1 & _ & H3).
  - vm_compute. reflexivity.
  - vm_compute. left.
  - split; [exact H1|]. fold s in H3. rewrite H3. vm_compute. reflexivity.
Defined.

(** *** The [stop] handler *)

(** X10.  The [stop] handler tests [busy()] before it calls
    [EventStreamManager.stop()], so it never fails for want of a stream:
    when the puppet stops, the handler answers without an error, whether a
    stream is attached or not; afterwards no stream is attached, the
    manager keeps no [off] closure and the ready payload is forgotten; and
    a second call changes nothing. *)
Theorem stop_handler_is_safe (s : State) :
  let s' := fst (stopHandler (Ok tt) s) in
  snd (stopHandler (Ok tt) s) = reply_ok /\
  eventStream s' = None /\
  (eventStream s = None -> trace s' = trace s) /\
  (forall st, eventStream s = Some st ->
     offCallbackList s' = [] /\ last (trace s') = Some (stream_end st)) /\
  readyPayload s' = None /\
  stopHandler (Ok tt) s' = (s', reply_ok).
Proof.
  cbv zeta. unfold stopHandler, busy.
  destruct (eventStream s) as [st|] eqn:He.
  - rewrite (stop_eq _ _ He). cbn -[reverse].
    split; [done|]. split; [done|]. split; [done|]. split; [|done].
    intros st' [= <-]. split; [done|]. by rewrite app_assoc, last_snoc.
  - destruct s; cbn in *. subst. repeat split; try done.
Qed.

End ServerLifeProps.

(* ===================================================================== *)
(** * More about the client side *)
(* ===================================================================== *)

Module ClientMoreProps.
Import Client ClientProps.

(** *** The store helpers, one after the other *)

Lemma storeData_fields data s :
  control (storeData data s) = control s /\
  trace (storeData data s) = trace s /\
  DISABLE_EVENT_CACHE (storeData data s) = DISABLE_EVENT_CACHE s.
Proof. unfold storeData. destruct s as [? ? ? ? ? ? ? ? [] ? ? ? ?]; done. Qed.

Lemma clearData_fields s :
  control (clearData s) = control s /\
  trace (clearData s) = trace s /\
  DISABLE_EVENT_CACHE (clearData s) = DISABLE_EVENT_CACHE s.
Proof. unfold clearData. destruct s as [? ? ? ? ? ? ? ? [] ? ? ? ?]; done. Qed.

Lemma set_then_get data s :
  advance (setMiscellaneousStoreData data;; getMiscellaneousStoreData) s =
  (storeData data s, Done (Ok (storedData (storeData data s)))).
Proof.
  rewrite advance_bind, setMiscellaneousStoreData_advance.
  apply getMiscellaneousStoreData_advance.
Qed.

Lemma reset_then_get s :
  advance (resetMiscellaneousStoreData;; getMiscellaneousStoreData) s =
  (clearData s, Done (Ok (storedData (clearData s)))).
Proof.
  rewrite advance_bind, resetMiscellaneousStoreData_advance.
  apply getMiscellaneousStoreData_advance.
Qed.

(** X11.  With the event cache enabled and the miscellaneous store in
    place, what [setMiscellaneousStoreData] stores is what
    [getMiscellaneousStoreData] reads back: a field that was given comes
    back as given, a field that was left [undefined] keeps the value it
    had.  The one exception is by design of the getter: [lastEventSeq] is
    answered as [undefined] when the stored [lastEventTimestamp] is more
    than [timeoutMilliseconds] old. *)
Theorem store_set_then_get (data : MiscellaneousStoreData) (s : PuppetService) :
  DISABLE_EVENT_CACHE s = false -> is_Some (miscellaneous s) ->
  let r := advance (setMiscellaneousStoreData data;;
                    getMiscellaneousStoreData) s in
  let given (field : MiscellaneousStoreData -> option string) (key : string) :=
    match field data with
    | Some v => Some v
    | None => lookupMisc key s
    end in
  exists got,
    snd r = Done (Ok got) /\
    accountId got = given accountId "accountId" /\
    lastEventTimestamp got = given lastEventTimestamp "lastEventTimestamp" /\
    lastEventSeq got =
      if stale (fst r) then None else given lastEventSeq "lastEventSeq".
Proof.
  intros Hd [m Hm]. cbv zeta. rewrite set_then_get. cbn [fst snd].
  eexists. split; [reflexivity|].
  unfold storedData. destruct (storeData_fields data s) as (_ & _ & ->).
  rewrite Hd. cbn [accountId lastEventTimestamp lastEventSeq].
  assert (forall key, key ∈ ["accountId"; "lastEventTimestamp"; "lastEventSeq"] ->
            lookupMisc key (storeData data s) =
            match (if decide (key = "accountId") then accountId data
                   else if decide (key = "lastEventTimestamp")
                        then lastEventTimestamp data
                        else lastEventSeq data) with
            | Some v => Some v
            | None => lookupMisc key s
            end) as Hlook.
  { intros key Hkey. unfold storeData, lookupMisc, setField. rewrite Hd.
    destruct s as [mgr tm wl wr ri misc li rd dis clock res nf tr].
    cbn in Hm |- *. subst misc.
    destruct data as [[q|] [t|] [a|]]; cbn;
      repeat (apply elem_of_cons in Hkey as [->|Hkey]; [by simplify_map_eq|]);
      by apply elem_of_nil in Hkey. }
  rewrite !Hlook by (repeat constructor). cbn.
  by repeat split.
Qed.

Lemma store_set_then_get_witness :
  snd (advance (setMiscellaneousStoreData
                  (mkMisc (Some "7") (Some "1900") None);;
                getMiscellaneousStoreData) (seen5 2000))
  = Done (Ok (mkMisc (Some "7") (Some "1900") None)).
Proof.
  destruct (store_set_then_get (mkMisc (Some "7") (Some "1900") None) (seen5 2000))
    as (got & Hgot & Ha & Ht & Hs); [reflexivity|by eexists|].
  rewrite Hgot. do 2 f_equal. destruct got as [q t a].
  cbn in Ha, Ht, Hs. subst. reflexivity.
Defined.

(** *** The handler in closed form *)

Lemma perform_advance e s : advance (perform e) s = (effect e s, Done (Ok tt)).
Proof. reflexivity. Qed.

Lemma switchType_logout_advance payload s :
  advance (switchType EVENT_TYPE_LOGOUT payload) s =
  (effect (call_logout (data payload)) (clearData s), Done (Ok tt)).
Proof.
  unfold switchType, gets. cbn [mbind Async_bind bind advance mret Async_ret].
  change (bind ?m ?f) with (m ≫= f).
  rewrite advance_bind. unfold clearData.
  destruct (DISABLE_EVENT_CACHE s) eqn:Hd; cbn [negb].
  - reflexivity.
  - rewrite await_advance, resetMiscellaneousStoreData_advance.
    unfold clearData. by rewrite Hd.
Qed.

Lemma switchType_login_advance payload s :
  advance (switchType EVENT_TYPE_LOGIN payload) s =
  if waitingForLogin s && isLoggedIn s then (s, Done (Ok tt))
  else
    (effect (call_login (contactId payload))
       (if bool_decide (accountId (storedData s) ≠ contactId payload)
        then storeData (mkMisc None None (contactId payload)) (clearData s)
        else s),
     Done (Ok tt)).
Proof.
  unfold switchType, gets. cbn [mbind Async_bind bind advance mret Async_ret].
  destruct (waitingForLogin s && isLoggedIn s); [reflexivity|].
  cbn [mbind Async_bind bind advance mret Async_ret].
  change (bind ?m ?f) with (m ≫= f).
  rewrite advance_bind.
  destruct (DISABLE_EVENT_CACHE s) eqn:Hd; cbn [negb].
  - cbn [advance mret Async_ret]. rewrite perform_advance.
    destruct (bool_decide _); [|done].
    unfold storeData, clearData.
    destruct s as [? ? ? ? ? ? ? ? dis ? ? ? ?]. cbn in Hd. by subst dis.
  - rewrite advance_bind, await_advance, getMiscellaneousStoreData_advance.
    case_bool_decide as Hacc.
    + rewrite advance_bind, await_advance, resetMiscellaneousStoreData_advance.
      rewrite await_advance, setMiscellaneousStoreData_advance.
      by rewrite perform_advance.
    + cbn [advance mret Async_ret]. by rewrite perform_advance.
Qed.

(** The handler up to its [switch]: the heartbeat that stands for the
    envelope, then the watermark. *)
Lemma handler_complete event s :
  let s1 := if bool_decide (getType event ≠ EVENT_TYPE_HEARTBEAT)
            then effect (emit "heartbeat" (receivedHeartbeat (getType event))) s
            else s in
  let s2 := if overwrites (getSeq event) s1
            then storeData (mkMisc (Some (toString (getSeq event)))
                              (Some (toString (now s))) None) s1
            else s1 in
  complete (onGrpcStreamEvent event) s =
  complete (switchType (getType event) (getPayload event)) s2.
Proof.
  unfold complete. rewrite onGrpcStreamEvent_advance, advance_bind.
  by rewrite updateWatermark_advance.
Qed.

Lemma watermark_fields (seq : Z) (data : MiscellaneousStoreData) s :
  let s2 := if overwrites seq s then storeData data s else s in
  control s2 = control s /\ trace s2 = trace s /\
  DISABLE_EVENT_CACHE s2 = DISABLE_EVENT_CACHE s.
Proof.
  cbv zeta. destruct (overwrites seq s); [|done]. apply storeData_fields.
Qed.

(** X12.  With the event cache disabled, or before the miscellaneous store
    exists, the handler persists nothing, whatever envelope it is given:
    the store is left as it is. *)
Theorem handler_without_store (event : EventResponse) (s : PuppetService) :
  DISABLE_EVENT_CACHE s = true \/ miscellaneous s = None ->
  miscellaneous (complete (onGrpcStreamEvent event) s) = miscellaneous s.
Proof.
  intros Hoff. rewrite handler_complete. cbv zeta.
  set (s1 := if bool_decide _ then _ else s).
  assert ((DISABLE_EVENT_CACHE s1 = true \/ miscellaneous s1 = None) /\
          miscellaneous s1 = miscellaneous s) as [Hoff1 Hm1].
  { unfold s1. destruct (bool_decide _); [|done]. by destruct s. }
  assert (forall data s, DISABLE_EVENT_CACHE s = true \/ miscellaneous s = None ->
            miscellaneous (storeData data s) = miscellaneous s) as Hstore.
  { intros [[q|] [t|] [a|]] s0 [Hd|Hm]; unfold storeData, setField;
      destruct s0 as [? ? ? ? ? misc ? ? dis ? ? ? ?]; cbn in *; subst;
      try destruct dis; done. }
  assert (forall s, DISABLE_EVENT_CACHE s = true \/ miscellaneous s = None ->
            miscellaneous (clearData s) = miscellaneous s) as Hclear.
  { intros s0 [Hd|Hm]; unfold clearData;
      destruct s0 as [? ? ? ? ? misc ? ? dis ? ? ? ?]; cbn in *; subst;
      try destruct dis; done. }
  set (s2 := if overwrites _ s1 then _ else s1).
  assert ((DISABLE_EVENT_CACHE s2 = true \/ miscellaneous s2 = None) /\
          miscellaneous s2 = miscellaneous s) as [Hoff2 Hm2].
  { unfold s2. destruct (overwrites _ s1); [|done].
    rewrite Hstore by done. split; [|done].
    destruct (storeData_fields
                (mkMisc (Some (toString (getSeq event)))
                   (Some (toString (now s))) None) s1) as (_ & _ & ->).
    destruct Hoff1 as [?|Hn]; [by left|by right]. }
  rewrite <- Hm2. clearbody s2. clear s1 Hoff1 Hm1 Hm2.
  unfold complete.
  destruct (decide (getType event = EVENT_TYPE_LOGIN)) as [Hin|Hin].
  - rewrite Hin, switchType_login_advance.
    destruct (_ && _); [done|]. cbn [fst].
    case_bool_decide.
    + assert (miscellaneous (clearData s2) = miscellaneous s2) as Hc
        by (by apply Hclear).
      transitivity (miscellaneous (storeData (mkMisc None None
                                     (contactId (getPayload event)))
                                     (clearData s2))); [by destruct (storeData _ _)|].
      rewrite Hstore; [done|].
      destruct (clearData_fields s2) as (_ & _ & ->).
      destruct Hoff2 as [?|Hn]; [by left|right]. by rewrite Hc.
    + by destruct s2.
  - destruct (decide (getType event = EVENT_TYPE_LOGOUT)) as [Hout|Hout].
    + rewrite Hout, switchType_logout_advance. cbn [fst].
      transitivity (miscellaneous (clearData s2)); [by destruct (clearData _)|].
      by apply Hclear.
    + destruct (Runs_advance effects_step returns _ s2
                  (switchType_effects _ (getPayload event) Hin Hout))
        as [(_ & Hm & _) _].
      done.
Qed.

Lemma handler_without_store_witness :
  let s := constructor None true 1000 in
  miscellaneous
    (complete (onGrpcStreamEvent
                 (mkEventResponse EVENT_TYPE_LOGIN (loginPayload "A1") 5)) s)
  = miscellaneous s.
Proof.
  apply (handler_without_store
           (mkEventResponse EVENT_TYPE_LOGIN (loginPayload "A1") 5)
           (constructor None true 1000)).
  by left.
Defined.

(** *** Login and logout envelopes *)

Lemma heartbeat_fields (type : EventType) s :
  let s1 := if bool_decide (type ≠ EVENT_TYPE_HEARTBEAT)
            then effect (emit "heartbeat" (receivedHeartbeat type)) s
            else s in
  control s1 = control s /\ miscellaneous s1 = miscellaneous s /\
  trace s1 = trace s ++ if bool_decide (type ≠ EVENT_TYPE_HEARTBEAT)
                        then [emit "heartbeat" (receivedHeartbeat type)]
                        else [].
Proof.
  cbv zeta. destruct (bool_decide _); [by destruct s|].
  by rewrite app_nil_r.
Qed.

Lemma lookupMisc_control key s s' :
  miscellaneous s' = miscellaneous s -> lookupMisc key s' = lookupMisc key s.
Proof. unfold lookupMisc. by intros ->. Qed.

Lemma watermark_keeps_account (seq : Z) (q t : option string) s :
  let s2 := if overwrites seq s then storeData (mkMisc q t None) s else s in
  lookupMisc "accountId" s2 = lookupMisc "accountId" s.
Proof.
  cbv zeta. destruct (overwrites seq s); [|done].
  unfold storeData, lookupMisc, setField.
  destruct s as [? ? ? ? ? [m|] ? ? [] ? ? ? ?], q, t; cbn; try done;
    by simplify_map_eq.
Qed.

Lemma storeData_misc data s :
  DISABLE_EVENT_CACHE s = false ->
  miscellaneous (storeData data s) =
  setField "accountId" (accountId data)
    (setField "lastEventTimestamp" (lastEventTimestamp data)
       (setField "lastEventSeq" (lastEventSeq data) (miscellaneous s))).
Proof. intros Hd. unfold storeData. rewrite Hd. by destruct s. Qed.

Lemma clearData_misc s :
  DISABLE_EVENT_CACHE s = false ->
  miscellaneous (clearData s) =
  delete "accountId" <$>
    (delete "lastEventTimestamp" <$> (delete "lastEventSeq" <$> miscellaneous s)).
Proof. intros Hd. unfold clearData. rewrite Hd. by destruct s. Qed.

(** X13.  A login envelope that is not swallowed by a reconnect, with the
    event cache enabled: the handler calls [this.login(contactId)] as its
    last action, and the store follows the account.  When the stored
    [accountId] differs from the [contactId] of the envelope, the watermark
    of the old account is deleted ([lastEventSeq] and [lastEventTimestamp],
    the number of this very envelope included) and the new [accountId] is
    stored; when it is the same, the account stays. *)
Theorem login_switches_account (event : EventResponse) (s : PuppetService) :
  getType event = EVENT_TYPE_LOGIN ->
  DISABLE_EVENT_CACHE s = false ->
  waitingForLogin s && isLoggedIn s = false ->
  let s' := complete (onGrpcStreamEvent event) s in
  let id := contactId (getPayload event) in
  trace s' = trace s ++ [emit "heartbeat" (receivedHeartbeat EVENT_TYPE_LOGIN);
                         call_login id] /\
  (lookupMisc "accountId" s <> id ->
     lookupMisc "lastEventSeq" s' = None /\
     lookupMisc "lastEventTimestamp" s' = None /\
     lookupMisc "accountId" s' = (miscellaneous s ≫= fun _ => id)) /\
  (lookupMisc "accountId" s = id -> lookupMisc "accountId" s' = id).
Proof.
  intros Hty Hd Hw s' id. unfold s'. rewrite handler_complete. cbv zeta.
  rewrite Hty, bool_decide_true by done.
  destruct (heartbeat_fields EVENT_TYPE_LOGIN s) as (Hc1 & Hm1 & Ht1).
  rewrite bool_decide_true in Hc1, Hm1, Ht1 by done.
  set (s1 := effect _ s) in *.
  set (mark := mkMisc _ _ None).
  destruct (watermark_fields (getSeq event) mark s1) as (Hc2 & Ht2 & Hd2).
  pose proof (watermark_keeps_account (getSeq event)
                (Some (toString (getSeq event))) (Some (toString (now s)))
                s1) as Ha2.
  cbv zeta in Hc2, Ht2, Hd2, Ha2. fold mark in Ha2.
  set (s2 := if overwrites _ s1 then _ else s1) in *.
  rewrite (lookupMisc_control _ _ _ Hm1) in Ha2.
  assert (DISABLE_EVENT_CACHE s2 = false) as Hdis.
  { rewrite Hd2. apply control_fields in Hc1. destruct Hc1 as (_&_&_&_&_&_&->&_).
    done. }
  assert (waitingForLogin s2 && isLoggedIn s2 = false) as Hw2.
  { apply control_fields in Hc1, Hc2.
    destruct Hc1 as (_&Hwl1&_&_&Hli1&_), Hc2 as (_&Hwl2&_&_&Hli2&_).
    by rewrite Hwl2, Hwl1, Hli2, Hli1. }
  assert (is_Some (miscellaneous s2) <-> is_Some (miscellaneous s)) as Hsome.
  { rewrite <- Hm1. unfold s2. destruct (overwrites _ s1); [|done].
    unfold storeData, mark, setField.
    destruct s1 as [? ? ? ? ? [m|] ? ? [] ? ? ? ?]; cbn;
      rewrite <- ?not_eq_None_Some; done. }
  unfold complete. rewrite switchType_login_advance, Hw2. cbn [fst].
  assert (accountId (storedData s2) = lookupMisc "accountId" s) as ->
    by (unfold storedData; by rewrite Hdis).
  fold id. split; [|split].
  - transitivity (trace s2 ++ [call_login id]).
    + destruct (bool_decide _).
      * destruct (storeData_fields (mkMisc None None id) (clearData s2))
          as (_ & Ht & _).
        destruct (clearData_fields s2) as (_ & Ht' & _).
        rewrite <- Ht', <- Ht. by destruct (storeData _ _).
      * by destruct s2.
    + by rewrite Ht2, Ht1, <- app_assoc.
  - intros Hne. rewrite bool_decide_true by done.
    assert (forall key,
              lookupMisc key (effect (call_login id)
                                (storeData (mkMisc None None id) (clearData s2)))
              = miscellaneous (storeData (mkMisc None None id) (clearData s2))
                  ≫= (.!! key)) as Hlook
      by (intros key; by destruct (storeData _ _)).
    rewrite !Hlook, storeData_misc, clearData_misc
      by (done || by destruct (clearData_fields s2) as (_ & _ & ->)).
    unfold setField. cbn [lastEventSeq lastEventTimestamp accountId].
    destruct (miscellaneous s) as [m0|].
    + destruct (proj2 Hsome ltac:(by eexists)) as [m2 ->]. cbn.
      destruct id; cbn; by simplify_map_eq.
    + destruct (miscellaneous s2) as [m2|]; [|by destruct id].
      destruct (proj1 Hsome ltac:(by eexists)) as [? [=]].
  - intros Heq. rewrite bool_decide_false by (by intros ?).
    transitivity (lookupMisc "accountId" s2); [by destruct s2|].
    by rewrite Ha2.
Qed.

Lemma login_switches_account_witness :
  let s := set_miscellaneous (Some {["accountId" := "A1"]}) (seen5 2000) in
  let s' := complete (onGrpcStreamEvent
                        (mkEventResponse EVENT_TYPE_LOGIN (loginPayload "B") 9)) s in
  lookupMisc "lastEventSeq" s' = None /\ lookupMisc "accountId" s' = Some "B".
Proof.
  intros s s'.
  destruct (login_switches_account
              (mkEventResponse EVENT_TYPE_LOGIN (loginPayload "B") 9) s)
    as (_ & H & _); [reflexivity|reflexivity|reflexivity|].
  destruct H as (H1 & _ & H3); [vm_compute; congruence|].
  split; [exact H1|exact H3].
Defined.

(** X14.  A logout envelope: the handler deletes the three keys of the
    store (when the event cache is enabled) and then calls
    [this.logout(data)] with the [data] of the envelope. *)
Theorem logout_clears_store (event : EventResponse) (s : PuppetService) :
  getType event = EVENT_TYPE_LOGOUT ->
  let s' := complete (onGrpcStreamEvent event) s in
  trace s' = trace s ++ [emit "heartbeat" (receivedHeartbeat EVENT_TYPE_LOGOUT);
                         call_logout (data (getPayload event))] /\
  (DISABLE_EVENT_CACHE s = false ->
   Forall (fun key => lookupMisc key s' = None)
     ["lastEventSeq"; "lastEventTimestamp"; "accountId"]).
Proof.
  intros Hty s'. unfold s'. rewrite handler_complete. cbv zeta.
  rewrite Hty, bool_decide_true by done.
  destruct (heartbeat_fields EVENT_TYPE_LOGOUT s) as (Hc1 & Hm1 & Ht1).
  rewrite bool_decide_true in Hc1, Hm1, Ht1 by done.
  set (s1 := effect _ s) in *.
  set (mark := mkMisc _ _ None).
  destruct (watermark_fields (getSeq event) mark s1) as (Hc2 & Ht2 & Hd2).
  cbv zeta in Hc2, Ht2, Hd2.
  set (s2 := if overwrites _ s1 then _ else s1) in *.
  unfold complete. rewrite switchType_logout_advance. cbn [fst]. split.
  - destruct (clearData_fields s2) as (_ & Ht & _).
    transitivity (trace (clearData s2) ++ [call_logout (data (getPayload event))]);
      [by destruct (clearData s2)|].
    by rewrite Ht, Ht2, Ht1, <- app_assoc.
  - intros Hd.
    assert (DISABLE_EVENT_CACHE s2 = false) as Hdis.
    { rewrite Hd2. apply control_fields in Hc1.
      destruct Hc1 as (_&_&_&_&_&_&->&_). done. }
    assert (forall key,
              lookupMisc key (effect (call_logout (data (getPayload event)))
                                (clearData s2))
              = miscellaneous (clearData s2) ≫= (.!! key)) as Hlook
      by (intros key; by destruct (clearData _)).
    repeat constructor; rewrite Hlook, clearData_misc by done;
      destruct (miscellaneous s2); cbn; by simplify_map_eq.
Qed.

Lemma logout_clears_store_witness :
  let s' := complete (onGrpcStreamEvent
                        (mkEventResponse EVENT_TYPE_LOGOUT (dataPayload "bye") 6))
              (seen5 2000) in
  lookupMisc "lastEventSeq" s' = None /\
  last (trace s') = Some (call_logout (Some "bye")).
Proof.
  intros s'.
  destruct (logout_clears_store
              (mkEventResponse EVENT_TYPE_LOGOUT (dataPayload "bye") 6)
              (seen5 2000) eq_refl) as (Ht & Hk).
  split.
  - apply (Forall_inv (Hk eq_refl)).
  - fold s' in Ht. rewrite Ht. reflexivity.
Defined.

(** *** What the [switch] passes on *)

(** The handler on an envelope whose [switch] branch neither waits nor
    touches the store: the heartbeat, then what the branch emits. *)
Lemma handler_trace event s :
  getType event <> EVENT_TYPE_LOGIN -> getType event <> EVENT_TYPE_LOGOUT ->
  exists s2,
    control s2 = control s /\
    trace s2 = trace s ++
      (if bool_decide (getType event ≠ EVENT_TYPE_HEARTBEAT)
       then [emit "heartbeat" (receivedHeartbeat (getType event))] else []) /\
    complete (onGrpcStreamEvent event) s =
    complete (switchType (getType event) (getPayload event)) s2.
Proof.
  intros Hin Hout. rewrite handler_complete. cbv zeta.
  destruct (heartbeat_fields (getType event) s) as (Hc1 & Hm1 & Ht1).
  cbv zeta in Hc1, Hm1, Ht1.
  set (s1 := if bool_decide _ then _ else s) in *.
  set (mark := mkMisc _ _ None).
  destruct (watermark_fields (getSeq event) mark s1) as (Hc2 & Ht2 & Hd2).
  cbv zeta in Hc2, Ht2, Hd2.
  set (s2 := if overwrites _ s1 then _ else s1) in *.
  exists s2. split; [congruence|]. split; [congruence|done].
Qed.

Lemma dirty_trace payload s :
  exists mid,
    trace (complete (switchType EVENT_TYPE_DIRTY payload) s) =
    trace s ++ mid ++ [emit "dirty" payload] /\
    match payloadType payload with
    | Some DirtyContact | Some DirtyRoom | Some DirtyRoomMember
    | Some DirtyTag | Some DirtyTagGroup =>
        exists type, payloadType payload = Some type /\
                     mid = [cache_delete type (payloadId payload)]
    | Some DirtyFriendship | Some DirtyMessage | Some DirtyPost => mid = []
    | Some DirtyUnspecified | None =>
        exists error, mid = [emit "error" (dataPayload error)]
    end.
Proof.
  unfold complete, switchType, fastDirty.
  destruct s as [mgr tm wl wr ri misc li rd dis clock res nf tr].
  destruct (payloadType payload) as [[]|] eqn:Hp; cbn;
    first [ exists []; split; [reflexivity|done]
          | eexists [_]; split; [by rewrite <- app_assoc|eauto] ].
Qed.

(** X15.  A dirty envelope is always passed on: the handler emits [dirty]
    with the payload as its last action, whatever [fastDirty] did before.
    For the payload types that have a cache, one entry of that cache is
    deleted; for friendship, message and post nothing is; for the type
    [Unspecified] and for a type that [dirtyMap] does not hold, the failure
    is emitted as an [error] event and the [dirty] event still follows. *)
Theorem dirty_always_forwarded (event : EventResponse) (s : PuppetService) :
  getType event = EVENT_TYPE_DIRTY ->
  let s' := complete (onGrpcStreamEvent event) s in
  let payload := getPayload event in
  exists mid,
    trace s' = trace s ++ emit "heartbeat" (receivedHeartbeat EVENT_TYPE_DIRTY)
                          :: mid ++ [emit "dirty" payload] /\
    match payloadType payload with
    | Some DirtyContact | Some DirtyRoom | Some DirtyRoomMember
    | Some DirtyTag | Some DirtyTagGroup =>
        exists type, payloadType payload = Some type /\
                     mid = [cache_delete type (payloadId payload)]
    | Some DirtyFriendship | Some DirtyMessage | Some DirtyPost => mid = []
    | Some DirtyUnspecified | None =>
        exists error, mid = [emit "error" (dataPayload error)]
    end.
Proof.
  intros Hty s' payload.
  destruct (handler_trace event s) as (s2 & _ & Ht2 & Hs2);
    [by rewrite Hty|by rewrite Hty|].
  unfold s'. subst payload. rewrite Hs2, Hty.
  destruct (dirty_trace (getPayload event) s2) as (mid & Ht & Hmid).
  exists mid. split; [|done].
  rewrite Ht, Ht2, Hty, bool_decide_true by done.
  by rewrite <- app_assoc.
Qed.

Lemma dirty_always_forwarded_witness :
  let payload := mkPayload None None (Some DirtyUnspecified) (Some "id1") "" in
  let s' := complete (onGrpcStreamEvent
                        (mkEventResponse EVENT_TYPE_DIRTY payload 0))
              (seen5 2000) in
  last (trace s') = Some (emit "dirty" payload).
Proof.
  intros payload s'.
  destruct (dirty_always_forwarded
              (mkEventResponse EVENT_TYPE_DIRTY payload 0) (seen5 2000) eq_refl)
    as (mid & Ht & _).
  fold s' in Ht. rewrite Ht.
  change (?a :: mid ++ ?l) with ((a :: mid) ++ l).
  by rewrite app_assoc, last_snoc.
Defined.

(** X16.  Three kinds of envelope are not passed on at all: for the type
    [EVENT_TYPE_RESET], the type [EVENT_TYPE_UNSPECIFIED] and a type code
    outside the enum the handler emits the heartbeat that stands for the
    envelope, and nothing else. *)
Theorem reset_envelope_not_passed_on (event : EventResponse) (s : PuppetService) :
  getType event = EVENT_TYPE_RESET \/
  getType event = EVENT_TYPE_UNSPECIFIED \/
  (exists code, getType event = EVENT_TYPE_UNKNOWN code) ->
  trace (complete (onGrpcStreamEvent event) s) =
  trace s ++ [emit "heartbeat" (receivedHeartbeat (getType event))].
Proof.
  intros Hty.
  assert (getType event <> EVENT_TYPE_LOGIN /\ getType event <> EVENT_TYPE_LOGOUT /\
          getType event <> EVENT_TYPE_HEARTBEAT /\
          switchType (getType event) (getPayload event) = mret tt)
    as (Hin & Hout & Hhb & Hsw).
  { destruct Hty as [->|[->|[code ->]]]; done. }
  destruct (handler_trace event s Hin Hout) as (s2 & _ & Ht2 & ->).
  rewrite Hsw. unfold complete. cbn. by rewrite Ht2, bool_decide_true.
Qed.

Lemma reset_envelope_not_passed_on_witness :
  trace (complete (onGrpcStreamEvent
                     (mkEventResponse EVENT_TYPE_RESET (dataPayload "reset") 0))
           (seen5 2000))
  = trace (seen5 2000) ++ [emit "heartbeat" (receivedHeartbeat EVENT_TYPE_RESET)].
Proof.
  apply (reset_envelope_not_passed_on
           (mkEventResponse EVENT_TYPE_RESET (dataPayload "reset") 0)
           (seen5 2000)).
  by left.
Defined.

(** *** From the puppet of the server to the listeners of the client *)

(** X17.  The two [switch] statements agree on the names.  Let the puppet
    of the server emit the event [name], one that
    [connectPuppetEventToStreamingCall] forwards, and let the client
    receive the envelope that the listener of the server writes for it.
    Then the last thing the handler of the client does is to emit an event
    of the same name with the same payload; for [login] and [logout] it
    calls [this.login] with the [contactId] and [this.logout] with the
    [data] of the payload instead.  (For [ready] and [login]: unless a
    reconnect is waiting for that very event.) *)
Theorem event_name_round_trip (name : string) (type : EventType)
    (payload : Payload) (s : PuppetService) :
  Server.eventTypeOfName name = Some type ->
  waitingForReady s && readyIndicator s = false ->
  waitingForLogin s && isLoggedIn s = false ->
  let envelope := mkEventResponse type payload 0 in
  last (trace (complete (onGrpcStreamEvent envelope) s)) =
  Some (if decide (name = "login") then call_login (contactId payload)
        else if decide (name = "logout") then call_logout (data payload)
        else emit name payload).
Proof.
  intros Hname Hwr Hwl envelope.
  destruct (decide (type = EVENT_TYPE_LOGIN)) as [->|Hin].
  { assert (name = "login") as ->
      by (unfold Server.eventTypeOfName in Hname;
          repeat case_decide; simplify_eq; done).
    rewrite decide_True by done.
    unfold complete. rewrite onGrpcStreamEvent_advance, advance_bind.
    rewrite updateWatermark_advance.
    unfold overwrites. rewrite bool_decide_false by (by intros []).
    cbn [andb getType getPayload getSeq envelope].
    rewrite bool_decide_true by done.
    rewrite switchType_login_advance.
    assert (waitingForLogin (effect (emit "heartbeat"
                               (receivedHeartbeat EVENT_TYPE_LOGIN)) s)
            && isLoggedIn (effect (emit "heartbeat"
                             (receivedHeartbeat EVENT_TYPE_LOGIN)) s) = false)
      as -> by (by destruct s).
    cbn [fst]. set (s2 := if bool_decide _ then _ else _).
    transitivity (last (trace s2 ++ [call_login (contactId payload)]));
      [by destruct s2|apply last_snoc]. }
  destruct (decide (type = EVENT_TYPE_LOGOUT)) as [->|Hout].
  { assert (name = "logout") as ->
      by (unfold Server.eventTypeOfName in Hname;
          repeat case_decide; simplify_eq; done).
    rewrite decide_False, decide_True by done.
    unfold complete. rewrite onGrpcStreamEvent_advance, advance_bind.
    rewrite updateWatermark_advance.
    unfold overwrites. rewrite bool_decide_false by (by intros []).
    cbn [andb getType getPayload getSeq envelope].
    rewrite switchType_logout_advance. cbn [fst].
    set (s2 := clearData _).
    transitivity (last (trace s2 ++ [call_logout (data payload)]));
      [by destruct s2|apply last_snoc]. }
  destruct (handler_trace envelope s Hin Hout) as (s2 & Hc2 & _ & ->).
  apply control_fields in Hc2 as (_ & _ & Hwr2 & _ & _ & Hrd2 & _).
  assert (waitingForReady s2 && readyIndicator s2 = false) as Hwr'
    by (by rewrite Hwr2, Hrd2).
  cbn [getType getPayload envelope].
  unfold Server.eventTypeOfName in Hname.
  repeat case_decide; simplify_eq;
    rewrite ?decide_False by done;
    try (unfold complete, switchType; destruct s2; cbn; apply last_snoc).
  - destruct (dirty_trace payload s2) as (mid & -> & _).
    by rewrite !app_assoc, last_snoc.
  - unfold complete, switchType, gets.
    cbn [mbind Async_bind bind advance mret Async_ret].
    rewrite Hwr'. cbn. destruct s2; cbn. apply last_snoc.
Qed.

Lemma event_name_round_trip_witness :
  last (trace (complete
                 (onGrpcStreamEvent
                    (mkEventResponse EVENT_TYPE_ROOM_INVITE (dataPayload "i") 0))
                 (seen5 2000)))
  = Some (emit "room-invite" (dataPayload "i")).
Proof.
  exact (event_name_round_trip "room-invite" EVENT_TYPE_ROOM_INVITE
           (dataPayload "i") (seen5 2000) eq_refl eq_refl eq_refl).
Defined.

End ClientMoreProps.

(* ===================================================================== *)
(** * More about [reset]: the reconnect that goes through *)
(* ===================================================================== *)

Module ClientLifeProps.
Import Client ClientLife ClientProps.

(** *** The handler manages no stream *)

Global Instance polite_step_preorder : PreOrder polite_step.
Proof.
  split.
  - intros s. split; [done|]. exists []. by rewrite app_nil_r.
  - intros s1 s2 s3 [H1 (l1 & Ht1 & Hl1)] [H2 (l2 & Ht2 & Hl2)].
    split; [congruence|]. exists (l1 ++ l2). split.
    + by rewrite Ht2, Ht1, app_assoc.
    + unfold streamCalls in *. by rewrite filter_app, Hl1, Hl2.
Qed.

Lemma store_step_polite s s' : store_step s s' -> polite_step s s'.
Proof.
  intros [H1 H2]. split; [done|]. exists []. by rewrite app_nil_r.
Qed.

Lemma store_runs_polite {A} (m : Async A) :
  Runs store_step returns m -> Runs polite_step returns m.
Proof. apply Runs_weaken; [apply store_step_polite|done]. Qed.

Lemma perform_polite e :
  managesStream e = false -> Runs polite_step returns (perform e).
Proof.
  intros He. apply Runs_modify. intros []. split; [done|]. cbn.
  exists [e]. split; [done|]. unfold streamCalls.
  by rewrite filter_cons_False by (by rewrite He).
Qed.

Lemma fastDirty_polite payload : Runs polite_step returns (fastDirty payload).
Proof.
  unfold fastDirty.
  apply Runs_try_catch with (Q1 := settles); [|done|].
  - eapply Runs_bind with (Q1 := settles).
    + destruct (payloadType payload) as [[]|];
        try (constructor; exact I);
        (eapply Runs_weaken; [| |apply perform_polite]; done).
    + intros. constructor. by constructor.
    + done.
  - intros. by apply perform_polite.
Qed.

Ltac polite :=
  repeat first
    [ progress intros
    | apply fastDirty_polite
    | apply perform_polite; reflexivity
    | apply store_runs_polite;
      first [ apply getMiscellaneousStoreData_runs
            | apply setMiscellaneousStoreData_runs
            | apply resetMiscellaneousStoreData_runs
            | apply updateWatermark_runs ]
    | apply Runs_ret
    | apply Runs_gets
    | apply Runs_await
    | apply Runs_seq
    | match goal with
      | |- Runs _ _ (if ?b then _ else _) => destruct b
      | |- Runs _ _ (match ?x with _ => _ end) => destruct x
      end ].

Lemma switchType_polite type payload :
  Runs polite_step returns (switchType type payload).
Proof. destruct type; unfold switchType; polite. Qed.

Lemma onGrpcStreamEvent_polite event :
  Runs polite_step returns (onGrpcStreamEvent event).
Proof.
  unfold onGrpcStreamEvent. polite. apply switchType_polite.
Qed.

(** *** One envelope, with the handler bridged in front *)

Lemma emitData_polite mgr ls event s :
  _grpcManager s = Some mgr ->
  dataListeners mgr = L_onGrpcStreamEvent :: ls ->
  L_onGrpcStreamEvent ∉ ls ->
  exists s1,
    polite_step s s1 /\
    polite_step (callResetListeners ls event s1) (emitData event s).
Proof.
  intros Hm Hl Hn. rewrite (emitData_bridged _ _ _ _ Hm Hl Hn).
  destruct (Runs_head _ _ _ s (onGrpcStreamEvent_polite event)) as [H1 Ht].
  destruct (head (onGrpcStreamEvent event) s) as [s1 t1]. cbn in H1, Ht.
  exists s1. split; [done|]. apply (Runs_advance _ _ _ _ Ht).
Qed.

(** An envelope that none of the listeners of [reset()] waits for. *)
Lemma emitData_idle mgr ls event s :
  _grpcManager s = Some mgr ->
  dataListeners mgr = L_onGrpcStreamEvent :: ls ->
  L_onGrpcStreamEvent ∉ ls ->
  (forall s, callResetListeners ls event s = s) ->
  polite_step s (emitData event s).
Proof.
  intros Hm Hl Hn Hidle.
  destruct (emitData_polite mgr ls event s Hm Hl Hn) as (s1 & H1 & H2).
  rewrite Hidle in H2. by etrans.
Qed.

Lemma listeners_idle acc f g event s :
  getType event <> EVENT_TYPE_LOGIN -> getType event <> EVENT_TYPE_READY ->
  callResetListeners [L_onLogin acc f; L_onReady g] event s = s.
Proof.
  intros Hl Hr. cbn. unfold onLogin, onReady.
  rewrite (bool_decide_false (getType event = EVENT_TYPE_LOGIN)) by done.
  rewrite (bool_decide_false (getType event = EVENT_TYPE_READY)) by done.
  by rewrite !andb_false_r.
Qed.

Lemma listeners_idle_ready g event s :
  getType event <> EVENT_TYPE_READY ->
  callResetListeners [L_onReady g] event s = s.
Proof.
  intros Hr. cbn. unfold onReady.
  rewrite (bool_decide_false (getType event = EVENT_TYPE_READY)) by done.
  by rewrite !andb_false_r.
Qed.

Lemma listeners_login acc f g event s :
  getType event = EVENT_TYPE_LOGIN -> waitingForLogin s = true ->
  truthy acc && bool_decide (contactId (getPayload event) ≠ acc) = false ->
  callResetListeners [L_onLogin acc f; L_onReady g] event s =
  resolve f (set_waitingForLogin false s).
Proof.
  intros Hty Hw Hacc. cbn. unfold onLogin, onReady.
  rewrite Hw, Hty. rewrite (bool_decide_true (_ = EVENT_TYPE_LOGIN)) by done.
  cbn [andb]. rewrite Hacc.
  rewrite (bool_decide_false (_ = EVENT_TYPE_READY)) by done.
  by rewrite andb_false_r.
Qed.

Lemma listeners_ready g event s :
  getType event = EVENT_TYPE_READY -> waitingForReady s = true ->
  callResetListeners [L_onReady g] event s =
  resolve g (set_waitingForReady false s).
Proof.
  intros Hty Hw. cbn. unfold onReady.
  by rewrite Hw, Hty, bool_decide_true by done.
Qed.

(** *** The two waits of [reset()] *)

Lemma login_wait_pending acc f (κ : bool -> Async unit) s :
  f ∉ resolved s ->
  advance (awaitLogin acc f ≫= κ) s = (s, awaitLogin acc f ≫= κ).
Proof.
  intros Hf. unfold awaitLogin, finally, wait, mbind, Async_bind.
  cbn [try_catch bind advance]. by rewrite bool_decide_false.
Qed.

Lemma login_wait_resolved acc f (κ : bool -> Async unit) s mgr :
  _grpcManager s = Some mgr -> f ∈ resolved s ->
  advance (awaitLogin acc f ≫= κ) s =
  advance (κ true)
    (set_grpcManager
       (Some (mkGrpcManager (streaming mgr)
                (filter (fun l => l ≠ L_onLogin acc f) (dataListeners mgr))))
       (set_reconnectIndicator false (set_waitingForLogin false s))).
Proof.
  intros Hm Hf. unfold awaitLogin, finally, wait, mbind, Async_bind.
  cbn [try_catch bind advance]. rewrite bool_decide_true by done.
  destruct s as [mgr' tm wl wr ri misc li rd dis clock res nf tr].
  cbn in Hm. subst mgr'. reflexivity.
Qed.

Lemma login_wait_timeout acc f (κ : bool -> Async unit) s mgr :
  _grpcManager s = Some mgr -> f ∉ resolved s ->
  feed in_timeout (awaitLogin acc f ≫= κ) s =
  advance (κ false)
    (effect call_super_reset
       (set_grpcManager
          (Some (mkGrpcManager (streaming mgr)
                   (filter (fun l => l ≠ L_onLogin acc f) (dataListeners mgr))))
          (set_reconnectIndicator false (set_waitingForLogin false s)))).
Proof.
  intros Hm Hf. unfold awaitLogin, finally, wait, mbind, Async_bind.
  cbn [try_catch bind feed]. rewrite bool_decide_false by done.
  unfold resume.
  destruct s as [mgr' tm wl wr ri misc li rd dis clock res nf tr].
  cbn in Hm. subst mgr'. reflexivity.
Qed.

Lemma ready_wait_pending g s :
  g ∉ resolved s -> advance (awaitReady g) s = (s, awaitReady g).
Proof.
  intros Hg. unfold awaitReady, finally, wait, mbind, Async_bind.
  cbn [try_catch bind advance]. by rewrite bool_decide_false.
Qed.

Lemma ready_wait_resolved g s mgr :
  _grpcManager s = Some mgr -> g ∈ resolved s ->
  advance (awaitReady g) s =
  (set_grpcManager
     (Some (mkGrpcManager (streaming mgr)
              (filter (fun l => l ≠ L_onReady g) (dataListeners mgr))))
     (set_waitingForReady false s),
   Done (Ok tt)).
Proof.
  intros Hm Hg. unfold awaitReady, finally, wait, mbind, Async_bind.
  cbn [try_catch bind advance]. rewrite bool_decide_true by done.
  destruct s as [mgr' tm wl wr ri misc li rd dis clock res nf tr].
  cbn in Hm. subst mgr'. reflexivity.
Qed.

Lemma ready_wait_timeout g s mgr :
  _grpcManager s = Some mgr -> g ∉ resolved s ->
  feed in_timeout (awaitReady g) s =
  (set_grpcManager
     (Some (mkGrpcManager (streaming mgr)
              (filter (fun l => l ≠ L_onReady g) (dataListeners mgr))))
     (set_waitingForReady false s),
   Done (Ok tt)).
Proof.
  intros Hm Hg. unfold awaitReady, finally, wait, mbind, Async_bind.
  cbn [try_catch bind feed]. rewrite bool_decide_false by done.
  unfold resume.
  destruct s as [mgr' tm wl wr ri misc li rd dis clock res nf tr].
  cbn in Hm. subst mgr'. reflexivity.
Qed.

(** *** From the call of [reset()] to its first wait *)

Lemma streamCalls_app (l1 l2 : list Effect) :
  streamCalls (l1 ++ l2) = streamCalls l1 ++ streamCalls l2.
Proof. apply filter_app. Qed.

Lemma polite_streamCalls s s' :
  polite_step s s' -> streamCalls (trace s') = streamCalls (trace s).
Proof.
  intros [_ (l & -> & Hl)]. by rewrite streamCalls_app, Hl, app_nil_r.
Qed.

Lemma replicate_snoc {A} (n : nat) (x : A) :
  replicate n x ++ [x] = x :: replicate n x.
Proof. induction n as [|n IH]; [done|]. cbn. by rewrite IH. Qed.

Lemma afterRetries_trace seq acc rs s :
  trace (afterRetries seq acc rs s) =
  trace s ++ replicate (length rs) (call_startStream seq acc).
Proof.
  revert s. induction rs as [|r rs IH]; intros s; cbn [afterRetries length].
  - by rewrite app_nil_r.
  - rewrite IH. destruct s; cbn. by rewrite <- app_assoc.
Qed.

Lemma afterRetries_control seq acc rs s :
  _grpcManager (afterRetries seq acc rs s) = _grpcManager s /\
  resolved (afterRetries seq acc rs s) = resolved s /\
  isLoggedIn (afterRetries seq acc rs s) = isLoggedIn s /\
  reconnectIndicator (afterRetries seq acc rs s) = reconnectIndicator s.
Proof.
  revert s. induction rs as [|r rs IH]; intros s; [done|].
  cbn [afterRetries].
  destruct (IH (attempted seq acc (retriedAt (now s) r) s)) as (-> & -> & -> & ->).
  by destruct s.
Qed.

(** With the stream re-established, [reset()] waits for the login event
    in this state. *)
Lemma reset_waits_for_login s rs dt inputs :
  fastPath s [] ->
  retried (now s) (timeoutMilliseconds s / 10) (now s) rs ->
  (0 <= dt < 30000)%Z ->
  let seq := lastEventSeq (storedData s) in
  let acc := accountId (storedData s) in
  let f := nextFuture s in
  exists s0,
    run reset (flat_map retryInputs rs ++ in_settle Resolved dt :: inputs) s =
    drive inputs
      (awaitLogin acc f ≫=
       (fun loggedIn : bool => if loggedIn then awaitReady (S f) else mret tt))
      s0 /\
    _grpcManager s0 =
      Some (mkGrpcManager true
              [L_onGrpcStreamEvent; L_onLogin acc f; L_onReady (S f)]) /\
    waitingForLogin s0 = true /\ waitingForReady s0 = true /\
    reconnectIndicator s0 = true /\ isLoggedIn s0 = true /\
    resolved s0 = resolved s /\
    trace s0 = trace s ++ call_stopStream ::
                 replicate (S (length rs)) (call_startStream seq acc).
Proof.
  intros ((mgr0 & Hm & Hb) & _ & Hl & Hr & Hfresh & _) Hrs Hdt seq acc f.
  rewrite (reset_reaches_login_wait _ _ _ _ _ Hm Hl Hr Hrs Hdt). cbv zeta.
  fold seq acc f.
  set (s1 := afterRetries seq acc rs (prepared s)).
  set (s2 := started seq acc (now s1 + dt) s1).
  destruct (started_fields seq acc (now s1 + dt) s1) as (Hsm & Hsr & Hsl & Hst).
  destruct (afterRetries_control seq acc rs (prepared s)) as (Ham & Har & Hal & Hai).
  pose proof (afterRetries_trace seq acc rs (prepared s)) as Hat.
  destruct (prepared_fields s) as (Hpm & _ & Hpr & Hpl & Hpt).
  assert (reconnectIndicator (prepared s) = true) as Hpi by (by destruct s).
  fold s1 in Ham, Har, Hal, Hai, Hat. fold s2 in Hsm, Hsr, Hsl, Hst.
  rewrite Ham, Hpm, Hm in Hsm. cbn in Hsm. rewrite Hb in Hsm. cbn in Hsm.
  fold acc f in Hsm.
  rewrite Har, Hpr in Hsr. rewrite Hal, Hpl, Hl in Hsl.
  rewrite Hat, Hpt in Hst.
  assert (reconnectIndicator s2 = true) as Hsi.
  { transitivity (reconnectIndicator s1); [by destruct s1|].
    by rewrite Hai. }
  exists (set_waitingForReady true (set_waitingForLogin true s2)).
  split.
  { unfold run, awaitLoginAndReady, modify, mbind, Async_bind.
    cbn [bind advance mret Async_ret].
    change (bind ?m ?k) with (m ≫= k).
    rewrite login_wait_pending; [done|].
    assert (resolved (set_waitingForReady true (set_waitingForLogin true s2))
            = resolved s2) as -> by (by destruct s2).
    by rewrite Hsr. }
  destruct s2 as [mgr' tm wl wr ri misc li rd dis clock res nf tr].
  cbn in *. subst. repeat split; try done.
  rewrite <- !app_assoc. cbn. do 2 f_equal.
  apply replicate_snoc.
Qed.

(** *** Envelopes that the wait lets pass *)

Lemma drive_idle mgr ls (t : Async unit) events rest s :
  _grpcManager s = Some mgr ->
  dataListeners mgr = L_onGrpcStreamEvent :: ls ->
  L_onGrpcStreamEvent ∉ ls ->
  Forall (fun event => forall s, callResetListeners ls event s = s) events ->
  (forall s', control s' = control s -> advance t s' = (s', t)) ->
  exists s',
    drive (map in_data events ++ rest) t s = drive rest t s' /\
    polite_step s s'.
Proof.
  intros Hm Hl Hn Hev. revert s Hm.
  induction Hev as [|event events Hidle _ IH]; intros s Hm Hstuck.
  - exists s. split; [done|reflexivity].
  - pose proof (emitData_idle mgr ls event s Hm Hl Hn Hidle) as Hp.
    cbn [map app drive feed]. rewrite (Hstuck _ (proj1 Hp)).
    destruct (IH (emitData event s)) as (s' & Hd & Hp').
    + destruct (control_fields _ _ (proj1 Hp)) as (-> & _). done.
    + intros s'' Hc. apply Hstuck. by rewrite Hc, (proj1 Hp).
    + exists s'. split; [done|]. by etrans.
Qed.

(** *** The phases of a reconnect *)

Lemma polite_phase s s' : polite_step s s' -> phase s' = phase s.
Proof.
  intros Hp. pose proof (polite_streamCalls _ _ Hp) as Ht.
  destruct (control_fields _ _ (proj1 Hp)) as (H1 & H2 & H3 & H4 & H5 & _ & _ & H8).
  unfold phase. congruence.
Qed.

Lemma phase_login f s m wl wr ri li res calls :
  phase s = (m, wl, wr, ri, li, res, calls) -> f ∉ res ->
  phase (resolve f (set_waitingForLogin false s)) =
  (m, false, wr, ri, li, f :: res, calls).
Proof.
  unfold phase, resolve. destruct s; cbn. intros [= -> -> -> -> -> -> <-] Hf.
  by rewrite bool_decide_false.
Qed.

Lemma phase_ready g s m wl wr ri li res calls :
  phase s = (m, wl, wr, ri, li, res, calls) -> g ∉ res ->
  phase (resolve g (set_waitingForReady false s)) =
  (m, wl, false, ri, li, g :: res, calls).
Proof.
  unfold phase, resolve. destruct s; cbn. intros [= -> -> -> -> -> -> <-] Hf.
  by rewrite bool_decide_false.
Qed.

Lemma phase_login_done m' s m wl wr ri li res calls :
  phase s = (m, wl, wr, ri, li, res, calls) ->
  phase (set_grpcManager m'
           (set_reconnectIndicator false (set_waitingForLogin false s))) =
  (m', false, wr, false, li, res, calls).
Proof. unfold phase. destruct s; cbn. by intros [= -> -> -> -> -> -> <-]. Qed.

Lemma phase_ready_done m' s m wl wr ri li res calls :
  phase s = (m, wl, wr, ri, li, res, calls) ->
  phase (set_grpcManager m' (set_waitingForReady false s)) =
  (m', wl, false, ri, li, res, calls).
Proof. unfold phase. destruct s; cbn. by intros [= -> -> -> -> -> -> <-]. Qed.

Lemma phase_super_reset s m wl wr ri li res calls :
  phase s = (m, wl, wr, ri, li, res, calls) ->
  phase (effect call_super_reset s) =
  (m, wl, wr, ri, li, res, calls ++ [call_super_reset]).
Proof.
  unfold phase. destruct s; cbn. intros [= -> -> -> -> -> -> <-].
  by rewrite streamCalls_app.
Qed.

Lemma phase_fields s m wl wr ri li res calls :
  phase s = (m, wl, wr, ri, li, res, calls) ->
  _grpcManager s = m /\ waitingForLogin s = wl /\ waitingForReady s = wr /\
  reconnectIndicator s = ri /\ isLoggedIn s = li /\ resolved s = res /\
  streamCalls (trace s) = calls.
Proof. unfold phase. by intros [= -> -> -> -> -> -> <-]. Qed.

Lemma filter_login_listener acc f g :
  filter (fun l => l ≠ L_onLogin acc f)
    [L_onGrpcStreamEvent; L_onLogin acc f; L_onReady g] =
  [L_onGrpcStreamEvent; L_onReady g].
Proof.
  rewrite filter_cons_True by done.
  rewrite filter_cons_False by (by intros ?).
  by rewrite filter_cons_True by done.
Qed.

Lemma filter_ready_listener g :
  filter (fun l => l ≠ L_onReady g) [L_onGrpcStreamEvent; L_onReady g] =
  [L_onGrpcStreamEvent].
Proof.
  rewrite filter_cons_True by done.
  by rewrite filter_cons_False by (by intros ?).
Qed.

(** The login event that the reconnect waits for arrives. *)
Lemma login_event_arrives acc f event s wr ri li res calls :
  let mgr := mkGrpcManager true
               [L_onGrpcStreamEvent; L_onLogin acc f; L_onReady (S f)] in
  phase s = (Some mgr, true, wr, ri, li, res, calls) ->
  f ∉ res -> S f ∉ res ->
  getType event = EVENT_TYPE_LOGIN ->
  truthy acc && bool_decide (contactId (getPayload event) ≠ acc) = false ->
  exists s',
    feed (in_data event)
      (awaitLogin acc f ≫=
       (fun loggedIn : bool => if loggedIn then awaitReady (S f) else mret tt)) s
    = (s', awaitReady (S f)) /\
    phase s' =
    (Some (mkGrpcManager true [L_onGrpcStreamEvent; L_onReady (S f)]),
     false, wr, false, li, f :: res, calls).
Proof.
  intros mgr Hs Hf Hg Hty Hacc.
  destruct (phase_fields _ _ _ _ _ _ _ _ Hs) as (Hm & _).
  destruct (emitData_polite mgr [L_onLogin acc f; L_onReady (S f)] event s Hm)
    as (s1 & H1 & H2); [done|by intros [H|H]%elem_of_cons;
                               [|apply list_elem_of_singleton in H]|].
  apply polite_phase in H1, H2. rewrite Hs in H1.
  destruct (phase_fields _ _ _ _ _ _ _ _ H1) as (_ & Hw1 & _).
  rewrite (listeners_login acc f (S f) event s1 Hty Hw1 Hacc) in H2.
  rewrite (phase_login f _ _ _ _ _ _ _ _ H1 Hf) in H2.
  destruct (phase_fields _ _ _ _ _ _ _ _ H2) as (Hm2 & _ & _ & _ & _ & Hr2 & _).
  cbn [feed].
  rewrite (login_wait_resolved acc f _ _ mgr Hm2)
    by (rewrite Hr2; left).
  cbn [streaming dataListeners mgr]. rewrite filter_login_listener.
  pose proof (phase_login_done
                (Some (mkGrpcManager true [L_onGrpcStreamEvent; L_onReady (S f)]))
                _ _ _ _ _ _ _ _ H2) as H3.
  destruct (phase_fields _ _ _ _ _ _ _ _ H3) as (_ & _ & _ & _ & _ & Hr3 & _).
  rewrite ready_wait_pending.
  - eexists. split; [reflexivity|exact H3].
  - rewrite Hr3. intros [Heq|Hin]%elem_of_cons; [lia|done].
Qed.

(** The ready event that the reconnect waits for arrives, or the time of
    the wait is up: either way [reset()] returns. *)
Lemma ready_wait_ends g (input : Input) s wl ri li res calls :
  let mgr := mkGrpcManager true [L_onGrpcStreamEvent; L_onReady g] in
  phase s = (Some mgr, wl, true, ri, li, res, calls) ->
  g ∉ res ->
  input = in_timeout \/
  (exists event, input = in_data event /\ getType event = EVENT_TYPE_READY) ->
  exists s' res',
    feed input (awaitReady g) s = (s', Done (Ok tt)) /\
    phase s' =
    (Some (mkGrpcManager true [L_onGrpcStreamEvent]),
     wl, false, ri, li, res', calls).
Proof.
  intros mgr Hs Hg [->|(event & -> & Hty)].
  - destruct (phase_fields _ _ _ _ _ _ _ _ Hs) as (Hm & _ & _ & _ & _ & Hr & _).
    rewrite (ready_wait_timeout g s mgr Hm) by (by rewrite Hr).
    cbn [streaming dataListeners mgr]. rewrite filter_ready_listener.
    eexists _, _. split; [reflexivity|].
    apply (phase_ready_done _ _ _ _ _ _ _ _ _ Hs).
  - destruct (phase_fields _ _ _ _ _ _ _ _ Hs) as (Hm & _).
    destruct (emitData_polite mgr [L_onReady g] event s Hm)
      as (s1 & H1 & H2); [done|by intros H%list_elem_of_singleton|].
    apply polite_phase in H1, H2. rewrite Hs in H1.
    destruct (phase_fields _ _ _ _ _ _ _ _ H1) as (_ & _ & Hw1 & _).
    rewrite (listeners_ready g event s1 Hty Hw1) in H2.
    rewrite (phase_ready g _ _ _ _ _ _ _ _ H1 Hg) in H2.
    destruct (phase_fields _ _ _ _ _ _ _ _ H2) as (Hm2 & _ & _ & _ & _ & Hr2 & _).
    cbn [feed].
    rewrite (ready_wait_resolved g _ mgr Hm2) by (rewrite Hr2; left).
    cbn [streaming dataListeners mgr]. rewrite filter_ready_listener.
    eexists _, _. split; [reflexivity|].
    apply (phase_ready_done _ _ _ _ _ _ _ _ _ H2).
Qed.

(** *** The reconnect from end to end *)

Lemma streamCalls_all (l : list Effect) :
  Forall (fun e => managesStream e = true) l -> streamCalls l = l.
Proof.
  unfold streamCalls. induction 1 as [|e l He _ IH]; [done|].
  rewrite filter_cons_True by done. by rewrite IH.
Qed.

Lemma streamCalls_reconnect n seq acc :
  streamCalls (call_stopStream :: replicate n (call_startStream seq acc)) =
  call_stopStream :: replicate n (call_startStream seq acc).
Proof.
  apply streamCalls_all. constructor; [done|].
  apply Forall_forall. by intros e [-> _]%elem_of_replicate.
Qed.

Lemma reconnect_after_login s rs dt events1 login events2 final :
  fastPath s [] -> freshFutures s ->
  retried (now s) (timeoutMilliseconds s / 10) (now s) rs ->
  (0 <= dt < 30000)%Z ->
  Forall (fun event => getType event <> EVENT_TYPE_LOGIN /\
                       getType event <> EVENT_TYPE_READY) events1 ->
  getType login = EVENT_TYPE_LOGIN ->
  (truthy (accountId (storedData s)) = true ->
   contactId (getPayload login) = accountId (storedData s)) ->
  Forall (fun event => getType event <> EVENT_TYPE_READY) events2 ->
  final = in_timeout \/
  (exists event, final = in_data event /\ getType event = EVENT_TYPE_READY) ->
  let r := run reset
             (flat_map retryInputs rs ++ in_settle Resolved dt ::
              map in_data (events1 ++ login :: events2) ++ [final]) s in
  exists res,
    snd r = Done (Ok tt) /\
    phase (fst r) =
    (Some (mkGrpcManager true [L_onGrpcStreamEvent]), false, false, false, true,
     res,
     streamCalls (trace s) ++
     call_stopStream ::
     replicate (S (length rs))
       (call_startStream (lastEventSeq (storedData s)) (accountId (storedData s)))).
Proof.
  intros Hfast Hfresh Hrs Hdt Hev1 Hty Hacc Hev2 Hfinal.
  set (acc := accountId (storedData s)) in *.
  set (f := nextFuture s).
  destruct (reset_waits_for_login s rs dt
              (map in_data (events1 ++ login :: events2) ++ [final])
              Hfast Hrs Hdt)
    as (s0 & Hrun & Hm0 & Hwl0 & Hwr0 & Hri0 & Hli0 & Hres0 & Ht0).
  cbv zeta. rewrite Hrun. clear Hrun. fold acc f in Hm0 |- *.
  assert ((f ∉ resolved s) /\ (S f ∉ resolved s)) as [Hf Hg].
  { split; intros H%Hfresh; unfold f in H; lia. }
  set (κ := fun loggedIn : bool => if loggedIn then awaitReady (S f) else mret tt).
  set (calls := streamCalls (trace s) ++ _).
  set (mgrL := mkGrpcManager true
                 [L_onGrpcStreamEvent; L_onLogin acc f; L_onReady (S f)]) in *.
  set (mgrR := mkGrpcManager true [L_onGrpcStreamEvent; L_onReady (S f)]).
  assert (phase s0 = (Some mgrL, true, true, true, true, resolved s, calls))
    as Hp0.
  { unfold phase. rewrite Hm0, Hwl0, Hwr0, Hri0, Hli0, Hres0, Ht0.
    by rewrite streamCalls_app, streamCalls_reconnect. }
  (* envelopes in front of the login event *)
  rewrite map_app, <- app_assoc. cbn [map app].
  destruct (drive_idle mgrL [L_onLogin acc f; L_onReady (S f)]
              (awaitLogin acc f ≫= κ) events1
              (in_data login :: map in_data events2 ++ [final]) s0)
    as (s1 & -> & Hp1); try done.
  { by intros [H|H]%elem_of_cons; [|apply list_elem_of_singleton in H]. }
  { eapply Forall_impl; [exact Hev1|]. intros event [? ?] ?.
    by apply listeners_idle. }
  { intros s' Hc. apply login_wait_pending.
    destruct (control_fields _ _ Hc) as (_&_&_&_&_&_&_&->). by rewrite Hres0. }
  apply polite_phase in Hp1. rewrite Hp0 in Hp1.
  (* the login event *)
  cbn [drive]. subst κ.
  destruct (login_event_arrives acc f login s1 _ _ _ _ _ Hp1 Hf Hg Hty)
    as (s2 & -> & Hp2).
  { destruct (truthy acc) eqn:Hta; [|done]. cbn.
    apply bool_decide_false. intros Hne. by apply Hne, Hacc. }
  fold mgrR in Hp2.
  (* envelopes in front of the ready event *)
  assert ((S f ∉ f :: resolved s)) as Hg'.
  { intros [Heq|Hin]%elem_of_cons; [lia|done]. }
  destruct (phase_fields _ _ _ _ _ _ _ _ Hp2) as (Hm2 & _ & _ & _ & _ & Hr2 & _).
  destruct (drive_idle mgrR [L_onReady (S f)] (awaitReady (S f)) events2
              [final] s2)
    as (s3 & -> & Hp3); try done.
  { by intros H%list_elem_of_singleton. }
  { eapply Forall_impl; [exact Hev2|]. intros event ? ?.
    by apply listeners_idle_ready. }
  { intros s' Hc. apply ready_wait_pending.
    destruct (control_fields _ _ Hc) as (_&_&_&_&_&_&_&->). by rewrite Hr2. }
  apply polite_phase in Hp3. rewrite Hp2 in Hp3.
  (* the end of the wait *)
  cbn [drive].
  destruct (ready_wait_ends (S f) final s3 _ _ _ _ _ Hp3 Hg' Hfinal)
    as (s4 & res' & -> & Hp4).
  by exists res'.
Qed.

(** X18.  A reconnect that goes through.  Let [reset()] take the fast path
    on a started session (the handler bridged, no listener of an earlier
    reconnect left), let the stream be re-established (at once or after
    failed attempts within the budget), and let the stream then deliver a
    login event for the persisted account (any account, if none is
    persisted) and later a ready event, with any other envelopes around
    them.  Then [reset()] returns normally; the reconnect indicator,
    [waitingForLogin] and [waitingForReady] are cleared; the puppet is
    still logged in; the two listeners of the reconnect are removed again,
    so that the handler is the only listener of [data]; and the stream was
    managed by one [stopStream()] and one [startStream(lastEventSeq,
    accountId)] per attempt, with the persisted values, and never by
    [super.reset()]. *)
Theorem reconnect_goes_through (s : PuppetService) (rs : list Retry) (dt : Z)
    (events1 : list EventResponse) (login : EventResponse)
    (events2 : list EventResponse) (ready : EventResponse) :
  fastPath s [] -> freshFutures s ->
  retried (now s) (timeoutMilliseconds s / 10) (now s) rs ->
  (0 <= dt < 30000)%Z ->
  Forall (fun event => getType event <> EVENT_TYPE_LOGIN /\
                       getType event <> EVENT_TYPE_READY) events1 ->
  getType login = EVENT_TYPE_LOGIN ->
  (truthy (accountId (storedData s)) = true ->
   contactId (getPayload login) = accountId (storedData s)) ->
  Forall (fun event => getType event <> EVENT_TYPE_READY) events2 ->
  getType ready = EVENT_TYPE_READY ->
  let r := run reset
             (flat_map retryInputs rs ++ in_settle Resolved dt ::
              map in_data (events1 ++ login :: events2 ++ [ready])) s in
  snd r = Done (Ok tt) /\
  reconnectIndicator (fst r) = false /\
  waitingForLogin (fst r) = false /\
  waitingForReady (fst r) = false /\
  isLoggedIn (fst r) = true /\
  _grpcManager (fst r) = Some (mkGrpcManager true [L_onGrpcStreamEvent]) /\
  streamCalls (trace (fst r)) =
  streamCalls (trace s) ++
  call_stopStream ::
  replicate (S (length rs))
    (call_startStream (lastEventSeq (storedData s)) (accountId (storedData s))).
Proof.
  intros Hfast Hfresh Hrs Hdt Hev1 Hty Hacc Hev2 Hready. cbv zeta.
  destruct (reconnect_after_login s rs dt events1 login events2 (in_data ready)
              Hfast Hfresh Hrs Hdt Hev1 Hty Hacc Hev2)
    as (res & Hdone & Hp); [right; by eexists|].
  replace (map in_data (events1 ++ login :: events2 ++ [ready]))
    with (map in_data (events1 ++ login :: events2) ++ [in_data ready])
    by (rewrite !map_app; cbn; by rewrite map_app, <- app_assoc).
  destruct (phase_fields _ _ _ _ _ _ _ _ Hp) as (H1 & H2 & H3 & H4 & H5 & _ & H7).
  done.
Qed.

Lemma reconnect_goes_through_witness :
  let login seq := mkEventResponse EVENT_TYPE_LOGIN (loginPayload "A1") seq in
  let ready seq := mkEventResponse EVENT_TYPE_READY (dataPayload "ready") seq in
  let r := run reset
             (retryInputs (mkRetry (Rejected "UNAVAILABLE") 100 0) ++
              [in_settle Resolved 10; in_data (message 3); in_data (login 4%Z);
               in_data (message 5); in_data (ready 6%Z)]) session in
  snd r = Done (Ok tt) /\
  _grpcManager (fst r) = Some (mkGrpcManager true [L_onGrpcStreamEvent]) /\
  streamCalls (trace (fst r)) =
  [call_startStream None None; call_stopStream;
   call_startStream None (Some "A1"); call_startStream None (Some "A1")].
Proof.
  intros login ready r.
  destruct (reconnect_goes_through session
              [mkRetry (Rejected "UNAVAILABLE") 100 0] 10
              [message 3] (login 4%Z) [message 5] (ready 6%Z))
    as (H1 & _ & _ & _ & _ & H6 & H7).
  - split; [eexists; split; vm_compute; reflexivity|].
    split; [apply not_elem_of_nil|].
    split; [vm_compute; reflexivity|]. split; [vm_compute; reflexivity|].
    split; [vm_compute; apply not_elem_of_nil|].
    intros l Hl. by apply elem_of_nil in Hl.
  - intros g Hg. vm_compute in Hg. by apply elem_of_nil in Hg.
  - split; [left; discriminate|]. split; [vm_compute; reflexivity|exact I].
  - lia.
  - repeat constructor; discriminate.
  - reflexivity.
  - intros _. vm_compute. reflexivity.
  - repeat constructor; discriminate.
  - reflexivity.
  - split; [exact H1|]. split; [exact H6|].
    etrans; [exact H7|]. vm_compute. reflexivity.
Defined.

(** X19.  The wait for the ready event is not fatal.  When the login event
    has arrived and the twenty seconds of the second wait pass without a
    ready event, [reset()] returns normally all the same: the flags are
    cleared, the ready listener is removed, and [super.reset()] is not
    called. *)
Theorem ready_timeout_is_not_fatal (s : PuppetService) (rs : list Retry) (dt : Z)
    (events1 : list EventResponse) (login : EventResponse)
    (events2 : list EventResponse) :
  fastPath s [] -> freshFutures s ->
  retried (now s) (timeoutMilliseconds s / 10) (now s) rs ->
  (0 <= dt < 30000)%Z ->
  Forall (fun event => getType event <> EVENT_TYPE_LOGIN /\
                       getType event <> EVENT_TYPE_READY) events1 ->
  getType login = EVENT_TYPE_LOGIN ->
  (truthy (accountId (storedData s)) = true ->
   contactId (getPayload login) = accountId (storedData s)) ->
  Forall (fun event => getType event <> EVENT_TYPE_READY) events2 ->
  let r := run reset
             (flat_map retryInputs rs ++ in_settle Resolved dt ::
              map in_data (events1 ++ login :: events2) ++ [in_timeout]) s in
  snd r = Done (Ok tt) /\
  reconnectIndicator (fst r) = false /\
  waitingForLogin (fst r) = false /\
  waitingForReady (fst r) = false /\
  _grpcManager (fst r) = Some (mkGrpcManager true [L_onGrpcStreamEvent]) /\
  streamCalls (trace (fst r)) =
  streamCalls (trace s) ++
  call_stopStream ::
  replicate (S (length rs))
    (call_startStream (lastEventSeq (storedData s)) (accountId (storedData s))).
Proof.
  intros Hfast Hfresh Hrs Hdt Hev1 Hty Hacc Hev2. cbv zeta.
  destruct (reconnect_after_login s rs dt events1 login events2 in_timeout
              Hfast Hfresh Hrs Hdt Hev1 Hty Hacc Hev2)
    as (res & Hdone & Hp); [by left|].
  destruct (phase_fields _ _ _ _ _ _ _ _ Hp) as (H1 & H2 & H3 & H4 & H5 & _ & H7).
  done.
Qed.

Lemma ready_timeout_is_not_fatal_witness :
  let login := mkEventResponse EVENT_TYPE_LOGIN (loginPayload "A1") 0 in
  let r := run reset [in_settle Resolved 10; in_data login; in_timeout] session in
  snd r = Done (Ok tt) /\
  waitingForReady (fst r) = false /\
  streamCalls (trace (fst r)) =
  [call_startStream None None; call_stopStream; call_startStream None (Some "A1")].
Proof.
  intros login r.
  destruct (ready_timeout_is_not_fatal session [] 10 [] login [])
    as (H1 & _ & _ & H4 & _ & H6).
  - split; [eexists; split; vm_compute; reflexivity|].
    split; [apply not_elem_of_nil|].
    split; [vm_compute; reflexivity|]. split; [vm_compute; reflexivity|].
    split; [vm_compute; apply not_elem_of_nil|].
    intros l Hl. by apply elem_of_nil in Hl.
  - intros g Hg. vm_compute in Hg. by apply elem_of_nil in Hg.
  - exact I.
  - lia.
  - constructor.
  - reflexivity.
  - intros _. vm_compute. reflexivity.
  - constructor.
  - split; [exact H1|]. split; [exact H4|].
    etrans; [exact H6|]. vm_compute. reflexivity.
Defined.

(** *** No login event *)

Lemma listeners_no_login acc f g event s :
  getType event <> EVENT_TYPE_LOGIN ->
  callResetListeners [L_onLogin acc f; L_onReady g] event s = onReady g event s.
Proof.
  intros Hl. cbn. unfold onLogin.
  rewrite (bool_decide_false (getType event = EVENT_TYPE_LOGIN)) by done.
  by rewrite andb_false_r.
Qed.

Lemma phase_onReady g event s m wl wr ri li res calls f :
  phase s = (m, wl, wr, ri, li, res, calls) -> f ∉ res -> f <> g ->
  exists wr' res',
    phase (onReady g event s) = (m, wl, wr', ri, li, res', calls) /\ f ∉ res'.
Proof.
  intros Hs Hf Hne. unfold onReady. destruct (_ && _).
  - unfold phase, resolve in *. destruct s; cbn in *.
    injection Hs as -> -> -> -> -> -> <-.
    case_bool_decide; cbn; eexists _, _; (split; [reflexivity|]); [done|].
    by intros [->|?]%elem_of_cons.
  - by eexists _, _.
Qed.

Lemma drive_unanswered acc f (κ : bool -> Async unit) events rest s
    wl wr ri li res calls :
  let mgr := mkGrpcManager true
               [L_onGrpcStreamEvent; L_onLogin acc f; L_onReady (S f)] in
  phase s = (Some mgr, wl, wr, ri, li, res, calls) -> f ∉ res ->
  Forall (fun event => getType event <> EVENT_TYPE_LOGIN) events ->
  exists s' wr' res',
    drive (map in_data events ++ rest) (awaitLogin acc f ≫= κ) s =
    drive rest (awaitLogin acc f ≫= κ) s' /\
    phase s' = (Some mgr, wl, wr', ri, li, res', calls) /\ f ∉ res'.
Proof.
  intros mgr Hs Hf Hev. revert s wr res Hs Hf.
  induction Hev as [|event events Hty _ IH]; intros s wr res Hs Hf.
  - by exists s, wr, res.
  - destruct (phase_fields _ _ _ _ _ _ _ _ Hs) as (Hm & _).
    destruct (emitData_polite mgr [L_onLogin acc f; L_onReady (S f)] event s Hm)
      as (s1 & H1 & H2); [done|by intros [H|H]%elem_of_cons;
                                 [|apply list_elem_of_singleton in H]|].
    apply polite_phase in H1, H2. rewrite Hs in H1.
    rewrite (listeners_no_login acc f (S f) event s1 Hty) in H2.
    destruct (phase_onReady (S f) event s1 _ _ _ _ _ _ _ f H1 Hf ltac:(lia))
      as (wr' & res' & H3 & Hf').
    rewrite H3 in H2.
    destruct (phase_fields _ _ _ _ _ _ _ _ H2) as (_ & _ & _ & _ & _ & Hr2 & _).
    cbn [map app drive feed].
    rewrite login_wait_pending by (by rewrite Hr2).
    apply (IH _ _ _ H2 Hf').
Qed.

(** X20.  No login event, no reconnect.  When the stream is re-established
    but delivers no login event before the thirty seconds of the first
    wait are up (other envelopes, a ready event among them, do not count),
    [reset()] clears [waitingForLogin] and the reconnect indicator, removes
    its login listener, calls [super.reset()] as its last action and
    returns; it does not wait for the ready event. *)
Theorem login_timeout_full_reset (s : PuppetService) (rs : list Retry) (dt : Z)
    (events : list EventResponse) :
  fastPath s [] -> freshFutures s ->
  retried (now s) (timeoutMilliseconds s / 10) (now s) rs ->
  (0 <= dt < 30000)%Z ->
  Forall (fun event => getType event <> EVENT_TYPE_LOGIN) events ->
  let r := run reset
             (flat_map retryInputs rs ++ in_settle Resolved dt ::
              map in_data events ++ [in_timeout]) s in
  snd r = Done (Ok tt) /\
  reconnectIndicator (fst r) = false /\
  waitingForLogin (fst r) = false /\
  _grpcManager (fst r) =
    Some (mkGrpcManager true
            [L_onGrpcStreamEvent; L_onReady (S (nextFuture s))]) /\
  streamCalls (trace (fst r)) =
  streamCalls (trace s) ++
  call_stopStream ::
  replicate (S (length rs))
    (call_startStream (lastEventSeq (storedData s)) (accountId (storedData s)))
  ++ [call_super_reset].
Proof.
  intros Hfast Hfresh Hrs Hdt Hev.
  set (acc := accountId (storedData s)) in *.
  set (f := nextFuture s).
  destruct (reset_waits_for_login s rs dt (map in_data events ++ [in_timeout])
              Hfast Hrs Hdt)
    as (s0 & Hrun & Hm0 & Hwl0 & Hwr0 & Hri0 & Hli0 & Hres0 & Ht0).
  cbv zeta. rewrite Hrun. clear Hrun. fold acc f in Hm0 |- *.
  assert (f ∉ resolved s) as Hf by (intros H%Hfresh; unfold f in H; lia).
  set (mgrL := mkGrpcManager true
                 [L_onGrpcStreamEvent; L_onLogin acc f; L_onReady (S f)]) in *.
  assert (phase s0 =
          (Some mgrL, true, true, true, true, resolved s,
           streamCalls (trace s) ++
           call_stopStream ::
           replicate (S (length rs))
             (call_startStream (lastEventSeq (storedData s)) acc))) as Hp0.
  { unfold phase. rewrite Hm0, Hwl0, Hwr0, Hri0, Hli0, Hres0, Ht0.
    by rewrite streamCalls_app, streamCalls_reconnect. }
  destruct (drive_unanswered acc f
              (fun loggedIn : bool =>
                 if loggedIn then awaitReady (S f) else mret tt)
              events [in_timeout] s0 _ _ _ _ _ _ Hp0 Hf Hev)
    as (s1 & wr1 & res1 & -> & Hp1 & Hf1).
  destruct (phase_fields _ _ _ _ _ _ _ _ Hp1) as (Hm1 & _ & _ & _ & _ & Hr1 & _).
  cbn [drive].
  rewrite (login_wait_timeout acc f _ s1 mgrL Hm1) by (by rewrite Hr1).
  cbn [streaming dataListeners mgrL advance mret Async_ret drive fst snd].
  rewrite filter_login_listener.
  pose proof (phase_login_done
                (Some (mkGrpcManager true [L_onGrpcStreamEvent; L_onReady (S f)]))
                _ _ _ _ _ _ _ _ Hp1) as Hp2.
  apply phase_super_reset in Hp2.
  destruct (phase_fields _ _ _ _ _ _ _ _ Hp2) as (H1 & H2 & _ & H4 & _ & _ & H7).
  split; [done|]. split; [done|]. split; [done|]. split; [done|].
  rewrite H7. by rewrite <- app_assoc.
Qed.

Lemma login_timeout_full_reset_witness :
  let ready := mkEventResponse EVENT_TYPE_READY (dataPayload "ready") 0 in
  let r := run reset [in_settle Resolved 10; in_data ready; in_timeout] session in
  snd r = Done (Ok tt) /\
  streamCalls (trace (fst r)) =
  [call_startStream None None; call_stopStream; call_startStream None (Some "A1");
   call_super_reset].
Proof.
  intros ready r.
  destruct (login_timeout_full_reset session [] 10 [ready])
    as (H1 & _ & _ & _ & H5).
  - split; [eexists; split; vm_compute; reflexivity|].
    split; [apply not_elem_of_nil|].
    split; [vm_compute; reflexivity|]. split; [vm_compute; reflexivity|].
    split; [vm_compute; apply not_elem_of_nil|].
    intros l Hl. by apply elem_of_nil in Hl.
  - intros g Hg. vm_compute in Hg. by apply elem_of_nil in Hg.
  - exact I.
  - lia.
  - repeat constructor; discriminate.
  - split; [exact H1|]. etrans; [exact H5|]. vm_compute. reflexivity.
Defined.

End ClientLifeProps.

(* ===================================================================== *)
(** * Properties of the unary calls *)
(* ===================================================================== *)

Module RpcProps.
Import Rpc.

Lemma unwrap_wrap (val : option bool) :
  OptionalBooleanUnwrapper (OptionalBooleanWrapper val) = val.
Proof. by destruct val as [[]|]. Qed.

Lemma unwrapPermission_wrapPermission (permission : RoomPermission) :
  unwrapPermission (wrapPermission permission) = permission.
Proof.
  destruct permission; unfold unwrapPermission, wrapPermission; cbn.
  by rewrite !unwrap_wrap.
Qed.

Lemma anyBoolean_unset : anyBoolean (unwrapPermission unsetFields) = false.
Proof. reflexivity. Qed.

(** X21.  The two [OptionalBoolean] helpers are inverse on what the caller
    can pass: a boolean or [undefined] that is wrapped and unwrapped comes
    back as it was, hence so does a whole set of room permissions; a wire
    value is wrapped back to itself unless it is a number outside the
    enumeration, which reads as [undefined]. *)
Theorem optional_boolean_round_trip :
  (forall val, OptionalBooleanUnwrapper (OptionalBooleanWrapper val) = val) /\
  (forall permission,
     unwrapPermission (wrapPermission permission) = permission) /\
  (forall wire,
     OptionalBooleanWrapper (OptionalBooleanUnwrapper wire) =
       match wire with BOOL_OTHER _ => BOOL_UNSET | _ => wire end).
Proof.
  split; [|split].
  - by intros [[]|].
  - intros []; unfold unwrapPermission, wrapPermission; cbn.
    by rewrite !unwrap_wrap.
  - by intros [].
Qed.

(** X22.  Reading the permissions of a room through the service gives
    exactly what the puppet answered, field by field, an [undefined] field
    included; an error of the puppet rejects the call, and so does a
    puppet that answers nothing. *)
Theorem room_permission_read
    (status : string -> string)
    (puppet : string -> option RoomPermission -> Result (option RoomPermission))
    (roomId : string) :
  roomPermission (served status (roomPermissionHandler puppet)) roomId None =
    match puppet roomId None with
    | Ok (Some permission) => Ok (Some permission)
    | Ok None =>
        Throw (status
          "Cannot read properties of undefined (reading 'inviteConfirm')")
    | Throw e => Throw (status e)
    end.
Proof.
  unfold roomPermission, served, roomPermissionHandler; cbn.
  destruct (puppet roomId None) as [[permission|]|e]; cbn; try done.
  by rewrite unwrapPermission_wrapPermission.
Qed.

(** X23.  Setting permissions of which one field at least is a boolean
    reaches the puppet as that very set of permissions, and the caller gets
    nothing back (or the puppet's error). *)
Theorem room_permission_write
    (status : string -> string)
    (puppet : string -> option RoomPermission -> Result (option RoomPermission))
    (roomId : string) (permission : RoomPermission) :
  anyBoolean permission = true ->
  roomPermission (served status (roomPermissionHandler puppet)) roomId
      (Some permission) =
    match puppet roomId (Some permission) with
    | Ok _ => Ok None
    | Throw e => Throw (status e)
    end.
Proof.
  intros Hany.
  unfold roomPermission, served, roomPermissionHandler; cbn.
  rewrite unwrapPermission_wrapPermission, Hany; cbn.
  by destruct (puppet roomId (Some permission)) as [result|e].
Qed.

Lemma room_permission_write_witness :
  let permission :=
    mkRoomPermission None (Some false) None (Some true) None None in
  let puppet (roomId : string) (arg : option RoomPermission) :=
    if bool_decide (arg = Some permission) then Ok None
    else Throw "other" in
  anyBoolean permission = true /\
  roomPermission (served id (roomPermissionHandler puppet)) "room"
      (Some permission) = Ok None.
Proof.
  cbv zeta. split; [reflexivity|].
  etrans; [by apply room_permission_write|]. reflexivity.
Defined.

(** X24.  Setting permissions none of whose fields is a boolean (the empty
    object) is served as a read: the puppet is asked for the permissions
    of the room, nothing is set, and the caller still gets nothing back. *)
Theorem room_permission_empty_write
    (status : string -> string)
    (puppet : string -> option RoomPermission -> Result (option RoomPermission))
    (roomId : string) (permission : RoomPermission) :
  anyBoolean permission = false ->
  roomPermission (served status (roomPermissionHandler puppet)) roomId
      (Some permission) =
    match puppet roomId None with
    | Ok (Some _) => Ok None
    | Ok None =>
        Throw (status
          "Cannot read properties of undefined (reading 'inviteConfirm')")
    | Throw e => Throw (status e)
    end.
Proof.
  intros Hany.
  unfold roomPermission, served, roomPermissionHandler; cbn.
  rewrite unwrapPermission_wrapPermission, Hany; cbn.
  by destruct (puppet roomId None) as [[result|]|e].
Qed.

Lemma room_permission_empty_write_witness :
  let permission := mkRoomPermission None None None None None None in
  let puppet (roomId : string) (arg : option RoomPermission) :=
    match arg with
    | None => Ok (Some (mkRoomPermission (Some true) None None None None None))
    | Some _ => Throw "set"
    end in
  anyBoolean permission = false /\
  roomPermission (served id (roomPermissionHandler puppet)) "room"
      (Some permission) = Ok None.
Proof.
  cbv zeta. split; [reflexivity|].
  etrans; [by apply room_permission_empty_write|]. reflexivity.
Defined.

(** X25.  The topic and the announcement of a room, through the service:
    a read gives the text of the puppet as it is, the empty text included;
    a write reaches the puppet's setter with the given text, the empty
    text included, and gives nothing back; an error of the puppet rejects
    the call. *)
Theorem room_text_end_to_end
    (status : string -> string)
    (puppet_get : string -> Result string)
    (puppet_set : string -> string -> Result unit)
    (roomId : string) :
  let call := served status (textHandler puppet_get puppet_set) in
  let read :=
    match puppet_get roomId with
    | Ok text => Ok (Some text)
    | Throw e => Throw (status e)
    end in
  let write (text : string) :=
    match puppet_set roomId text with
    | Ok _ => Ok None
    | Throw e => Throw (status e)
    end in
  roomTopic call roomId None = read /\
  roomAnnounce call roomId None = read /\
  (forall topic, roomTopic call roomId (Some topic) = write topic) /\
  (forall text, roomAnnounce call roomId (Some text) = write text).
Proof.
  cbv zeta.
  unfold roomTopic, roomAnnounce, served, textHandler, tr_hasText; cbn.
  repeat split.
  - destruct (puppet_get roomId) as [text|e]; cbn; [|done].
    by case_bool_decide; [|subst].
  - destruct (puppet_get roomId) as [text|e]; cbn; [|done].
    by case_bool_decide; [|subst].
  - intros topic. by destruct (puppet_set roomId topic) as [[]|e].
  - intros text. by destruct (puppet_set roomId text) as [[]|e].
Qed.

(** X26.  The alias of a contact, through the service: a read gives the
    alias of the puppet unless it is empty, in which case the client
    throws [can not get aliasWrapper]; setting [null] or the empty string
    reaches the puppet's setter as the empty string, and any other alias as
    it is. *)
Theorem contact_alias_end_to_end
    (status : string -> string)
    (puppet_get : string -> Result string)
    (puppet_set : string -> string -> Result unit)
    (contactId : string) :
  let call := served status (contactAliasHandler puppet_get puppet_set) in
  contactAlias call contactId None =
    match puppet_get contactId with
    | Ok alias =>
        if bool_decide (alias = "") then Throw "can not get aliasWrapper"
        else Ok (Some alias)
    | Throw e => Throw (status e)
    end /\
  (forall alias,
     contactAlias call contactId (Some alias) =
       match puppet_set contactId (default "" alias) with
       | Ok _ => Ok None
       | Throw e => Throw (status e)
       end).
Proof.
  cbv zeta.
  unfold contactAlias, contactAliasHandler, served, textHandler, tr_hasText;
    cbn.
  split.
  - destruct (puppet_get contactId) as [alias|e]; cbn; [|done].
    by do 2 case_bool_decide.
  - intros alias.
    assert (Heq : match alias with
                  | Some a => if bool_decide (a ≠ "") then a else ""
                  | None => ""
                  end = default "" alias).
    { destruct alias as [a|]; cbn; [|done]. by case_bool_decide. }
    rewrite Heq.
    by destruct (puppet_set contactId (default "" alias)) as [[]|e].
Qed.

End RpcProps.

(* ===================================================================== *)
(** * Properties of the contact payload cache *)
(* ===================================================================== *)

Module CacheProps.
Import Cache.

Lemma get_set id id' payload env :
  get id (set id' payload env) =
    if decide (id = id') then contact env ≫= fun _ => Some payload
    else get id env.
Proof.
  unfold get, set. destruct env as [[store|] cs]; cbn.
  - case_decide; simplify_map_eq; done.
  - by case_decide.
Qed.

Lemma get_request id call env : get id (request call env) = get id env.
Proof. done. Qed.

Lemma get_delete id id' env :
  get id (delete id' env) = if decide (id = id') then None else get id env.
Proof.
  unfold get, delete. destruct env as [[store|] cs]; cbn.
  - case_decide; simplify_map_eq; done.
  - by case_decide.
Qed.

(** [Set_of] keeps every member once, in the order of its first
    appearance. *)
Lemma Set_add_elem x y members : y ∈ Set_add x members <-> y = x \/ y ∈ members.
Proof.
  unfold Set_add. case_decide.
  - split; [by right|]. by intros [->|].
  - rewrite elem_of_app, list_elem_of_singleton. tauto.
Qed.

Lemma Set_add_NoDup x members : NoDup members -> NoDup (Set_add x members).
Proof.
  unfold Set_add. intros Hnd. case_decide; [done|].
  apply NoDup_app. split; [done|]. split; [|apply NoDup_singleton].
  intros y Hy ->%list_elem_of_singleton. done.
Qed.

Lemma Set_fold_spec l members :
  NoDup members ->
  let r := fold_left (fun members x => Set_add x members) l members in
  NoDup r /\ forall y, y ∈ r <-> y ∈ members \/ y ∈ l.
Proof.
  revert members. induction l as [|x l IH]; intros members Hnd; cbn.
  - split; [done|]. intros y. rewrite elem_of_nil. tauto.
  - destruct (IH (Set_add x members) (Set_add_NoDup _ _ Hnd)) as [H1 H2].
    split; [done|]. intros y. rewrite H2, Set_add_elem, elem_of_cons. tauto.
Qed.

Lemma Set_of_NoDup l : NoDup (Set_of l).
Proof. apply (Set_fold_spec l []), NoDup_nil_2. Qed.

Lemma Set_of_elem l y : y ∈ Set_of l <-> y ∈ l.
Proof.
  destruct (Set_fold_spec l [] (NoDup_nil_2)) as [_ H].
  unfold Set_of. rewrite H, elem_of_nil. tauto.
Qed.

Lemma scan_spec env ids result need :
  NoDup ids -> (forall x, x ∈ ids -> x ∉ need) ->
  snd (scan env ids (result, need)) =
    need ++ filter (fun id => get id env = None) ids /\
  forall id,
    fst (scan env ids (result, need)) !! id =
      match get id env with
      | Some payload => if decide (id ∈ ids) then Some payload else result !! id
      | None => result !! id
      end.
Proof.
  revert result need.
  induction ids as [|x ids IH]; intros result need Hnd Hfresh.
  - cbn. split; [by rewrite app_nil_r|]. intros id.
    destruct (get id env); [|done].
    by rewrite decide_False by apply not_elem_of_nil.
  - unfold scan; cbn [fold_left].
    apply NoDup_cons in Hnd as [Hx Hnd].
    destruct (get x env) as [cached|] eqn:Hget.
    + destruct (IH (<[x := cached]> result) need Hnd) as [H1 H2].
      { intros y Hy. apply Hfresh. by right. }
      fold (scan env ids (<[x := cached]> result, need)).
      rewrite H1.
      split.
      { by rewrite filter_cons_False by (by rewrite Hget). }
      intros id. rewrite H2.
      destruct (decide (id = x)) as [->|Hne].
      * rewrite Hget, lookup_insert_eq.
        rewrite decide_False by done. by rewrite decide_True by left.
      * rewrite lookup_insert_ne by done.
        destruct (get id env); [|done].
        destruct (decide (id ∈ ids)).
        -- by rewrite decide_True by (by right).
        -- rewrite decide_False; [done|].
           by intros [?|?]%elem_of_cons.
    + assert (Hadd : Set_add x need = need ++ [x]).
      { unfold Set_add. rewrite decide_False; [done|]. apply Hfresh. by left. }
      rewrite Hadd.
      destruct (IH result (need ++ [x]) Hnd) as [H1 H2].
      { intros y Hy [Hin| ->%list_elem_of_singleton]%elem_of_app; [|done].
        apply (Hfresh y); [by right|done]. }
      fold (scan env ids (result, need ++ [x])).
      rewrite H1.
      split.
      { rewrite filter_cons_True by done. by rewrite <- app_assoc. }
      intros id. rewrite H2.
      destruct (get id env) eqn:Hid; [|done].
      destruct (decide (id ∈ ids)).
      * by rewrite decide_True by (by right).
      * rewrite decide_False; [done|].
        intros [->|?]%elem_of_cons; [congruence|done].
Qed.

Lemma scan_batch env ids :
  snd (scan env (Set_of ids) (∅, [])) = missing env ids /\
  forall id,
    fst (scan env (Set_of ids) (∅, [])) !! id =
      if decide (id ∈ ids) then get id env else None.
Proof.
  destruct (scan_spec env (Set_of ids) ∅ [] (Set_of_NoDup ids)) as [H1 H2];
    [intros x _; apply not_elem_of_nil|].
  split; [done|]. intros id. rewrite H2, lookup_empty.
  destruct (get id env); destruct (decide (id ∈ ids)).
  - by rewrite decide_True by (by apply Set_of_elem).
  - by rewrite decide_False by (by rewrite Set_of_elem).
  - done.
  - done.
Qed.

Lemma missing_NoDup env ids : NoDup (missing env ids).
Proof. apply NoDup_filter, Set_of_NoDup. Qed.

Lemma missing_elem env ids id :
  id ∈ missing env ids <-> id ∈ ids /\ get id env = None.
Proof.
  unfold missing. rewrite list_elem_of_filter, Set_of_elem. tauto.
Qed.

Lemma missing_none env ids :
  (forall id, id ∈ ids -> is_Some (get id env)) -> missing env ids = [].
Proof.
  intros Hall. destruct (missing env ids) as [|x l] eqn:Hm; [done|].
  assert (Hx : x ∈ missing env ids) by (rewrite Hm; by left).
  apply missing_elem in Hx as [Hin Hnone].
  destruct (Hall x Hin) as [? ?]. congruence.
Qed.

Lemma contactRawPayload_miss client id env :
  get id env = None ->
  contactRawPayload client id env =
    match contactPayload client id with
    | Throw e => (request (call_contactPayload id) env, Throw e)
    | Ok response =>
        (set id (payloadOf response) (request (call_contactPayload id) env),
         Ok (payloadOf response))
    end.
Proof. unfold contactRawPayload. by intros ->. Qed.

Lemma oneByOne_all client responses needs result env :
  NoDup needs ->
  (forall id, id ∈ needs -> get id env = None) ->
  (forall id, id ∈ needs -> contactPayload client id = Ok (responses id)) ->
  exists env1 result1,
    oneByOne client needs result env = (env1, Ok result1) /\
    calls env1 = calls env ++ (call_contactPayload <$> needs) /\
    forall id,
      (id ∈ needs ->
         result1 !! id = Some (payloadOf (responses id)) /\
         get id env1 = contact env ≫= fun _ => Some (payloadOf (responses id))) /\
      (id ∉ needs -> result1 !! id = result !! id /\ get id env1 = get id env).
Proof.
  revert result env.
  induction needs as [|x needs IH]; intros result env Hnd Hmiss Hok.
  - exists env, result. cbn. split; [done|]. split; [by rewrite app_nil_r|].
    intros id. split; [by intros ?%elem_of_nil|done].
  - apply NoDup_cons in Hnd as [Hx Hnd]. cbn [oneByOne].
    rewrite contactRawPayload_miss by (apply Hmiss; by left).
    rewrite (Hok x) by (by left).
    set (payload := payloadOf (responses x)).
    set (env' := set x payload (request (call_contactPayload x) env)).
    destruct (IH (<[x := payload]> result) env' Hnd)
      as (env1 & result1 & Hrun & Hcalls & Hlook).
    { intros id Hid. unfold env'. rewrite get_set, get_request.
      rewrite decide_False by (by intros ->). apply Hmiss. by right. }
    { intros id Hid. apply Hok. by right. }
    exists env1, result1. split; [done|].
    split.
    { rewrite Hcalls. cbn. by rewrite <- app_assoc. }
    intros id. destruct (Hlook id) as [Hin Hout]. split.
    + intros [->|Hid]%elem_of_cons.
      * destruct (Hout Hx) as [-> ->]. rewrite lookup_insert_eq.
        unfold env'. rewrite get_set. by rewrite decide_True.
      * destruct (Hin Hid) as [-> ->]. split; [done|].
        by destruct env as [[?|] ?].
    + intros Hid. rewrite not_elem_of_cons in Hid. destruct Hid as [Hne Hid].
      destruct (Hout Hid) as [-> ->].
      rewrite lookup_insert_ne by done.
      unfold env'. rewrite get_set, get_request. by rewrite decide_False.
Qed.

Lemma oneByOne_fails client needs result env id e :
  NoDup needs ->
  (forall id, id ∈ needs -> get id env = None) ->
  id ∈ needs -> contactPayload client id = Throw e ->
  exists e', snd (oneByOne client needs result env) = Throw e'.
Proof.
  revert result env.
  induction needs as [|x needs IH]; intros result env Hnd Hmiss Hid Hfail.
  - by apply elem_of_nil in Hid.
  - apply NoDup_cons in Hnd as [Hx Hnd]. cbn [oneByOne].
    rewrite contactRawPayload_miss by (apply Hmiss; by left).
    destruct (contactPayload client x) as [response|e0] eqn:Hresp.
    + apply elem_of_cons in Hid as [->|Hid]; [congruence|].
      apply IH; [done| |done|done].
      intros id' Hid'. rewrite get_set, get_request.
      rewrite decide_False by (by intros ->). apply Hmiss. by right.
    + by exists e0.
Qed.

(** X27.  With a started store, a contact that was read once is read from
    the store afterwards: the second read returns the payload of the first
    without a call, whatever the server would answer now.  A read that
    failed stores nothing. *)
Theorem contact_payload_cached
    (client client' : GrpcClient) (id : string) (env : Env) :
  is_Some (contact env) ->
  match contactRawPayload client id env with
  | (env1, Ok payload) =>
      contactRawPayload client' id env1 = (env1, Ok payload)
  | (env1, Throw _) => contact env1 = contact env
  end.
Proof.
  intros Hopen. unfold contactRawPayload at 1.
  destruct (get id env) as [cached|] eqn:Hget.
  - unfold contactRawPayload. by rewrite Hget.
  - destruct (contactPayload client id) as [response|e]; [|done].
    unfold contactRawPayload. rewrite get_set.
    rewrite decide_True by done.
    change (contact (request (call_contactPayload id) env))
      with (contact env).
    by destruct Hopen as [? ->].
Qed.

Lemma contact_payload_cached_witness :
  is_Some (contact warm) /\
  snd (contactRawPayload answering "c2" warm) =
    Ok (payloadOf (contactOf "c2")) /\
  match contactRawPayload answering "c2" warm with
  | (env1, Ok payload) =>
      contactRawPayload failing "c2" env1 = (env1, Ok payload)
  | (env1, Throw _) => contact env1 = contact warm
  end.
Proof.
  split; [by eexists|]. split; [reflexivity|].
  apply contact_payload_cached. by eexists.
Defined.

Section batch.

Variable contactPbToPayload : ContactPayloadResponse -> Contact.t.

Lemma fill_spec payloads result env :
  let r := fill contactPbToPayload payloads (result, env) in
  calls (snd r) = calls env /\
  forall id,
    (id ∈ getId <$> payloads ->
       is_Some (fst r !! id) /\
       (is_Some (contact env) -> get id (snd r) = fst r !! id)) /\
    (id ∉ getId <$> payloads ->
       fst r !! id = result !! id /\ get id (snd r) = get id env).
Proof.
  revert result env.
  induction payloads as [|pb payloads IH]; intros result env; cbv zeta.
  - cbn. split; [done|]. intros id. split; [by intros ?%elem_of_nil|done].
  - unfold fill; cbn [fold_left].
    set (result' := <[getId pb := contactPbToPayload pb]> result).
    set (env' := set (getId pb) (contactPbToPayload pb) env).
    fold (fill contactPbToPayload payloads (result', env')).
    destruct (IH result' env') as [Hcalls Hlook]. cbv zeta in Hcalls, Hlook.
    split; [by rewrite Hcalls|].
    intros id. destruct (Hlook id) as [Hin Hout].
    destruct (decide (id ∈ getId <$> payloads)) as [Hid|Hid].
    + split; [|intros Hn; exfalso; apply Hn; rewrite fmap_cons; by right].
      intros _. destruct (Hin Hid) as [Hsome Hget]. split; [done|].
      intros Hopen. apply Hget. unfold env'.
      destruct env as [[?|] ?]; [by eexists|by destruct Hopen].
    + destruct (Hout Hid) as [Hr He]. rewrite Hr, He.
      split.
      * rewrite fmap_cons. intros [->|?]%elem_of_cons; [|done].
        unfold result', env'. rewrite lookup_insert_eq, get_set.
        rewrite decide_True by done. split; [by eexists|].
        by intros [? ->].
      * rewrite fmap_cons, not_elem_of_cons. intros [Hne _].
        unfold result', env'. rewrite lookup_insert_ne by done.
        rewrite get_set. by rewrite decide_False.
Qed.

Lemma batch_eq client ids env :
  batchContactRawPayload contactPbToPayload client ids env =
    let needs := missing env ids in
    let result := fst (scan env (Set_of ids) (∅, [])) in
    if bool_decide (0 < length needs) then
      let env' := request (call_batchContactPayload needs) env in
      match batchContactPayload client needs with
      | Ok payloads =>
          let r := fill contactPbToPayload payloads (result, env') in (snd r, Ok (fst r))
      | Throw e => oneByOne client needs result env'
      end
    else (env, Ok result).
Proof.
  unfold batchContactRawPayload.
  fold (scan env (Set_of ids) (∅, [])).
  destruct (scan_batch env ids) as [Hneed _].
  destruct (scan env (Set_of ids) (∅, [])) as [result need] eqn:Hscan.
  cbn in Hneed. subst need. cbv zeta.
  case_bool_decide; [|done].
  destruct (batchContactPayload client (missing env ids)) as [payloads|e];
    [|done].
  unfold fill. by destruct (fold_left _ payloads _).
Qed.

Lemma batch_all_cached client ids env :
  (forall id, id ∈ ids -> is_Some (get id env)) ->
  exists result,
    batchContactRawPayload contactPbToPayload client ids env =
      (env, Ok result) /\
    forall id, result !! id = if decide (id ∈ ids) then get id env else None.
Proof.
  intros Hall. rewrite batch_eq. cbv zeta.
  rewrite (missing_none _ _ Hall). cbn.
  eexists. split; [done|]. apply scan_batch.
Qed.

(** X28.  A batch read asks the server once, for exactly the contacts the
    store does not hold, each once and in the order of their first
    appearance, and not at all if there is none.  If the store is started
    and the server answers with a payload for each of them and no other,
    the map that is returned has an entry for each contact of the list
    and no other, a contact that was stored has its stored payload, and a
    second batch read of the list is served from the store: it returns
    the same map without a call, whatever the server would answer. *)
Theorem batch_contact_then_cached
    (client : GrpcClient) (ids : list string) (env : Env)
    (payloads : list ContactPayloadResponse) :
  is_Some (contact env) ->
  batchContactPayload client (missing env ids) = Ok payloads ->
  (forall id, id ∈ getId <$> payloads <-> id ∈ missing env ids) ->
  exists env1 result,
    batchContactRawPayload contactPbToPayload client ids env =
      (env1, Ok result) /\
    calls env1 =
      calls env ++
      (if decide (missing env ids = []) then []
       else [call_batchContactPayload (missing env ids)]) /\
    (forall id, is_Some (result !! id) <-> id ∈ ids) /\
    (forall id payload,
       id ∈ ids -> get id env = Some payload -> result !! id = Some payload) /\
    (forall client',
       batchContactRawPayload contactPbToPayload client' ids env1 =
         (env1, Ok result)).
Proof.
  intros Hopen Hbatch Hids.
  destruct (decide (missing env ids = [])) as [Hnone|Hsome].
  - assert (Hall : forall id, id ∈ ids -> is_Some (get id env)).
    { intros id Hid. destruct (get id env) eqn:Hget; [by eexists|].
      assert (Hm : id ∈ missing env ids) by (by apply missing_elem).
      rewrite Hnone in Hm. by apply elem_of_nil in Hm. }
    destruct (batch_all_cached client ids env Hall) as (result & Hrun & Hres).
    exists env, result. split; [done|]. split; [by rewrite app_nil_r|].
    split; [|split].
    + intros id. rewrite Hres. case_decide; [|by split; [intros [? ?]|]].
      split; [done|]. intros _. by apply Hall.
    + intros id payload Hid Hget. rewrite Hres. by rewrite decide_True.
    + intros client'.
      destruct (batch_all_cached client' ids env Hall)
        as (result' & Hrun' & Hres').
      rewrite Hrun'. do 2 f_equal. apply map_eq. intros id.
      by rewrite Hres, Hres'.
  - rewrite batch_eq. cbv zeta.
    rewrite bool_decide_true
      by (destruct (missing env ids); [done|cbn; lia]).
    rewrite Hbatch.
    destruct (scan_batch env ids) as [_ Hscan].
    set (scanned := fst (scan env (Set_of ids) (∅, []))) in *.
    set (env' := request (call_batchContactPayload (missing env ids)) env).
    destruct (fill_spec payloads scanned env') as [Hcalls Hlook].
    cbv zeta in Hcalls, Hlook.
    set (r := fill contactPbToPayload payloads (scanned, env')) in *.
    assert (Hres : forall id,
      (id ∈ ids -> is_Some (fst r !! id) /\ get id (snd r) = fst r !! id) /\
      (id ∉ ids -> fst r !! id = None)).
    { intros id. destruct (Hlook id) as [Hin Hout].
      destruct (decide (id ∈ missing env ids)) as [Hm|Hm].
      - apply missing_elem in Hm as Hm'. destruct Hm' as [Hid _].
        split; [|done]. intros _.
        destruct (Hin (proj2 (Hids id) Hm)) as [Hs Hg]. split; [done|].
        by apply Hg.
      - assert (Hp : id ∉ getId <$> payloads) by (by rewrite Hids).
        destruct (Hout Hp) as [-> ->]. rewrite Hscan. unfold env'.
        rewrite get_request. split.
        + intros Hid. rewrite decide_True by done. split; [|done].
          destruct (get id env) eqn:Hget; [by eexists|].
          destruct Hm. by apply missing_elem.
        + intros Hid. by rewrite decide_False. }
    exists (snd r), (fst r). split; [done|].
    split; [by rewrite Hcalls|]. split; [|split].
    + intros id. destruct (Hres id) as [Hin Hout]. split.
      * intros Hs. destruct (decide (id ∈ ids)) as [|Hn]; [done|].
        rewrite (Hout Hn) in Hs. by destruct Hs.
      * intros Hid. by apply Hin.
    + intros id payload Hid Hget.
      destruct (Hlook id) as [_ Hout].
      assert (Hp : id ∉ getId <$> payloads).
      { rewrite Hids, missing_elem. intros [_ ?]. congruence. }
      destruct (Hout Hp) as [-> _]. rewrite Hscan.
      by rewrite decide_True.
    + intros client'.
      assert (Hall : forall id, id ∈ ids -> is_Some (get id (snd r))).
      { intros id Hid. destruct (Hres id) as [Hin _].
        destruct (Hin Hid) as [Hs ->]. done. }
      destruct (batch_all_cached client' ids (snd r) Hall)
        as (result' & Hrun' & Hres').
      rewrite Hrun'. do 2 f_equal. apply map_eq. intros id.
      rewrite Hres'. destruct (Hres id) as [Hin Hout]. case_decide.
      * by destruct (Hin H) as [_ ->].
      * by rewrite Hout.
Qed.

(** X29.  When the batch call fails, the contacts that the store does not
    hold are read one by one, in the same order.  If each of these reads
    succeeds, the batch read succeeds: a contact that was stored has its
    stored payload and every other contact of the list the payload of its
    own read.  If one of them fails, the batch read as a whole is
    rejected. *)
Theorem batch_contact_falls_back
    (client : GrpcClient) (ids : list string) (env : Env) (e : string) :
  missing env ids <> [] ->
  batchContactPayload client (missing env ids) = Throw e ->
  let r := batchContactRawPayload contactPbToPayload client ids env in
  (forall responses : string -> ContactPayloadResponse,
     (forall id, id ∈ missing env ids ->
                 contactPayload client id = Ok (responses id)) ->
     exists result,
       snd r = Ok result /\
       calls (fst r) =
         calls env ++
         call_batchContactPayload (missing env ids)
           :: (call_contactPayload <$> missing env ids) /\
       forall id, id ∈ ids ->
         result !! id =
           Some (default (payloadOf (responses id)) (get id env))) /\
  (forall id e',
     id ∈ missing env ids -> contactPayload client id = Throw e' ->
     exists e'', snd r = Throw e'').
Proof.
  intros Hsome Hbatch r. unfold r. rewrite batch_eq. cbv zeta.
  rewrite bool_decide_true
    by (destruct (missing env ids); [done|cbn; lia]).
  rewrite Hbatch.
  destruct (scan_batch env ids) as [_ Hscan].
  set (scanned := fst (scan env (Set_of ids) (∅, []))) in *.
  set (env' := request (call_batchContactPayload (missing env ids)) env).
  assert (Hmiss : forall id, id ∈ missing env ids -> get id env' = None).
  { intros id Hid. by apply missing_elem in Hid as [_ ?]. }
  split.
  - intros responses Hok.
    destruct (oneByOne_all client responses (missing env ids) scanned env'
                (missing_NoDup env ids) Hmiss Hok)
      as (env1 & result & Hrun & Hcalls & Hlook).
    rewrite Hrun. cbn [fst snd]. exists result. split; [done|].
    split; [rewrite Hcalls; cbn; by rewrite <- app_assoc|].
    intros id Hid. destruct (Hlook id) as [Hin Hout].
    destruct (get id env) as [cached|] eqn:Hget; cbn.
    + assert (Hn : id ∉ missing env ids).
      { rewrite missing_elem. intros [_ ?]. congruence. }
      destruct (Hout Hn) as [-> _]. rewrite Hscan.
      by rewrite decide_True.
    + assert (Hm : id ∈ missing env ids) by (by apply missing_elem).
      by destruct (Hin Hm) as [-> _].
  - intros id e' Hid Hfail.
    by apply (oneByOne_fails client _ scanned env' id e'
                (missing_NoDup env ids) Hmiss).
Qed.

End batch.

Lemma batch_contact_then_cached_witness :
  let ids := ["c2"; "c1"; "c2"; "c3"] in
  let needs := ["c2"; "c3"] in
  missing warm ids = needs /\
  exists env1 result,
    batchContactRawPayload payloadOf answering ids warm = (env1, Ok result) /\
    calls env1 = [call_batchContactPayload needs] /\
    (forall id, is_Some (result !! id) <-> id ∈ ids) /\
    (forall client',
       batchContactRawPayload payloadOf client' ids env1 = (env1, Ok result)).
Proof.
  cbv zeta.
  assert (Hm : missing warm ["c2"; "c1"; "c2"; "c3"] = ["c2"; "c3"])
    by (vm_compute; reflexivity).
  split; [exact Hm|].
  destruct (batch_contact_then_cached payloadOf answering
              ["c2"; "c1"; "c2"; "c3"] warm (contactOf <$> ["c2"; "c3"]))
    as (env1 & result & Hrun & Hcalls & Hdom & _ & Hagain).
  - by eexists.
  - by rewrite Hm.
  - intros id. by rewrite Hm.
  - exists env1, result. rewrite Hm in Hcalls. by repeat split; try apply Hdom.
Defined.

Lemma batch_contact_falls_back_witness :
  let ids := ["c2"; "c1"; "c2"; "c3"] in
  let needs := ["c2"; "c3"] in
  let r := batchContactRawPayload payloadOf unbatched ids warm in
  missing warm ids = needs /\
  exists result,
    snd r = Ok result /\
    calls (fst r) =
      [call_batchContactPayload needs;
       call_contactPayload "c2"; call_contactPayload "c3"] /\
    forall id, id ∈ ids -> result !! id = Some (payloadOf (contactOf id)).
Proof.
  cbv zeta.
  assert (Hm : missing warm ["c2"; "c1"; "c2"; "c3"] = ["c2"; "c3"])
    by (vm_compute; reflexivity).
  split; [exact Hm|].
  destruct (batch_contact_falls_back payloadOf unbatched
              ["c2"; "c1"; "c2"; "c3"] warm "12 UNIMPLEMENTED")
    as [Hall _].
  - by rewrite Hm.
  - done.
  - destruct (Hall contactOf) as (result & Hrun & Hcalls & Hres); [done|].
    exists result. rewrite Hm in Hcalls. split; [done|]. split; [done|].
    intros id Hid. rewrite (Hres id Hid).
    destruct (get id warm) as [cached|] eqn:Hget; [|done].
    unfold get, warm in Hget. cbn in Hget.
    apply lookup_singleton_Some in Hget as [<- <-]. done.
Defined.

End CacheProps.

(* ===================================================================== *)
(** * The stream handler and the contact cache together *)
(* ===================================================================== *)

Module InvalidationProps.
Import Client.

(** X30.  A dirty envelope for a contact invalidates the store: once the
    handler of the stream has dealt with it, the store does not hold that
    contact any more, holds every other contact as before, and the next
    read of the contact asks the server. *)
Theorem dirty_contact_refetched
    (event : EventResponse) (s : PuppetService)
    (client : Cache.GrpcClient) (id : string) (env : Cache.Env) :
  getType event = EVENT_TYPE_DIRTY ->
  payloadType (getPayload event) = Some DirtyContact ->
  payloadId (getPayload event) = Some id ->
  let s' := complete (onGrpcStreamEvent event) s in
  let env' := Cache.replay (drop (length (trace s)) (trace s')) env in
  Cache.get id env' = None /\
  (forall other, other <> id -> Cache.get other env' = Cache.get other env) /\
  Cache.calls (fst (Cache.contactRawPayload client id env')) =
    Cache.calls env ++ [Cache.call_contactPayload id].
Proof.
  intros Hty Hkind Hid s' env'.
  assert (Henv : env' = Cache.delete id env).
  { unfold env', s'.
    destruct (ClientMoreProps.handler_trace event s) as (s2 & _ & Ht2 & ->);
      [by rewrite Hty|by rewrite Hty|].
    rewrite Hty.
    destruct (ClientMoreProps.dirty_trace (getPayload event) s2)
      as (mid & -> & Hmid).
    rewrite Hkind in Hmid. destruct Hmid as (type & [= <-] & ->).
    rewrite Ht2, Hty, Hid, <- app_assoc, drop_app_length. reflexivity. }
  rewrite Henv. split; [|split].
  - rewrite CacheProps.get_delete. by rewrite decide_True.
  - intros other Hne. rewrite CacheProps.get_delete. by rewrite decide_False.
  - rewrite CacheProps.contactRawPayload_miss
      by (rewrite CacheProps.get_delete; by rewrite decide_True).
    by destruct (Cache.contactPayload client id).
Qed.

Lemma dirty_contact_refetched_witness :
  let payload := mkPayload None None (Some DirtyContact) (Some "c1") "" in
  let event := mkEventResponse EVENT_TYPE_DIRTY payload 0 in
  let s := seen5 2000 in
  let s' := complete (onGrpcStreamEvent event) s in
  let env' := Cache.replay (drop (length (trace s)) (trace s')) Cache.warm in
  Cache.get "c1" Cache.warm = Some (Cache.payloadOf (Cache.contactOf "c1")) /\
  Cache.get "c1" env' = None /\
  Cache.calls (fst (Cache.contactRawPayload Cache.answering "c1" env')) =
    [Cache.call_contactPayload "c1"].
Proof.
  cbv zeta. split; [reflexivity|].
  destruct (dirty_contact_refetched
              (mkEventResponse EVENT_TYPE_DIRTY
                 (mkPayload None None (Some DirtyContact) (Some "c1") "") 0)
              (seen5 2000) Cache.answering "c1" Cache.warm)
    as (H1 & _ & H3); [reflexivity..|].
  by split.
Defined.

End InvalidationProps.
